(** * ads.txt: parsing and generation

    A shallow embedding of the [ads.txt] package (perry-mitchell/ads.txt):
    [parseAdsTxt] and [generateAdsTxt] with their helpers, followed by the
    properties of the two operations.

    JavaScript strings are sequences of UTF-16 code units; they are modelled
    as lists of [N].  Exceptions are modelled by a result type whose [Throw]
    case carries the exception that the JavaScript code raises. *)

From Stdlib Require Import NArith List Bool String Ascii Lia.
Import ListNotations.
Local Open Scope N_scope.

(* ================================================================= *)
(** ** Strings *)

Definition jsstring := list N.

(** A string literal as a sequence of code units. *)
Definition js (s : string) : jsstring :=
  map N_of_ascii (list_ascii_of_string s).

Definition LF : N := 10.
Definition CR : N := 13.
Definition SPACE : N := 32.
Definition QUOTE : N := 34.
Definition HASH : N := 35.
Definition PERCENT : N := 37.
Definition COMMA : N := 44.
Definition EQUALS : N := 61.

Definition jsstring_eqb (a b : jsstring) : bool :=
  if list_eq_dec N.eq_dec a b then true else false.

(** The characters matched by [\s] and removed by [String.prototype.trim]:
    ECMAScript WhiteSpace and LineTerminator. *)
Definition isWhiteSpace (c : N) : bool :=
  (9 <=? c) && (c <=? 13)
  || (c =? 32) || (c =? 0xA0) || (c =? 0x1680)
  || (0x2000 <=? c) && (c <=? 0x200A)
  || (c =? 0x2028) || (c =? 0x2029) || (c =? 0x202F)
  || (c =? 0x205F) || (c =? 0x3000) || (c =? 0xFEFF).

(** The characters that [.] does not match. *)
Definition isLineTerminator (c : N) : bool :=
  (c =? 10) || (c =? 13) || (c =? 0x2028) || (c =? 0x2029).

(** [[a-zA-Z]] *)
Definition isLetter (c : N) : bool :=
  (97 <=? c) && (c <=? 122) || (65 <=? c) && (c <=? 90).

Fixpoint dropWhile {A} (p : A -> bool) (l : list A) : list A :=
  match l with
  | [] => []
  | x :: t => if p x then dropWhile p t else l
  end.

Fixpoint span {A} (p : A -> bool) (l : list A) : list A * list A :=
  match l with
  | [] => ([], [])
  | x :: t => if p x then let (a, b) := span p t in (x :: a, b) else ([], l)
  end.

(** [s.trim()] *)
Definition trim (s : jsstring) : jsstring :=
  rev (dropWhile isWhiteSpace (rev (dropWhile isWhiteSpace s))).

(** [s.split(sep)] for a separator of one code unit; the result is never
    empty: [''.split(',')] is [['']]. *)
Fixpoint split (sep : N) (s : jsstring) : list jsstring :=
  match s with
  | [] => [[]]
  | c :: t =>
      if c =? sep then [] :: split sep t
      else match split sep t with
           | [] => [[c]]
           | p :: ps => (c :: p) :: ps
           end
  end.

(** [parts.join(sep)] *)
Fixpoint join (sep : jsstring) (parts : list jsstring) : jsstring :=
  match parts with
  | [] => []
  | [p] => p
  | p :: ps => p ++ sep ++ join sep ps
  end.

(** [s.split(NEW_LINE)] with [NEW_LINE = /\r\n|\n|\r/]: at each position the
    alternatives are tried in order, so a carriage return followed by a line
    feed is one separator. *)
Fixpoint splitNewLine (s : jsstring) : list jsstring :=
  match s with
  | [] => [[]]
  | c :: t =>
      if c =? CR then
        match t with
        | d :: t' => if d =? LF then [] :: splitNewLine t'
                     else [] :: splitNewLine t
        | [] => [] :: splitNewLine t
        end
      else if c =? LF then [] :: splitNewLine t
      else match splitNewLine t with
           | [] => [[c]]
           | p :: ps => (c :: p) :: ps
           end
  end.

(** [s.toUpperCase()].  The code only compares the result with the
    values of [AccountType], which are ASCII letters.  The code units whose
    upper-case form is an ASCII letter are the ASCII letters, U+0131
    (dotless i, to I) and U+017F (long s, to S); every other code unit is
    left as it is, since its upper-case form cannot occur in such a value. *)
Definition toUpperCaseUnit (c : N) : N :=
  if (97 <=? c) && (c <=? 122) then c - 32
  else if c =? 0x131 then 73
  else if c =? 0x17F then 83
  else c.

Definition toUpperCase (s : jsstring) : jsstring := map toUpperCaseUnit s.

(* ================================================================= *)
(** ** Exceptions *)

Inductive exn : Type :=
| URIError                 (* raised by decodeURIComponent *)
| TypeError                (* a method called on undefined *)
| Error (message : jsstring).

Inductive result (A : Type) : Type :=
| Return (a : A)
| Throw (e : exn).
Arguments Return {A} a.
Arguments Throw {A} e.

Definition bind {A B} (r : result A) (k : A -> result B) : result B :=
  match r with
  | Return a => k a
  | Throw e => Throw e
  end.

Notation "x <- r ;; k" := (bind r (fun x => k))
  (at level 61, r at next level, right associativity).

(** [l.map(f)] where [f] may throw: elements are visited in order and the
    first exception ends the traversal. *)
Fixpoint mapR {A B} (f : A -> result B) (l : list A) : result (list B) :=
  match l with
  | [] => Return []
  | x :: t => y <- f x ;; ys <- mapR f t ;; Return (y :: ys)
  end.

(** [l.forEach(f)] threading the state that [f] updates. *)
Fixpoint forEach {A S} (f : S -> A -> result S) (l : list A) (s : S)
  : result S :=
  match l with
  | [] => Return s
  | x :: t => s' <- f s x ;; forEach f t s'
  end.

(* ================================================================= *)
(** ** decodeURIComponent *)

Definition hexDigit (c : N) : option N :=
  if (48 <=? c) && (c <=? 57) then Some (c - 48)
  else if (65 <=? c) && (c <=? 70) then Some (c - 55)
  else if (97 <=? c) && (c <=? 102) then Some (c - 87)
  else None.

Definition hexByte (h l : N) : option N :=
  match hexDigit h, hexDigit l with
  | Some a, Some b => Some (16 * a + b)
  | _, _ => None
  end.

(** An escape [%XY] read as a byte. *)
Definition escape (p h l : N) : option N :=
  if p =? PERCENT then hexByte h l else None.

Definition isContinuation (b : N) : bool := (0x80 <=? b) && (b <? 0xC0).

(** The code point of a UTF-8 sequence of two, three or four bytes; [None]
    when the sequence is not the encoding of a Unicode code point (wrong
    continuation byte, overlong form, surrogate, above U+10FFFF). *)
Definition utf8Value (octets : list N) : option N :=
  match octets with
  | [b0; b1] =>
      let v := (b0 - 0xC0) * 64 + (b1 - 0x80) in
      if isContinuation b1 && (0x80 <=? v) then Some v else None
  | [b0; b1; b2] =>
      let v := (b0 - 0xE0) * 4096 + (b1 - 0x80) * 64 + (b2 - 0x80) in
      if isContinuation b1 && isContinuation b2 && (0x800 <=? v)
         && negb ((0xD800 <=? v) && (v <=? 0xDFFF))
      then Some v else None
  | [b0; b1; b2; b3] =>
      let v := (b0 - 0xF0) * 262144 + (b1 - 0x80) * 4096
               + (b2 - 0x80) * 64 + (b3 - 0x80) in
      if isContinuation b1 && isContinuation b2 && isContinuation b3
         && (0x10000 <=? v) && (v <=? 0x10FFFF)
      then Some v else None
  | _ => None
  end.

(** The UTF-16 code units of a code point. *)
Definition utf16 (v : N) : jsstring :=
  if v <? 0x10000 then [v]
  else [0xD800 + (v - 0x10000) / 1024; 0xDC00 + (v - 0x10000) mod 1024].

Definition emit (octets : option (list N)) (rest : result jsstring)
  : result jsstring :=
  match octets with
  | None => Throw URIError
  | Some os =>
      match utf8Value os with
      | None => Throw URIError
      | Some v => r <- rest ;; Return (utf16 v ++ r)
      end
  end.

Definition octets2 (b0 : N) (o1 : option N) : option (list N) :=
  match o1 with Some b1 => Some [b0; b1] | _ => None end.
Definition octets3 (b0 : N) (o1 o2 : option N) : option (list N) :=
  match o1, o2 with Some b1, Some b2 => Some [b0; b1; b2] | _, _ => None end.
Definition octets4 (b0 : N) (o1 o2 o3 : option N) : option (list N) :=
  match o1, o2, o3 with
  | Some b1, Some b2, Some b3 => Some [b0; b1; b2; b3]
  | _, _, _ => None
  end.

(** [decodeURIComponent(s)]: the Decode operation of ECMAScript with an
    empty reserved set.  A code unit other than [%] is copied; [%XY] below
    0x80 gives that code unit; a lead byte announces a UTF-8 sequence whose
    other bytes must follow as escapes.  Every failure is a URIError. *)
Fixpoint decodeURIComponent (s : jsstring) : result jsstring :=
  match s with
  | [] => Return []
  | c :: t =>
      if negb (c =? PERCENT) then r <- decodeURIComponent t ;; Return (c :: r)
      else
        match t with
        | h :: l :: t1 =>
            match hexByte h l with
            | None => Throw URIError
            | Some b =>
                if b <? 0x80 then r <- decodeURIComponent t1 ;; Return (b :: r)
                else if b <? 0xC0 then Throw URIError
                else if b <? 0xE0 then
                  match t1 with
                  | p1 :: h1 :: l1 :: t2 =>
                      emit (octets2 b (escape p1 h1 l1)) (decodeURIComponent t2)
                  | _ => Throw URIError
                  end
                else if b <? 0xF0 then
                  match t1 with
                  | p1 :: h1 :: l1 :: p2 :: h2 :: l2 :: t3 =>
                      emit (octets3 b (escape p1 h1 l1) (escape p2 h2 l2))
                           (decodeURIComponent t3)
                  | _ => Throw URIError
                  end
                else if b <? 0xF8 then
                  match t1 with
                  | p1 :: h1 :: l1 :: p2 :: h2 :: l2 :: p3 :: h3 :: l3 :: t4 =>
                      emit (octets4 b (escape p1 h1 l1) (escape p2 h2 l2)
                                      (escape p3 h3 l3))
                           (decodeURIComponent t4)
                  | _ => Throw URIError
                  end
                else Throw URIError
            end
        | _ => Throw URIError
        end
  end.


(* ================================================================= *)
(** ** Data model *)

(** [AdsTxtManifestField]: every property is a string or is missing
    ([undefined]). *)
Record AdsTxtManifestField : Type := mkField {
  domain : option jsstring;
  publisherAccountID : option jsstring;
  accountType : option jsstring;
  certificateAuthorityID : option jsstring;
  comment : option jsstring
}.

(** The value of a variable: a string, an array of strings, or any other
    JavaScript value, of which only its conversion to a string is used. *)
Inductive varvalue : Type :=
| VString (s : jsstring)
| VArray (a : list jsstring)
| VOther (shown : jsstring).

(** The [variables] object: its own properties in the order of
    [Object.keys], which is the order in which the keys were first
    assigned.  The parser reads [variables[name]] before it assigns: a name
    that is not an own property gives [undefined] or, for a name such as
    [constructor], a function inherited from [Object.prototype], and both
    are neither a string nor an array. *)
Definition variablesObject := list (jsstring * varvalue).

Record AdsTxtManifest : Type := mkManifest {
  variables : variablesObject;
  fields : list AdsTxtManifestField
}.

Fixpoint getProperty (vars : variablesObject) (key : jsstring)
  : option varvalue :=
  match vars with
  | [] => None
  | (k, v) :: t => if jsstring_eqb k key then Some v else getProperty t key
  end.

(** [vars[key] = value]: an existing key keeps its position. *)
Fixpoint setProperty (vars : variablesObject) (key : jsstring) (value : varvalue)
  : variablesObject :=
  match vars with
  | [] => [(key, value)]
  | (k, v) :: t =>
      if jsstring_eqb k key then (k, value) :: t
      else (k, v) :: setProperty t key value
  end.

(** [`${v}`] for a property that may be missing. *)
Definition toString (v : option jsstring) : jsstring :=
  match v with
  | Some s => s
  | None => js "undefined"
  end.

(** [v && v.length > 0], and also the negation of [!v]: a string that is
    present and not empty. *)
Definition nonEmpty (v : option jsstring) : bool :=
  match v with
  | Some (_ :: _) => true
  | _ => false
  end.

(* ================================================================= *)
(** ** The program *)

Definition AccountType : list jsstring := [js "DIRECT"; js "RESELLER"].

Definition DEFAULT_OPTIONS_invalidLineAction : jsstring := js "filter".

(** [EMPTY_LINE.test(line)] with [EMPTY_LINE = /^\s*$/] *)
Definition EMPTY_LINE (line : jsstring) : bool := forallb isWhiteSpace line.

(** [line.match(VARIABLE_DEFINITION)] with
    [VARIABLE_DEFINITION = /^([a-zA-Z]+)=(.+)$/]: the two captures, or [None]
    when the line does not match. *)
Definition VARIABLE_DEFINITION (line : jsstring)
  : option (jsstring * jsstring) :=
  match span isLetter line with
  | ((_ :: _) as name, c :: ((_ :: _) as value)) =>
      if (c =? EQUALS) && forallb (fun x => negb (isLineTerminator x)) value
      then Some (name, value) else None
  | _ => None
  end.

Definition stripComment (line : jsstring) : jsstring * jsstring :=
  match split HASH line with
  | main :: commentParts => (main, trim (join [HASH] commentParts))
  | [] => ([], [])
  end.

Definition isComment (line : jsstring) : bool :=
  match dropWhile isWhiteSpace line with
  | c :: _ => c =? HASH
  | [] => false
  end.

(** [objectValues(AccountType).indexOf(type.toUpperCase()) >= 0]; calling
    [toUpperCase] on [undefined] is a TypeError. *)
Definition isValidAccountType (type : option jsstring) : result bool :=
  match type with
  | None => Throw TypeError
  | Some t => Return (existsb (jsstring_eqb (toUpperCase t)) AccountType)
  end.

Definition isVariableAssignment (line : jsstring) : bool :=
  match VARIABLE_DEFINITION line with
  | Some _ => true
  | None => false
  end.

Definition createDataField (line : jsstring) : result AdsTxtManifestField :=
  let (commentStrippedLine, comment) := stripComment line in
  items <- mapR (fun item => decodeURIComponent (trim item))
                (split COMMA commentStrippedLine) ;;
  Return {| domain := nth_error items 0;
            publisherAccountID := nth_error items 1;
            accountType := nth_error items 2;
            certificateAuthorityID := nth_error items 3;
            comment := if nonEmpty (Some comment) then Some comment else None |}.

Definition generateLineForVariable (key : jsstring) (value : varvalue)
  : result jsstring :=
  match value with
  | VArray a => Return (join [LF] (map (fun single => key ++ [EQUALS] ++ single) a))
  | VString s => Return (key ++ [EQUALS] ++ s)
  | VOther shown =>
      Throw (Error (js "Failed generating ads.txt variable line: Invalid variable value: "
                    ++ shown))
  end.

Section AdsTxt.

(** The [is-domain-name] package, which is not part of this repository.
    It is taken as a total predicate on a string or a missing value: where
    the package raises an exception of its own, as it may on a missing
    domain, the model has a boolean instead.  The parser only passes it
    strings; the statements on generation either assume
    [isDomainName (domain field) = true] or speak of success alone. *)
Variable isDomainName : option jsstring -> bool.

Definition isDataField (line : jsstring) : bool :=
  let (commentStrippedLine, _) := stripComment line in
  let items := map trim (split COMMA commentStrippedLine) in
  let domain := nth_error items 0 in
  let accountType := nth_error items 2 in
  let r1 := isDomainName domain in
  match isValidAccountType accountType with
  | Return r2 => r1 && r2
  | Throw _ => false  (* silently fail *)
  end.

Definition generateLineForField (field : AdsTxtManifestField) : result jsstring :=
  if negb (isDomainName (domain field)) then
    Throw (Error (js "Failed generating ads.txt line: Invalid domain: "
                  ++ toString (domain field)))
  else if negb (nonEmpty (publisherAccountID field)) then
    Throw (Error (js "Failed generating ads.txt line: Invalid or missing publisher account ID"))
  else
    valid <- isValidAccountType (accountType field) ;;
    if negb valid then
      Throw (Error (js "Failed generating ads.txt line: Invalid account type: "
                    ++ toString (accountType field)))
    else
      let line := toString (domain field) ++ js ", "
                  ++ toString (publisherAccountID field) ++ js ", "
                  ++ toString (accountType field) in
      let line := if nonEmpty (certificateAuthorityID field)
                  then line ++ js ", " ++ toString (certificateAuthorityID field)
                  else line in
      let line := if nonEmpty (comment field)
                  then line ++ js " # " ++ toString (comment field)
                  else line in
      Return line.

(** The lines that a header or a footer adds. *)
Definition commentBlock (text : option jsstring) : list jsstring :=
  if nonEmpty text
  then map (fun line => js "# " ++ line) (split LF (toString text))
  else [].

Definition generateAdsTxt (manifest : AdsTxtManifest)
    (header footer : option jsstring) : result jsstring :=
  fieldLines <- mapR generateLineForField (fields manifest) ;;
  variableLines <- mapR (fun kv => generateLineForVariable (fst kv) (snd kv))
                        (variables manifest) ;;
  let lines := fieldLines ++ variableLines in
  let lines := commentBlock header ++ lines in
  let lines := lines ++ commentBlock footer in
  Return (join [LF] lines).

(** The body of the [forEach] callback of [parseAdsTxt], on the manifest
    built so far.  The test [isVariableAssignment(line)] and the
    [line.match(VARIABLE_DEFINITION)] that follows it use the same
    expression: they are the one match on [VARIABLE_DEFINITION line]. *)
Definition parseLine (invalidLineAction : jsstring) (m : AdsTxtManifest)
    (line : jsstring) : result AdsTxtManifest :=
  if isComment line || EMPTY_LINE line then Return m
  else
    match VARIABLE_DEFINITION line with
    | Some (variableName, value) =>
        match getProperty (variables m) variableName with
        | Some (VString s) =>
            v <- decodeURIComponent value ;;
            Return {| variables := setProperty (variables m) variableName (VArray [s; v]);
                      fields := fields m |}
        | Some (VArray a) =>
            v <- decodeURIComponent value ;;
            Return {| variables := setProperty (variables m) variableName (VArray (a ++ [v]));
                      fields := fields m |}
        | _ =>
            v <- decodeURIComponent value ;;
            Return {| variables := setProperty (variables m) variableName (VString v);
                      fields := fields m |}
        end
    | None =>
        if isDataField line then
          field <- createDataField line ;;
          Return {| variables := variables m; fields := fields m ++ [field] |}
        else if jsstring_eqb invalidLineAction (js "throw") then
          Throw (Error (js "Failed parsing ads.txt: Invalid line: "
                        ++ [QUOTE] ++ line ++ [QUOTE]))
        else Return m
    end.

(** [parseOptions] is the value of its [invalidLineAction] property, [None]
    when the property is not given. *)
Definition parseAdsTxt (text : jsstring) (parseOptions : option jsstring)
  : result AdsTxtManifest :=
  let invalidLineAction :=
    match parseOptions with
    | Some a => a
    | None => DEFAULT_OPTIONS_invalidLineAction
    end in
  if negb (existsb (jsstring_eqb invalidLineAction) [js "filter"; js "throw"]) then
    Throw (Error (js "Invalid option value for 'invalidLineAction' (must be 'filter' or 'throw'): "
                  ++ invalidLineAction))
  else
    forEach (parseLine invalidLineAction) (splitNewLine text)
            {| variables := []; fields := [] |}.

End AdsTxt.

(* ================================================================= *)
(** ** A domain predicate to run the program on

    Host names in the usual syntax: one or more labels separated by dots,
    each of 1 to 63 letters, digits and hyphens, beginning and ending with a
    letter or a digit; a final dot is allowed.  It stands for [isDomainName]
    where a property is shown on a concrete input. *)

Definition isAlnum (c : N) : bool :=
  isLetter c || (48 <=? c) && (c <=? 57).

Definition isLabel (l : jsstring) : bool :=
  match l, rev l with
  | a :: _, z :: _ =>
      isAlnum a && isAlnum z
      && forallb (fun c => isAlnum c || (c =? 45)) l
      && (N.of_nat (List.length l) <=? 63)
  | _, _ => false
  end.

Definition hostName (v : option jsstring) : bool :=
  match v with
  | None => false
  | Some s =>
      let labels := split 46 s in
      let labels := match rev labels with
                    | [] :: ((_ :: _) as r) => rev r
                    | _ => labels
                    end in
      forallb isLabel labels && (N.of_nat (List.length labels) <=? 127)
  end.

(* ================================================================= *)
(** ** The first revision: source/index.js

    The file [source/index.js] holds the parser as it was before generation
    was added: comments are removed with a regular expression, account
    types are compared as they are written, the domain is tested with the
    expression of the [domain-regex] package, and the line separator is an
    option.  Its [isComment] and [isVariableAssignment] are those above. *)

Module SourceIndex.

Definition DEFAULT_OPTIONS_newLine : jsstring := [LF].

(** [parseOptions]: each property is [None] when it is not given. *)
Record ParseOptions : Type := mkOptions {
  invalidLineAction : option jsstring;
  newLine : option jsstring
}.

Fixpoint isPrefix (pre s : jsstring) : bool :=
  match pre, s with
  | [], _ => true
  | c :: pre', d :: s' => (c =? d) && isPrefix pre' s'
  | _ :: _, [] => false
  end.

(** [s.split(sep)] for a separator that is not empty: [skip] counts the
    code units of a separator found that are still to be passed over. *)
Fixpoint splitAt (sep : jsstring) (skip : nat) (s : jsstring)
  : list jsstring :=
  match s with
  | [] => [[]]
  | c :: t =>
      match skip with
      | S k => splitAt sep k t
      | O =>
          if isPrefix sep s then [] :: splitAt sep (List.length sep - 1) t
          else match splitAt sep 0 t with
               | [] => [[c]]
               | p :: ps => (c :: p) :: ps
               end
      end
  end.

(** [s.split(sep)] for a string [sep]: the empty separator cuts between all
    code units. *)
Definition splitString (sep s : jsstring) : list jsstring :=
  match sep with
  | [] => map (fun c => [c]) s
  | _ :: _ => splitAt sep 0 s
  end.

(** [line.replace(LINE_COMMENT, "")] with [LINE_COMMENT = /#.+$/]: the match
    begins at the first hash sign that is followed, up to the end of the
    string, by one or more characters none of which is a line terminator. *)
Fixpoint replace_LINE_COMMENT (line : jsstring) : jsstring :=
  match line with
  | [] => []
  | c :: t =>
      if (c =? HASH) && nonEmpty (Some t)
         && forallb (fun x => negb (isLineTerminator x)) t
      then []
      else c :: replace_LINE_COMMENT t
  end.

Definition createDataField (line : jsstring) : result AdsTxtManifestField :=
  let commentStrippedLine := replace_LINE_COMMENT line in
  items <- mapR (fun item => decodeURIComponent (trim item))
                (split COMMA commentStrippedLine) ;;
  Return {| domain := nth_error items 0;
            publisherAccountID := nth_error items 1;
            accountType := nth_error items 2;
            certificateAuthorityID := nth_error items 3;
            comment := None |}.

(** [objectValues(AccountType).indexOf(type) >= 0]: no value of
    [AccountType] is [undefined]. *)
Definition isValidAccountType (type : option jsstring) : bool :=
  match type with
  | Some t => existsb (jsstring_eqb t) AccountType
  | None => false
  end.

Section WithDomainRegex.

(** [getDomainRegex().test], of the [domain-regex] package. *)
Variable domainExp : option jsstring -> bool.

Definition isDataField (line : jsstring) : bool :=
  let commentStrippedLine := replace_LINE_COMMENT line in
  let items := map trim (split COMMA commentStrippedLine) in
  let domain := nth_error items 0 in
  let accountType := nth_error items 2 in
  domainExp domain && isValidAccountType accountType.

Definition parseLine (action : jsstring) (m : AdsTxtManifest)
    (line : jsstring) : result AdsTxtManifest :=
  if isComment line || EMPTY_LINE line then Return m
  else
    match VARIABLE_DEFINITION line with
    | Some (variableName, value) =>
        match getProperty (variables m) variableName with
        | Some (VString s) =>
            v <- decodeURIComponent value ;;
            Return {| variables := setProperty (variables m) variableName (VArray [s; v]);
                      fields := fields m |}
        | Some (VArray a) =>
            v <- decodeURIComponent value ;;
            Return {| variables := setProperty (variables m) variableName (VArray (a ++ [v]));
                      fields := fields m |}
        | _ =>
            v <- decodeURIComponent value ;;
            Return {| variables := setProperty (variables m) variableName (VString v);
                      fields := fields m |}
        end
    | None =>
        if isDataField line then
          field <- createDataField line ;;
          Return {| variables := variables m; fields := fields m ++ [field] |}
        else if jsstring_eqb action (js "throw") then
          Throw (Error (js "Failed parsing ads.txt: Invalid line: "
                        ++ [QUOTE] ++ line ++ [QUOTE]))
        else Return m
    end.

Definition parseAdsTxt (text : jsstring) (parseOptions : ParseOptions)
  : result AdsTxtManifest :=
  let action :=
    match invalidLineAction parseOptions with
    | Some a => a
    | None => DEFAULT_OPTIONS_invalidLineAction
    end in
  let separator :=
    match newLine parseOptions with
    | Some n => n
    | None => DEFAULT_OPTIONS_newLine
    end in
  if negb (existsb (jsstring_eqb action) [js "filter"; js "throw"]) then
    Throw (Error (js "Invalid option value for 'invalidLineAction' (must be 'filter' or 'throw'): "
                  ++ action))
  else
    forEach (parseLine action) (splitString separator text)
            {| variables := []; fields := [] |}.

End WithDomainRegex.

End SourceIndex.

(* ================================================================= *)
(** ** The second revision: src/unnamed/part_000

    This revision has generation and [stripComment], but still compares
    account types as they are written, tests domains with the expression of
    [domain-regex] and splits the text at line feeds only.  Its
    [createDataField], [generateLineForVariable], [isComment],
    [isVariableAssignment] and [stripComment] are, word for word, those of
    the program above. *)

Module Part000.

(** [objectValues(AccountType).indexOf(type) >= 0] *)
Definition isValidAccountType (type : option jsstring) : bool :=
  match type with
  | Some t => existsb (jsstring_eqb t) AccountType
  | None => false
  end.

Section WithDomainRegex.

(** [getDomainRegex().test], of the [domain-regex] package. *)
Variable domainExp : option jsstring -> bool.

Definition isDataField (line : jsstring) : bool :=
  let (commentStrippedLine, _) := stripComment line in
  let items := map trim (split COMMA commentStrippedLine) in
  let domain := nth_error items 0 in
  let accountType := nth_error items 2 in
  domainExp domain && isValidAccountType accountType.

Definition generateLineForField (field : AdsTxtManifestField) : result jsstring :=
  if negb (domainExp (domain field)) then
    Throw (Error (js "Failed generating ads.txt line: Invalid domain: "
                  ++ toString (domain field)))
  else if negb (nonEmpty (publisherAccountID field)) then
    Throw (Error (js "Failed generating ads.txt line: Invalid or missing publisher account ID"))
  else if negb (isValidAccountType (accountType field)) then
    Throw (Error (js "Failed generating ads.txt line: Invalid account type: "
                  ++ toString (accountType field)))
  else
    let line := toString (domain field) ++ js ", "
                ++ toString (publisherAccountID field) ++ js ", "
                ++ toString (accountType field) in
    let line := if nonEmpty (certificateAuthorityID field)
                then line ++ js ", " ++ toString (certificateAuthorityID field)
                else line in
    let line := if nonEmpty (comment field)
                then line ++ js " # " ++ toString (comment field)
                else line in
    Return line.

Definition generateAdsTxt (manifest : AdsTxtManifest)
    (header footer : option jsstring) : result jsstring :=
  fieldLines <- mapR generateLineForField (fields manifest) ;;
  variableLines <- mapR (fun kv => generateLineForVariable (fst kv) (snd kv))
                        (variables manifest) ;;
  let lines := fieldLines ++ variableLines in
  let lines := commentBlock header ++ lines in
  let lines := lines ++ commentBlock footer in
  Return (join [LF] lines).

Definition parseLine (invalidLineAction : jsstring) (m : AdsTxtManifest)
    (line : jsstring) : result AdsTxtManifest :=
  if isComment line || EMPTY_LINE line then Return m
  else
    match VARIABLE_DEFINITION line with
    | Some (variableName, value) =>
        match getProperty (variables m) variableName with
        | Some (VString s) =>
            v <- decodeURIComponent value ;;
            Return {| variables := setProperty (variables m) variableName (VArray [s; v]);
                      fields := fields m |}
        | Some (VArray a) =>
            v <- decodeURIComponent value ;;
            Return {| variables := setProperty (variables m) variableName (VArray (a ++ [v]));
                      fields := fields m |}
        | _ =>
            v <- decodeURIComponent value ;;
            Return {| variables := setProperty (variables m) variableName (VString v);
                      fields := fields m |}
        end
    | None =>
        if isDataField line then
          field <- createDataField line ;;
          Return {| variables := variables m; fields := fields m ++ [field] |}
        else if jsstring_eqb invalidLineAction (js "throw") then
          Throw (Error (js "Failed parsing ads.txt: Invalid line: "
                        ++ [QUOTE] ++ line ++ [QUOTE]))
        else Return m
    end.

Definition parseAdsTxt (text : jsstring) (parseOptions : option jsstring)
  : result AdsTxtManifest :=
  let invalidLineAction :=
    match parseOptions with
    | Some a => a
    | None => DEFAULT_OPTIONS_invalidLineAction
    end in
  if negb (existsb (jsstring_eqb invalidLineAction) [js "filter"; js "throw"]) then
    Throw (Error (js "Invalid option value for 'invalidLineAction' (must be 'filter' or 'throw'): "
                  ++ invalidLineAction))
  else
    forEach (parseLine invalidLineAction) (split LF text)
            {| variables := []; fields := [] |}.

End WithDomainRegex.

End Part000.

(* ================================================================= *)
(** ** Notions used in the statements *)

(** The raw values that the lines matching VARIABLE_DEFINITION assign to
    [name], in the order of the lines. *)
Definition assignments (name : jsstring) (lines : list jsstring)
  : list jsstring :=
  flat_map (fun line =>
              match VARIABLE_DEFINITION line with
              | Some (variableName, value) =>
                  if jsstring_eqb variableName name then [value] else []
              | None => []
              end) lines.

(** The entry of a variable that was assigned the given values in turn:
    none, a string, or the array of all of them. *)
Definition accumulated (values : list jsstring) : option varvalue :=
  match values with
  | [] => None
  | [v] => Some (VString v)
  | _ => Some (VArray values)
  end.

(** A string with no carriage return and no line feed. *)
Definition oneLine (s : jsstring) : bool :=
  forallb (fun c => negb ((c =? CR) || (c =? LF))) s.

(** What the claims say of a parsed record, as far as the code ensures it:
    the three mandatory properties are strings, the domain and the account
    type are not empty, the account type is DIRECT or RESELLER up to case,
    and a comment, when there is one, is not empty. *)
Definition parsedField (r : AdsTxtManifestField) : Prop :=
  (exists d, domain r = Some d /\ d <> [])
  /\ (exists p, publisherAccountID r = Some p)
  /\ (exists t, accountType r = Some t /\ t <> []
                /\ In (toUpperCase t) AccountType)
  /\ (forall c, comment r = Some c -> c <> []).

(** A parsed variable is a string or an array of at least two strings. *)
Definition parsedVariable (v : varvalue) : Prop :=
  match v with
  | VString _ => True
  | VArray a => (2 <= List.length a)%nat
  | VOther _ => False
  end.

(** The text of the line-separator scenario of the unit tests. *)
Definition scenarioText : jsstring :=
  js "my.domain.com, 12345, DIRECT #Test" ++ [CR; LF]
  ++ js "website.org, my%20name,RESELLER,fafdf38b16bf6" ++ [LF]
  ++ js "test.net,555,DIRECT".

(** A field value that a data line carries unchanged: not empty, without
    white space at either end, and without a comma, a hash sign, a percent
    sign, a carriage return or a line feed. *)
Definition plain (s : jsstring) : bool :=
  nonEmpty (Some s) && jsstring_eqb (trim s) s
  && forallb (fun c => negb ((c =? COMMA) || (c =? HASH) || (c =? PERCENT)
                             || (c =? CR) || (c =? LF))) s.

(** A record that generation accepts and that its line carries unchanged:
    a valid domain with no equals sign, plain fields, a valid account type,
    and no comment. *)
Definition roundTripField (isDomainName : option jsstring -> bool)
    (r : AdsTxtManifestField) : bool :=
  match domain r, publisherAccountID r, accountType r with
  | Some d, Some p, Some t =>
      isDomainName (Some d) && plain d
      && forallb (fun c => negb (c =? EQUALS)) d
      && plain p
      && existsb (jsstring_eqb (toUpperCase t)) AccountType
      && match certificateAuthorityID r with
         | Some c => plain c
         | None => true
         end
      && match comment r with
         | Some _ => false
         | None => true
         end
  | _, _, _ => false
  end.

(** A variable that its line carries unchanged: a name of letters and a
    string value that is not empty and has no line terminator and no percent
    sign. *)
Definition roundTripVariable (kv : jsstring * varvalue) : bool :=
  match kv with
  | (key, VString value) =>
      nonEmpty (Some key) && forallb isLetter key
      && nonEmpty (Some value)
      && forallb (fun c => negb (isLineTerminator c || (c =? PERCENT))) value
  | _ => false
  end.

(** The end of a generated line: the certificate authority ID, if any. *)
Definition certificateTail (c : option jsstring) : list jsstring :=
  match c with
  | Some c => [SPACE :: c]
  | None => []
  end.

(** A line that the parser recognises: a comment, an empty line, a variable
    assignment or a data field. *)
Definition recognised (isDomainName : option jsstring -> bool)
    (line : jsstring) : bool :=
  isComment line || EMPTY_LINE line || isVariableAssignment line
  || isDataField isDomainName line.

(** A line that the parser skips. *)
Definition skipped (line : jsstring) : bool :=
  isComment line || EMPTY_LINE line.

(** A line from which the parser builds a record: not skipped, not a
    variable assignment, and classified as a data field. *)
Definition isRecordLine (isDomainName : option jsstring -> bool)
    (line : jsstring) : bool :=
  negb (skipped line) && negb (isVariableAssignment line)
  && isDataField isDomainName line.

(** The names of the lines that match VARIABLE_DEFINITION, in the order of
    the lines. *)
Definition variableNames (lines : list jsstring) : list jsstring :=
  flat_map (fun line =>
              match VARIABLE_DEFINITION line with
              | Some (variableName, _) => [variableName]
              | None => []
              end) lines.

(** The names of a list without repetition, each at its first occurrence. *)
Fixpoint firstSeen (names : list jsstring) : list jsstring :=
  match names with
  | [] => []
  | n :: l => n :: filter (fun x => negb (jsstring_eqb x n)) (firstSeen l)
  end.

(** A record that [generateLineForField] accepts: a valid domain, a
    publisher account ID that is not empty, and a string as account type
    whose upper-case form is DIRECT or RESELLER. *)
Definition acceptedField (isDomainName : option jsstring -> bool)
    (r : AdsTxtManifestField) : bool :=
  isDomainName (domain r) && nonEmpty (publisherAccountID r)
  && match accountType r with
     | Some t => existsb (jsstring_eqb (toUpperCase t)) AccountType
     | None => false
     end.

(** A variable value that [generateLineForVariable] accepts. *)
Definition acceptedValue (v : varvalue) : bool :=
  match v with
  | VOther _ => false
  | _ => true
  end.

(** The keys of an object after an assignment to the key [n]. *)
Definition addKey (ks : list jsstring) (n : jsstring) : list jsstring :=
  if existsb (jsstring_eqb n) ks then ks else ks ++ [n].

(** A comment that a generated line carries unchanged: not empty, without
    white space at either end, and on one line.  It may hold commas, hash
    signs and percent signs. *)
Definition plainComment (c : jsstring) : bool :=
  nonEmpty (Some c) && jsstring_eqb (trim c) c && oneLine c.

(** [roundTripField] for a record that may have a comment. *)
Definition roundTripRecord (isDomainName : option jsstring -> bool)
    (r : AdsTxtManifestField) : bool :=
  roundTripField isDomainName
    (mkField (domain r) (publisherAccountID r) (accountType r)
             (certificateAuthorityID r) None)
  && match comment r with
     | Some c => plainComment c
     | None => true
     end.

(** A variable name and a variable value that a line carries unchanged. *)
Definition plainName (k : jsstring) : bool :=
  nonEmpty (Some k) && forallb isLetter k.

Definition plainValue (v : jsstring) : bool :=
  nonEmpty (Some v)
  && forallb (fun c => negb (isLineTerminator c || (c =? PERCENT))) v.

(** [roundTripVariable] for an entry that may be an array. *)
Definition roundTripEntry (kv : jsstring * varvalue) : bool :=
  plainName (fst kv)
  && match snd kv with
     | VString v => plainValue v
     | VArray a => forallb plainValue a
     | VOther _ => false
     end.

(** What the parser makes of the lines of an entry: a string stays a
    string, an array is accumulated anew from its elements. *)
Definition reparsedValue (v : varvalue) : option varvalue :=
  match v with
  | VString s => Some (VString s)
  | VArray a => accumulated a
  | VOther _ => None
  end.

Definition reparsed (vars : variablesObject) : variablesObject :=
  flat_map (fun kv => match reparsedValue (snd kv) with
                      | Some v => [(fst kv, v)]
                      | None => []
                      end) vars.

(** A header or a footer without a carriage return. *)
Definition plainBlock (text : option jsstring) : bool :=
  match text with
  | Some t => forallb (fun c => negb (c =? CR)) t
  | None => true
  end.

(** A record whose account type is DIRECT or RESELLER as written, with a
    domain and a publisher account ID, and without a comment. *)
Definition canonicalField (r : AdsTxtManifestField) : Prop :=
  (exists d, domain r = Some d)
  /\ (exists p, publisherAccountID r = Some p)
  /\ (exists t, accountType r = Some t /\ In t AccountType)
  /\ comment r = None.

(** Whether a string begins with a line feed. *)
Definition startsWithLF (s : jsstring) : bool :=
  match s with
  | c :: _ => c =? LF
  | [] => false
  end.

(** A text given by its first line and the lines that follow, each with the
    separator that stands before it. *)
Fixpoint separated (first : jsstring) (rest : list (jsstring * jsstring))
  : jsstring :=
  match rest with
  | [] => first
  | (sep, line) :: rest' => first ++ sep ++ separated line rest'
  end.

(** The lines hold no carriage return and no line feed, every separator is
    one of [\n], [\r\n] and [\r], and no bare [\r] is directly followed by a
    line feed, with which it would be the one separator [\r\n]. *)
Fixpoint wellSeparated (first : jsstring) (rest : list (jsstring * jsstring))
  : bool :=
  oneLine first
  && match rest with
     | [] => true
     | (sep, line) :: rest' =>
         existsb (jsstring_eqb sep) [[LF]; [CR; LF]; [CR]]
         && negb (jsstring_eqb sep [CR] && startsWithLF (separated line rest'))
         && wellSeparated line rest'
     end.

(* ================================================================= *)
(** ** Basic facts *)

Lemma jsstring_eqb_eq (a b : jsstring) : jsstring_eqb a b = true <-> a = b.
Proof.
  unfold jsstring_eqb. destruct (list_eq_dec N.eq_dec a b); split; congruence.
Qed.

Lemma jsstring_eqb_refl (a : jsstring) : jsstring_eqb a a = true.
Proof. now apply jsstring_eqb_eq. Qed.

Lemma jsstring_eqb_neq (a b : jsstring) : jsstring_eqb a b = false <-> a <> b.
Proof.
  unfold jsstring_eqb. destruct (list_eq_dec N.eq_dec a b); split; congruence.
Qed.

Lemma existsb_eqb_In (x : jsstring) (l : list jsstring) :
  existsb (jsstring_eqb x) l = true <-> In x l.
Proof.
  rewrite existsb_exists. split.
  - intros [y [Hy E]]. apply jsstring_eqb_eq in E. now subst.
  - intros H. exists x. split; [assumption | apply jsstring_eqb_refl].
Qed.

Lemma isValidAccountType_valid t :
  In (toUpperCase t) AccountType -> isValidAccountType (Some t) = Return true.
Proof.
  intros H. unfold isValidAccountType.
  now rewrite (proj2 (existsb_eqb_In (toUpperCase t) AccountType) H).
Qed.

Lemma bind_Return {A B} (r : result A) (k : A -> result B) (b : B) :
  bind r k = Return b -> exists a, r = Return a /\ k a = Return b.
Proof. destruct r; simpl; [eauto | discriminate]. Qed.

Lemma mapR_app {A B} (f : A -> result B) (l1 l2 : list A) :
  mapR f (l1 ++ l2) = (ys1 <- mapR f l1 ;; ys2 <- mapR f l2 ;; Return (ys1 ++ ys2)).
Proof.
  induction l1 as [|x l1 IH]; simpl.
  - destruct (mapR f l2); reflexivity.
  - destruct (f x); simpl; [|reflexivity].
    rewrite IH. destruct (mapR f l1); simpl; [|reflexivity].
    destruct (mapR f l2); reflexivity.
Qed.

(** The first element on which the callback throws decides the exception. *)
Lemma mapR_first_throw {A B} (f : A -> result B) pre x post ys e :
  mapR f pre = Return ys -> f x = Throw e ->
  mapR f (pre ++ x :: post) = Throw e.
Proof.
  intros Hpre Hx. rewrite mapR_app, Hpre. simpl. now rewrite Hx.
Qed.

(** A traversal fails as soon as the callback throws on some element. *)
Lemma mapR_some_throw {A B} (f : A -> result B) pre x post e :
  f x = Throw e -> exists e', mapR f (pre ++ x :: post) = Throw e'.
Proof.
  intros Hx. rewrite mapR_app. destruct (mapR f pre); simpl; [|eauto].
  rewrite Hx. simpl. eauto.
Qed.

Lemma mapR_length {A B} (f : A -> result B) l ys :
  mapR f l = Return ys -> List.length ys = List.length l.
Proof.
  revert ys. induction l as [|a l IH]; intros ys H; simpl in H.
  - injection H as <-. reflexivity.
  - apply bind_Return in H. destruct H as [y [Hy H]].
    apply bind_Return in H. destruct H as [ys' [Hys H]].
    injection H as <-. simpl. f_equal. now apply IH.
Qed.

Lemma forEach_app {A S} (f : S -> A -> result S) l1 l2 s :
  forEach f (l1 ++ l2) s = (s' <- forEach f l1 s ;; forEach f l2 s').
Proof.
  revert s. induction l1 as [|x l1 IH]; intros s; simpl; [reflexivity|].
  destruct (f s x); simpl; [apply IH | reflexivity].
Qed.

(* ================================================================= *)
(** ** Unguarded decoding *)

(** C1 (the code departs from the claim).  The claim is that parsing with
    [invalidLineAction: "filter"] never throws.  In the code the
    percent-decoding of a variable value and of the pieces of a data line is
    not guarded: on a malformed escape [decodeURIComponent] raises a URIError
    that leaves [parseAdsTxt], whatever the domain predicate is. *)
Theorem parseAdsTxt_filter_throws_URIError :
  (forall isDomainName,
     parseAdsTxt isDomainName (js "CONTACT=100%") (Some (js "filter"))
     = Throw URIError)
  /\ parseAdsTxt hostName (js "example.com, 100%, DIRECT") (Some (js "filter"))
     = Throw URIError.
Proof. split; [intros isDomainName|]; reflexivity. Qed.

(** C9 (the code departs from the claim).  The claim is that pieces beyond
    the fourth cause no error.  [createDataField] decodes every piece before
    it keeps the first four, so a fifth piece with a malformed escape makes
    an accepted line throw. *)
Theorem createDataField_extra_piece_throws :
  let line := js "example.com, 1, DIRECT, ca, 100%" in
  List.length (split COMMA (fst (stripComment line))) = 5%nat
  /\ isDataField hostName line = true
  /\ createDataField line = Throw URIError
  /\ parseAdsTxt hostName line (Some (js "filter")) = Throw URIError.
Proof. repeat split; reflexivity. Qed.

(* ================================================================= *)
(** ** Splitting, trimming and decoding *)

Lemma split_no_sep sep a :
  forallb (fun c => negb (c =? sep)) a = true -> split sep a = [a].
Proof.
  induction a as [|c a IH]; simpl; [reflexivity|].
  intros H. apply andb_true_iff in H. destruct H as [Hc Ha].
  apply negb_true_iff in Hc. rewrite Hc, (IH Ha). reflexivity.
Qed.

Lemma split_app sep a b :
  forallb (fun c => negb (c =? sep)) a = true ->
  split sep (a ++ sep :: b) = a :: split sep b.
Proof.
  induction a as [|c a IH]; simpl.
  - now rewrite N.eqb_refl.
  - intros H. apply andb_true_iff in H. destruct H as [Hc Ha].
    apply negb_true_iff in Hc. rewrite Hc, (IH Ha). reflexivity.
Qed.

Lemma splitNewLine_oneLine a : oneLine a = true -> splitNewLine a = [a].
Proof.
  induction a as [|c a IH]; simpl; [reflexivity|].
  intros H. apply andb_true_iff in H. destruct H as [Hc Ha].
  apply negb_true_iff, orb_false_iff in Hc. destruct Hc as [H1 H2].
  rewrite H1, H2, (IH Ha). reflexivity.
Qed.

Lemma splitNewLine_LF a b :
  oneLine a = true -> splitNewLine (a ++ LF :: b) = a :: splitNewLine b.
Proof.
  induction a as [|c a IH]; simpl; [reflexivity|].
  intros H. apply andb_true_iff in H. destruct H as [Hc Ha].
  apply negb_true_iff, orb_false_iff in Hc. destruct Hc as [H1 H2].
  rewrite H1, H2, (IH Ha). reflexivity.
Qed.

Lemma splitNewLine_CRLF a b :
  oneLine a = true -> splitNewLine (a ++ CR :: LF :: b) = a :: splitNewLine b.
Proof.
  induction a as [|c a IH]; simpl; [reflexivity|].
  intros H. apply andb_true_iff in H. destruct H as [Hc Ha].
  apply negb_true_iff, orb_false_iff in Hc. destruct Hc as [H1 H2].
  rewrite H1, H2, (IH Ha). reflexivity.
Qed.

Lemma splitNewLine_CR a b :
  oneLine a = true -> hd_error b <> Some LF ->
  splitNewLine (a ++ CR :: b) = a :: splitNewLine b.
Proof.
  intros Ha Hb. induction a as [|c a IH]; simpl.
  - destruct b as [|d b]; [reflexivity|].
    destruct (d =? LF) eqn:E; [|reflexivity].
    apply N.eqb_eq in E. subst d. now elim Hb.
  - simpl in Ha. apply andb_true_iff in Ha. destruct Ha as [Hc Ha].
    apply negb_true_iff, orb_false_iff in Hc. destruct Hc as [H1 H2].
    rewrite H1, H2, (IH Ha). reflexivity.
Qed.

Lemma oneLine_app a b : oneLine (a ++ b) = oneLine a && oneLine b.
Proof. apply forallb_app. Qed.

Lemma splitNewLine_join lines :
  Forall (fun l => oneLine l = true) lines -> lines <> [] ->
  splitNewLine (join [LF] lines) = lines.
Proof.
  induction lines as [|l lines IH]; intros H Hne; [congruence|].
  inversion H as [|? ? Hl Hrest]; subst.
  destruct lines as [|l' lines].
  - simpl. now apply splitNewLine_oneLine.
  - change (join [LF] (l :: l' :: lines)) with (l ++ LF :: join [LF] (l' :: lines)).
    rewrite (splitNewLine_LF _ _ Hl), IH; [reflexivity | assumption | discriminate].
Qed.

Lemma dropWhile_length {A} (p : A -> bool) l :
  (List.length (dropWhile p l) <= List.length l)%nat.
Proof.
  induction l as [|x l IH]; simpl; [lia|]. destruct (p x); simpl; lia.
Qed.

Lemma trim_length s : (List.length (trim s) <= List.length s)%nat.
Proof.
  unfold trim. rewrite length_rev.
  etransitivity; [apply dropWhile_length|]. rewrite length_rev.
  apply dropWhile_length.
Qed.

Lemma trim_space_cons c s : isWhiteSpace c = true -> trim (c :: s) = trim s.
Proof. intros H. unfold trim. simpl. now rewrite H. Qed.

(** A string that [trim] leaves alone does not begin with white space. *)
Lemma trim_fixed_head c s :
  trim (c :: s) = c :: s -> isWhiteSpace c = false.
Proof.
  intros H. destruct (isWhiteSpace c) eqn:E; [|reflexivity].
  rewrite (trim_space_cons _ _ E) in H.
  pose proof (trim_length s) as L. rewrite H in L. simpl in L. lia.
Qed.

Lemma dropWhile_none {A} (p : A -> bool) l :
  forallb (fun x => negb (p x)) l = true -> dropWhile p l = l.
Proof.
  destruct l as [|x l]; simpl; [reflexivity|].
  intros H. apply andb_true_iff in H. destruct H as [H _].
  apply negb_true_iff in H. now rewrite H.
Qed.

Lemma forallb_rev {A} (p : A -> bool) l : forallb p (rev l) = forallb p l.
Proof.
  induction l as [|x l IH]; simpl; [reflexivity|].
  rewrite forallb_app, IH. simpl. rewrite andb_true_r. apply andb_comm.
Qed.

Lemma trim_no_space s :
  forallb (fun c => negb (isWhiteSpace c)) s = true -> trim s = s.
Proof.
  intros H. unfold trim. rewrite (dropWhile_none _ _ H).
  rewrite dropWhile_none; [apply rev_involutive|].
  now rewrite forallb_rev.
Qed.

Lemma decodeURIComponent_no_percent s :
  forallb (fun c => negb (c =? PERCENT)) s = true ->
  decodeURIComponent s = Return s.
Proof.
  induction s as [|c s IH]; simpl; [reflexivity|].
  intros H. apply andb_true_iff in H. destruct H as [Hc Hs].
  rewrite Hc, (IH Hs). reflexivity.
Qed.

Lemma emit_nonempty octets rest r :
  emit octets rest = Return r -> r <> [].
Proof.
  unfold emit. destruct octets as [os|]; [|discriminate].
  destruct (utf8Value os) as [v|]; [|discriminate].
  intros H. apply bind_Return in H. destruct H as [r' [_ [= <-]]].
  unfold utf16. destruct (v <? 65536); discriminate.
Qed.

Lemma decodeURIComponent_nonempty s r :
  decodeURIComponent s = Return r -> s <> [] -> r <> [].
Proof.
  destruct s as [|c t]; [congruence|]. intros H _. simpl in H.
  destruct (negb (c =? PERCENT)).
  { apply bind_Return in H. destruct H as [r' [_ [= <-]]]. discriminate. }
  destruct t as [|h [|l t1]]; try discriminate.
  destruct (hexByte h l) as [b|]; [|discriminate].
  destruct (b <? 128).
  { apply bind_Return in H. destruct H as [r' [_ [= <-]]]. discriminate. }
  destruct (b <? 192); [discriminate|].
  destruct (b <? 224).
  { destruct t1 as [|p1 [|h1 [|l1 t2]]]; try discriminate.
    eapply emit_nonempty; eauto. }
  destruct (b <? 240).
  { destruct t1 as [|p1 [|h1 [|l1 [|p2 [|h2 [|l2 t3]]]]]]; try discriminate.
    eapply emit_nonempty; eauto. }
  destruct (b <? 248); [|discriminate].
  destruct t1 as [|p1 [|h1 [|l1 [|p2 [|h2 [|l2 [|p3 [|h3 [|l3 t4]]]]]]]]];
    try discriminate.
  eapply emit_nonempty; eauto.
Qed.

(* ================================================================= *)
(** ** Generation *)

Section Generation.

Variable isDomainName : option jsstring -> bool.

(** The exception of the first record that is refused is the exception of
    the whole generation. *)
Lemma generateAdsTxt_first_throw m header footer pre field post ls e :
  fields m = pre ++ field :: post ->
  mapR (generateLineForField isDomainName) pre = Return ls ->
  generateLineForField isDomainName field = Throw e ->
  generateAdsTxt isDomainName m header footer = Throw e.
Proof.
  intros Hm Hpre Hf. unfold generateAdsTxt.
  rewrite Hm, (mapR_first_throw _ _ _ _ _ _ Hpre Hf). reflexivity.
Qed.

(** A refused record leaves no text, whatever else the manifest holds. *)
Lemma generateAdsTxt_some_throw m header footer pre field post e :
  fields m = pre ++ field :: post ->
  generateLineForField isDomainName field = Throw e ->
  exists e', generateAdsTxt isDomainName m header footer = Throw e'.
Proof.
  intros Hm Hf. unfold generateAdsTxt. rewrite Hm.
  destruct (mapR_some_throw _ pre field post e Hf) as [e' ->]. simpl. eauto.
Qed.

(** C3 (amended).  Generation validates the account type through the same
    check as the parser, which upper-cases the value before it compares it
    with DIRECT and RESELLER.  A record with a valid domain, a non-empty
    publisher account ID and a string [t] as account type gives a line when
    the upper-case form of [t] is DIRECT or RESELLER; otherwise it is refused
    with the invalid-account-type error naming [t], which is then the error
    of [generateAdsTxt] when the records before it are valid. *)
Theorem generateLineForField_accountType_folded field t :
  isDomainName (domain field) = true ->
  nonEmpty (publisherAccountID field) = true ->
  accountType field = Some t ->
  (In (toUpperCase t) AccountType ->
     exists line, generateLineForField isDomainName field = Return line)
  /\ (~ In (toUpperCase t) AccountType ->
      let e := Error (js "Failed generating ads.txt line: Invalid account type: " ++ t) in
      generateLineForField isDomainName field = Throw e
      /\ forall m header footer pre post ls,
           fields m = pre ++ field :: post ->
           mapR (generateLineForField isDomainName) pre = Return ls ->
           generateAdsTxt isDomainName m header footer = Throw e).
Proof.
  intros Hd Hp Ht.
  assert (Hgen : generateLineForField isDomainName field
                 = (valid <- isValidAccountType (Some t) ;;
                    if negb valid
                    then Throw (Error (js "Failed generating ads.txt line: Invalid account type: " ++ t))
                    else generateLineForField isDomainName field)).
  { unfold generateLineForField at 1. rewrite Hd, Hp, Ht.
    unfold isValidAccountType, bind, toString.
    destruct (existsb (jsstring_eqb (toUpperCase t)) AccountType) eqn:E;
      [|reflexivity].
    unfold generateLineForField. rewrite Hd, Hp, Ht.
    unfold isValidAccountType, bind, toString. now rewrite E. }
  split.
  - intros Hin. unfold generateLineForField. rewrite Hd, Hp, Ht.
    rewrite (isValidAccountType_valid _ Hin). simpl. eauto.
  - intros Hnin e.
    assert (Hb : existsb (jsstring_eqb (toUpperCase t)) AccountType = false).
    { destruct (existsb _ _) eqn:E; [|reflexivity].
      apply existsb_eqb_In in E. contradiction. }
    assert (Hf : generateLineForField isDomainName field = Throw e).
    { rewrite Hgen. unfold isValidAccountType, bind. now rewrite Hb. }
    split; [exact Hf|].
    intros m header footer pre post ls Hm Hpre.
    eapply generateAdsTxt_first_throw; eauto.
Qed.

(** C8 (amended).  A record with a valid domain whose publisher account ID
    is missing or empty is refused with the publisher-account-ID error, and
    a manifest that contains it gives no text at all.  The error of
    [generateAdsTxt] is that of the first refused record: it is the
    publisher-account-ID error when the records before this one are valid. *)
Theorem generateAdsTxt_missing_publisherAccountID m header footer pre field post :
  fields m = pre ++ field :: post ->
  isDomainName (domain field) = true ->
  nonEmpty (publisherAccountID field) = false ->
  let e := Error (js "Failed generating ads.txt line: Invalid or missing publisher account ID") in
  generateLineForField isDomainName field = Throw e
  /\ (exists e', generateAdsTxt isDomainName m header footer = Throw e')
  /\ (forall ls, mapR (generateLineForField isDomainName) pre = Return ls ->
      generateAdsTxt isDomainName m header footer = Throw e).
Proof.
  intros Hm Hd Hp e.
  assert (Hf : generateLineForField isDomainName field = Throw e).
  { unfold generateLineForField. rewrite Hd, Hp. reflexivity. }
  split; [exact Hf|]. split.
  - eapply generateAdsTxt_some_throw; eauto.
  - intros ls Hpre. eapply generateAdsTxt_first_throw; eauto.
Qed.

(** C10.  An empty array is not an invalid variable value: its entry gives
    the empty string, which is one empty line of the generated text. *)
Theorem generateAdsTxt_empty_array_line key m header footer pre post ls vs1 vs2 :
  variables m = pre ++ (key, VArray []) :: post ->
  mapR (generateLineForField isDomainName) (fields m) = Return ls ->
  mapR (fun kv => generateLineForVariable (fst kv) (snd kv)) pre = Return vs1 ->
  mapR (fun kv => generateLineForVariable (fst kv) (snd kv)) post = Return vs2 ->
  generateLineForVariable key (VArray []) = Return []
  /\ generateAdsTxt isDomainName m header footer
     = Return (join [LF] (commentBlock header
                          ++ (ls ++ vs1 ++ [] :: vs2)
                          ++ commentBlock footer)).
Proof.
  intros Hv Hls H1 H2. split; [reflexivity|].
  unfold generateAdsTxt. rewrite Hls, Hv, mapR_app, H1. simpl.
  rewrite H2. simpl. now rewrite <- app_assoc.
Qed.

End Generation.

(** C3: a record whose account type is not exactly DIRECT or RESELLER, and
    the text that generation gives for it. *)
Lemma generateAdsTxt_lower_case_accepted :
  let field := mkField (Some (js "example.com")) (Some (js "1"))
                       (Some (js "direct")) None None in
  accountType field = Some (js "direct")
  /\ ~ In (js "direct") AccountType
  /\ generateAdsTxt hostName {| variables := []; fields := [field] |} None None
     = Return (js "example.com, 1, direct").
Proof.
  split; [reflexivity|]. split; [|reflexivity].
  intros [H|[H|[]]]; vm_compute in H; discriminate.
Qed.

Lemma generateLineForField_accountType_folded_witness :
  exists line,
    generateLineForField hostName
      (mkField (Some (js "example.com")) (Some (js "1")) (Some (js "Reseller"))
               None None) = Return line.
Proof.
  refine (proj1 (generateLineForField_accountType_folded hostName
            (mkField (Some (js "example.com")) (Some (js "1"))
                     (Some (js "Reseller")) None None)
            (js "Reseller") _ _ _) _).
  - reflexivity.
  - reflexivity.
  - reflexivity.
  - vm_compute. right. left. reflexivity.
Defined.

(** C8: a manifest whose second record lacks the publisher account ID, and
    whose error names the domain of the first record instead. *)
Lemma generateAdsTxt_missing_publisherAccountID_other_error :
  let first := mkField (Some (js "not a domain")) (Some (js "1"))
                       (Some (js "DIRECT")) None None in
  let second := mkField (Some (js "example.com")) None
                        (Some (js "DIRECT")) None None in
  hostName (domain second) = true
  /\ publisherAccountID second = None
  /\ generateAdsTxt hostName {| variables := []; fields := [first; second] |}
                    None None
     = Throw (Error (js "Failed generating ads.txt line: Invalid domain: not a domain"))
  /\ generateAdsTxt hostName {| variables := []; fields := [first; second] |}
                    None None
     <> Throw (Error (js "Failed generating ads.txt line: Invalid or missing publisher account ID")).
Proof.
  repeat split; try reflexivity.
  intros H. vm_compute in H. discriminate.
Qed.

Lemma generateAdsTxt_missing_publisherAccountID_witness :
  generateAdsTxt hostName
    {| variables := [];
       fields := [mkField (Some (js "example.com")) (Some (js ""))
                          (Some (js "DIRECT")) None None] |} None None
  = Throw (Error (js "Failed generating ads.txt line: Invalid or missing publisher account ID")).
Proof.
  refine (proj2 (proj2 (generateAdsTxt_missing_publisherAccountID hostName
    {| variables := [];
       fields := [mkField (Some (js "example.com")) (Some (js ""))
                          (Some (js "DIRECT")) None None] |} None None
    [] (mkField (Some (js "example.com")) (Some (js ""))
                (Some (js "DIRECT")) None None) [] _ _ _)) [] _);
    reflexivity.
Defined.

Lemma generateAdsTxt_empty_array_line_witness :
  generateAdsTxt hostName
    {| variables := [(js "CONTACT", VString (js "Jane"));
                     (js "SUBDOMAIN", VArray []);
                     (js "OWNER", VString (js "x"))];
       fields := [] |} None None
  = Return (js "CONTACT=Jane" ++ [LF] ++ [] ++ [LF] ++ js "OWNER=x").
Proof.
  exact (proj2 (generateAdsTxt_empty_array_line hostName (js "SUBDOMAIN")
    {| variables := [(js "CONTACT", VString (js "Jane"));
                     (js "SUBDOMAIN", VArray []);
                     (js "OWNER", VString (js "x"))];
       fields := [] |} None None
    [(js "CONTACT", VString (js "Jane"))] [(js "OWNER", VString (js "x"))]
    [] [js "CONTACT=Jane"] [js "OWNER=x"]
    eq_refl eq_refl eq_refl eq_refl)).
Defined.

(* ================================================================= *)
(** ** The variables object *)

Lemma getProperty_setProperty_same vars key value :
  getProperty (setProperty vars key value) key = Some value.
Proof.
  induction vars as [|[k v] vars IH]; simpl.
  - now rewrite jsstring_eqb_refl.
  - destruct (jsstring_eqb k key) eqn:E; simpl; rewrite E; auto.
Qed.

Lemma getProperty_setProperty_other vars key value key' :
  key <> key' ->
  getProperty (setProperty vars key value) key' = getProperty vars key'.
Proof.
  intros Hne. induction vars as [|[k v] vars IH]; simpl.
  - destruct (jsstring_eqb key key') eqn:E; [|reflexivity].
    apply jsstring_eqb_eq in E. contradiction.
  - destruct (jsstring_eqb k key) eqn:E; simpl.
    + apply jsstring_eqb_eq in E. subst k.
      destruct (jsstring_eqb key key') eqn:E'; [|reflexivity].
      apply jsstring_eqb_eq in E'. contradiction.
    + destruct (jsstring_eqb k key'); auto.
Qed.

Lemma getProperty_In vars key value :
  getProperty vars key = Some value -> In value (map snd vars).
Proof.
  induction vars as [|[k v] vars IH]; simpl; [discriminate|].
  destruct (jsstring_eqb k key); [intros [= ->]; auto | auto].
Qed.

Lemma getProperty_absent vars key :
  ~ In key (map fst vars) -> getProperty vars key = None.
Proof.
  induction vars as [|[k v] vars IH]; simpl; [reflexivity|].
  intros Hn. destruct (jsstring_eqb k key) eqn:E.
  - apply jsstring_eqb_eq in E. tauto.
  - apply IH. tauto.
Qed.

Lemma setProperty_absent vars key value :
  ~ In key (map fst vars) -> setProperty vars key value = vars ++ [(key, value)].
Proof.
  induction vars as [|[k v] vars IH]; simpl; [reflexivity|].
  intros Hn. destruct (jsstring_eqb k key) eqn:E.
  - apply jsstring_eqb_eq in E. tauto.
  - f_equal. apply IH. tauto.
Qed.

Lemma setProperty_values (P : varvalue -> Prop) vars key value :
  Forall P (map snd vars) -> P value ->
  Forall P (map snd (setProperty vars key value)).
Proof.
  intros H Hv. induction vars as [|[k v] vars IH]; simpl.
  - constructor; auto.
  - simpl in H. inversion H; subst.
    destruct (jsstring_eqb k key); simpl; constructor; auto.
Qed.

(* ================================================================= *)
(** ** Line classification *)

Lemma span_letters_head l name rest :
  span isLetter l = (name, rest) -> name <> [] ->
  exists c t, l = c :: t /\ isLetter c = true.
Proof.
  destruct l as [|c t]; simpl.
  - intros [= <- <-]. congruence.
  - destruct (isLetter c) eqn:E.
    + intros _ _. eauto.
    + intros [= <- <-]. congruence.
Qed.

Lemma isLetter_not_space c : isLetter c = true -> isWhiteSpace c = false.
Proof.
  unfold isLetter, isWhiteSpace. intros H.
  apply orb_true_iff in H.
  repeat rewrite orb_false_iff. repeat rewrite andb_false_iff.
  repeat rewrite N.eqb_neq. repeat rewrite N.leb_gt.
  destruct H as [H|H]; apply andb_true_iff in H; destruct H as [H1 H2];
    apply N.leb_le in H1; apply N.leb_le in H2;
    repeat split; lia.
Qed.

Lemma isLetter_not_hash c : isLetter c = true -> (c =? HASH) = false.
Proof.
  unfold isLetter, HASH. intros H. apply N.eqb_neq.
  apply orb_true_iff in H.
  destruct H as [H|H]; apply andb_true_iff in H; destruct H as [H1 H2];
    apply N.leb_le in H1; apply N.leb_le in H2; lia.
Qed.

(** A line that matches VARIABLE_DEFINITION begins with a letter, so it is
    neither a comment nor an empty line: the parser treats it as an
    assignment. *)
Lemma VARIABLE_DEFINITION_not_skipped line name value :
  VARIABLE_DEFINITION line = Some (name, value) ->
  isComment line || EMPTY_LINE line = false.
Proof.
  unfold VARIABLE_DEFINITION. intros H.
  destruct (span isLetter line) as [n rest] eqn:Hs.
  destruct n as [|n0 n']; [discriminate|].
  destruct (span_letters_head _ _ _ Hs) as [c [t [-> Hc]]]; [discriminate|].
  unfold isComment, EMPTY_LINE. simpl.
  rewrite (isLetter_not_space _ Hc). simpl.
  now rewrite (isLetter_not_hash _ Hc).
Qed.

(* ================================================================= *)
(** ** Accumulation of variables *)

Section Parsing.

Variable isDomainName : option jsstring -> bool.

Lemma accumulated_snoc values v :
  match accumulated values with
  | Some (VString s) => Some (VArray [s; v])
  | Some (VArray a) => Some (VArray (a ++ [v]))
  | _ => Some (VString v)
  end = accumulated (values ++ [v]).
Proof.
  destruct values as [|a [|b [|c l]]]; reflexivity.
Qed.

(** One line keeps the entry of [name] equal to the accumulation of the
    values assigned to it so far. *)
Lemma parseLine_accumulates action name m line m' values :
  getProperty (variables m) name = accumulated values ->
  parseLine isDomainName action m line = Return m' ->
  exists vs,
    mapR decodeURIComponent (assignments name [line]) = Return vs
    /\ getProperty (variables m') name = accumulated (values ++ vs).
Proof.
  intros Hget Hp. unfold parseLine in Hp. unfold assignments. simpl.
  destruct (VARIABLE_DEFINITION line) as [[n value]|] eqn:Hv.
  - rewrite (VARIABLE_DEFINITION_not_skipped _ _ _ Hv) in Hp.
    assert (Hm' : exists v w,
               decodeURIComponent value = Return v
               /\ variables m' = setProperty (variables m) n w
               /\ w = match getProperty (variables m) n with
                      | Some (VString s) => VArray [s; v]
                      | Some (VArray a) => VArray (a ++ [v])
                      | _ => VString v
                      end).
    { destruct (getProperty (variables m) n) as [[s|a|o]|];
        apply bind_Return in Hp; destruct Hp as [v [Hd [= <-]]];
        simpl; eauto. }
    destruct Hm' as [v [w [Hd [Hvars Hw]]]].
    destruct (jsstring_eqb n name) eqn:E.
    + apply jsstring_eqb_eq in E. subst n. simpl. rewrite Hd. simpl.
      exists [v]. split; [reflexivity|].
      rewrite Hvars, getProperty_setProperty_same, <- accumulated_snoc.
      rewrite Hget in Hw. subst w.
      destruct (accumulated values) as [[s|a|o]|]; reflexivity.
    + apply jsstring_eqb_neq in E. simpl. exists []. split; [reflexivity|].
      rewrite app_nil_r, Hvars, getProperty_setProperty_other; auto.
  - simpl. exists []. split; [reflexivity|]. rewrite app_nil_r.
    destruct (isComment line || EMPTY_LINE line).
    + injection Hp as <-. assumption.
    + destruct (isDataField isDomainName line).
      * apply bind_Return in Hp. destruct Hp as [f [_ [= <-]]]. assumption.
      * destruct (jsstring_eqb action (js "throw")); [discriminate|].
        injection Hp as <-. assumption.
Qed.

Lemma assignments_cons name line lines :
  assignments name (line :: lines)
  = assignments name [line] ++ assignments name lines.
Proof. unfold assignments. simpl. now rewrite app_nil_r. Qed.

Lemma forEach_parseLine_accumulates action name lines :
  forall m m' values,
  getProperty (variables m) name = accumulated values ->
  forEach (parseLine isDomainName action) lines m = Return m' ->
  exists vs,
    mapR decodeURIComponent (assignments name lines) = Return vs
    /\ getProperty (variables m') name = accumulated (values ++ vs).
Proof.
  induction lines as [|line lines IH]; intros m m' values Hget Hp; simpl in Hp.
  - injection Hp as <-. exists []. rewrite app_nil_r. auto.
  - apply bind_Return in Hp. destruct Hp as [m1 [H1 Hp]].
    destruct (parseLine_accumulates _ _ _ _ _ _ Hget H1) as [vs1 [Hd1 Hg1]].
    destruct (IH _ _ _ Hg1 Hp) as [vs2 [Hd2 Hg2]].
    exists (vs1 ++ vs2). rewrite assignments_cons, mapR_app, Hd1. simpl.
    rewrite Hd2. simpl. now rewrite app_assoc.
Qed.

(** What [parseAdsTxt] returns is what its loop returns. *)
Lemma parseAdsTxt_Return text parseOptions m :
  parseAdsTxt isDomainName text parseOptions = Return m ->
  exists action,
    forEach (parseLine isDomainName action) (splitNewLine text)
            {| variables := []; fields := [] |} = Return m.
Proof.
  unfold parseAdsTxt. intros H.
  destruct (negb (existsb _ _)); [discriminate|]. eauto.
Qed.

(** C7.  When [parseAdsTxt] returns, the entry of a variable name is the
    accumulation of the decoded values of the lines that assign it, in the
    order of the text: no entry for no line, the string for one line, and
    for [k >= 2] lines the array of the [k] values. *)
Theorem parseAdsTxt_variables_accumulate text parseOptions m name :
  parseAdsTxt isDomainName text parseOptions = Return m ->
  exists values,
    mapR decodeURIComponent (assignments name (splitNewLine text)) = Return values
    /\ List.length values = List.length (assignments name (splitNewLine text))
    /\ getProperty (variables m) name
       = match values with
         | [] => None
         | [v] => Some (VString v)
         | _ => Some (VArray values)
         end.
Proof.
  intros H. apply parseAdsTxt_Return in H. destruct H as [action H].
  destruct (forEach_parseLine_accumulates action name _
              {| variables := []; fields := [] |} m [] eq_refl H)
    as [vs [Hd Hg]].
  exists vs. split; [exact Hd|]. split; [exact (mapR_length _ _ _ Hd)|].
  exact Hg.
Qed.

End Parsing.

Lemma parseAdsTxt_variables_accumulate_witness :
  exists values,
    mapR decodeURIComponent
      (assignments (js "a")
         (splitNewLine (js "a=x%20y" ++ [LF] ++ js "b=2" ++ [CR; LF] ++ js "a=3")))
      = Return values
    /\ List.length values = 2%nat
    /\ getProperty
         [(js "a", VArray [js "x y"; js "3"]); (js "b", VString (js "2"))]
         (js "a")
       = match values with
         | [] => None
         | [v] => Some (VString v)
         | _ => Some (VArray values)
         end.
Proof.
  exact (parseAdsTxt_variables_accumulate hostName
           (js "a=x%20y" ++ [LF] ++ js "b=2" ++ [CR; LF] ++ js "a=3") None
           {| variables := [(js "a", VArray [js "x y"; js "3"]);
                            (js "b", VString (js "2"))];
              fields := [] |}
           (js "a") eq_refl).
Defined.

(* ================================================================= *)
(** ** Account types *)

Lemma toUpperCaseUnit_letter c :
  (65 <=? toUpperCaseUnit c) && (toUpperCaseUnit c <=? 90) = true ->
  isLetter c = true \/ c = 0x131 \/ c = 0x17F.
Proof.
  unfold toUpperCaseUnit, isLetter. intros H.
  destruct ((97 <=? c) && (c <=? 122)) eqn:E1; [left; reflexivity|].
  destruct (c =? 0x131) eqn:E2; [apply N.eqb_eq in E2; auto|].
  destruct (c =? 0x17F) eqn:E3; [apply N.eqb_eq in E3; auto|].
  left. simpl. exact H.
Qed.

(** A property of code units that holds of the letters and of the two code
    units that upper-case to a letter holds throughout a valid account
    type. *)
Lemma valid_accountType_units (q : N -> bool) t :
  (forall c, isLetter c = true -> q c = true) ->
  q 0x131 = true -> q 0x17F = true ->
  In (toUpperCase t) AccountType -> forallb q t = true.
Proof.
  intros Hl H1 H2 Hin.
  assert (F : Forall (fun c => (65 <=? c) && (c <=? 90) = true) (toUpperCase t)).
  { destruct Hin as [<-|[<-|[]]]; repeat constructor. }
  unfold toUpperCase in F. rewrite Forall_map in F.
  apply forallb_forall. intros c Hc.
  rewrite Forall_forall in F. specialize (F c Hc).
  destruct (toUpperCaseUnit_letter c F) as [L|[->| ->]]; auto.
Qed.

Lemma isLetter_not_percent c : isLetter c = true -> negb (c =? PERCENT) = true.
Proof.
  unfold isLetter, PERCENT. intros H. apply negb_true_iff, N.eqb_neq.
  apply orb_true_iff in H.
  destruct H as [H|H]; apply andb_true_iff in H; destruct H as [H1 H2];
    apply N.leb_le in H1; apply N.leb_le in H2; lia.
Qed.

Lemma valid_accountType_decode t :
  In (toUpperCase t) AccountType -> decodeURIComponent t = Return t.
Proof.
  intros H. apply decodeURIComponent_no_percent.
  apply valid_accountType_units; auto using isLetter_not_percent.
Qed.

Lemma valid_accountType_nonempty t :
  In (toUpperCase t) AccountType -> t <> [].
Proof. intros [H|[H|[]]] ->; discriminate. Qed.

(* ================================================================= *)
(** ** Data lines *)

Section DataLines.

Variable isDomainName : option jsstring -> bool.

(** An accepted line has at least three pieces; the first, trimmed, is a
    valid domain and the third, trimmed, a valid account type. *)
Lemma isDataField_pieces line :
  isDataField isDomainName line = true ->
  exists p0 p1 p2 rest,
    split COMMA (fst (stripComment line)) = p0 :: p1 :: p2 :: rest
    /\ isDomainName (Some (trim p0)) = true
    /\ In (toUpperCase (trim p2)) AccountType.
Proof.
  unfold isDataField. destruct (stripComment line) as [main c]. simpl.
  destruct (split COMMA main) as [|p0 [|p1 [|p2 rest]]]; simpl;
    try discriminate.
  intros H. apply andb_true_iff in H. destruct H as [Hd Ht].
  exists p0, p1, p2, rest. split; [reflexivity|]. split; [assumption|].
  apply (existsb_eqb_In (toUpperCase (trim p2)) AccountType). exact Ht.
Qed.

Lemma createDataField_pieces line r p0 p1 p2 rest :
  split COMMA (fst (stripComment line)) = p0 :: p1 :: p2 :: rest ->
  createDataField line = Return r ->
  exists d p t items,
    decodeURIComponent (trim p0) = Return d
    /\ decodeURIComponent (trim p1) = Return p
    /\ decodeURIComponent (trim p2) = Return t
    /\ mapR (fun item => decodeURIComponent (trim item)) rest = Return items
    /\ r = {| domain := Some d;
              publisherAccountID := Some p;
              accountType := Some t;
              certificateAuthorityID := nth_error items 0;
              comment := if nonEmpty (Some (snd (stripComment line)))
                         then Some (snd (stripComment line)) else None |}.
Proof.
  unfold createDataField. destruct (stripComment line) as [main c]. simpl.
  intros -> H. simpl in H.
  apply bind_Return in H. destruct H as [items [Hi [= <-]]].
  apply bind_Return in Hi. destruct Hi as [d [Hd Hi]].
  apply bind_Return in Hi. destruct Hi as [i1 [Hi [= <-]]].
  apply bind_Return in Hi. destruct Hi as [p [Hp Hi]].
  apply bind_Return in Hi. destruct Hi as [i2 [Hi [= <-]]].
  apply bind_Return in Hi. destruct Hi as [t [Ht Hi]].
  apply bind_Return in Hi. destruct Hi as [i3 [Hi [= <-]]].
  exists d, p, t, i3. auto.
Qed.

(** C2 (amended).  Classification is case-insensitive, and the record keeps
    the account type as it is written: a line whose first field is a valid
    domain and whose third field is [direct], [Direct] or [DIRECT] is
    classified as a data field, and the record built from it has that third
    field, unchanged, as its account type; only its upper-case form is
    DIRECT. *)
Theorem isDataField_accountType_as_written line t :
  let items := map trim (split COMMA (fst (stripComment line))) in
  isDomainName (nth_error items 0) = true ->
  nth_error items 2 = Some t ->
  In t [js "direct"; js "Direct"; js "DIRECT"] ->
  isDataField isDomainName line = true
  /\ toUpperCase t = js "DIRECT"
  /\ forall r, createDataField line = Return r -> accountType r = Some t.
Proof.
  intros items Hd Ht Hin.
  assert (Hup : toUpperCase t = js "DIRECT").
  { destruct Hin as [<-|[<-|[<-|[]]]]; reflexivity. }
  assert (Hdf : isDataField isDomainName line = true).
  { unfold isDataField. destruct (stripComment line) as [main c]. simpl in *.
    fold items. rewrite Hd, Ht. simpl. rewrite Hup. reflexivity. }
  split; [exact Hdf|]. split; [exact Hup|].
  intros r Hr.
  destruct (isDataField_pieces _ Hdf) as [p0 [p1 [p2 [rest [Hs [_ Hv]]]]]].
  destruct (createDataField_pieces _ _ _ _ _ _ Hs Hr)
    as [d [p [t' [its [_ [_ [Ht' [_ ->]]]]]]]].
  simpl. subst items. rewrite Hs in Ht. simpl in Ht. injection Ht as <-.
  rewrite (valid_accountType_decode _ Hv) in Ht'. congruence.
Qed.

(** A record built from an accepted line. *)
Lemma createDataField_parsedField line r :
  isDomainName (Some []) = false ->
  isDataField isDomainName line = true ->
  createDataField line = Return r ->
  parsedField r.
Proof.
  intros He Hdf Hr.
  destruct (isDataField_pieces _ Hdf) as [p0 [p1 [p2 [rest [Hs [Hd Hv]]]]]].
  destruct (createDataField_pieces _ _ _ _ _ _ Hs Hr)
    as [d [p [t [its [Hd' [_ [Ht [_ ->]]]]]]]].
  rewrite (valid_accountType_decode _ Hv) in Ht. injection Ht as <-.
  unfold parsedField. simpl. repeat split.
  - exists d. split; [reflexivity|].
    apply (decodeURIComponent_nonempty _ _ Hd').
    intros E. rewrite E in Hd. exact (eq_true_false_abs _ Hd He).
  - eauto.
  - exists (trim p2). split; [reflexivity|].
    split; [now apply valid_accountType_nonempty | assumption].
  - intros c. destruct (snd (stripComment line)) as [|x l]; simpl;
      [discriminate | intros [= <-]; discriminate].
Qed.

Lemma parseLine_invariants action m line m' :
  isDomainName (Some []) = false ->
  Forall parsedField (fields m) ->
  Forall parsedVariable (map snd (variables m)) ->
  parseLine isDomainName action m line = Return m' ->
  Forall parsedField (fields m')
  /\ Forall parsedVariable (map snd (variables m')).
Proof.
  intros He Hf Hv Hp. unfold parseLine in Hp.
  destruct (isComment line || EMPTY_LINE line).
  { injection Hp as <-. auto. }
  destruct (VARIABLE_DEFINITION line) as [[n value]|].
  - destruct (getProperty (variables m) n) as [[s|a|o]|] eqn:Hg;
      apply bind_Return in Hp; destruct Hp as [v [_ [= <-]]]; simpl;
      (split; [assumption|]); apply setProperty_values; simpl; auto.
    apply getProperty_In in Hg. rewrite Forall_forall in Hv.
    specialize (Hv _ Hg). simpl in Hv. rewrite length_app. simpl. lia.
  - destruct (isDataField isDomainName line) eqn:Hdf.
    + apply bind_Return in Hp. destruct Hp as [f [Hc [= <-]]]. simpl.
      split; [|assumption]. apply Forall_app. split; [assumption|].
      constructor; [|constructor].
      eapply createDataField_parsedField; eauto.
    + destruct (jsstring_eqb action (js "throw")); [discriminate|].
      injection Hp as <-. auto.
Qed.

Lemma forEach_parseLine_invariants action lines :
  isDomainName (Some []) = false ->
  forall m m',
  Forall parsedField (fields m) ->
  Forall parsedVariable (map snd (variables m)) ->
  forEach (parseLine isDomainName action) lines m = Return m' ->
  Forall parsedField (fields m')
  /\ Forall parsedVariable (map snd (variables m')).
Proof.
  intros He. induction lines as [|line lines IH]; intros m m' Hf Hv Hp;
    simpl in Hp.
  - injection Hp as <-. auto.
  - apply bind_Return in Hp. destruct Hp as [m1 [H1 Hp]].
    destruct (parseLine_invariants _ _ _ _ He Hf Hv H1) as [Hf1 Hv1].
    eapply IH; eauto.
Qed.

(** C4 (amended).  In every manifest that [parseAdsTxt] returns, each record
    has a domain, a publisher account ID and an account type; the domain is
    not empty when the domain predicate refuses the empty string; the
    account type is kept as written and is DIRECT or RESELLER in upper case;
    a comment that is present is not empty; and every variable is a string
    or an array of at least two strings.  The publisher account ID may be
    the empty string. *)
Theorem parseAdsTxt_invariants text parseOptions m :
  isDomainName (Some []) = false ->
  parseAdsTxt isDomainName text parseOptions = Return m ->
  Forall parsedField (fields m)
  /\ Forall parsedVariable (map snd (variables m)).
Proof.
  intros He H. apply parseAdsTxt_Return in H. destruct H as [action H].
  eapply forEach_parseLine_invariants; eauto; constructor.
Qed.

(** The scenario of the unit tests, for any domain predicate that accepts
    its three domains. *)
Lemma parseAdsTxt_scenario :
  isDomainName (Some (js "my.domain.com")) = true ->
  isDomainName (Some (js "website.org")) = true ->
  isDomainName (Some (js "test.net")) = true ->
  exists f1 f2 f3,
    parseAdsTxt isDomainName scenarioText None
    = Return {| variables := []; fields := [f1; f2; f3] |}
    /\ publisherAccountID f2 = Some (js "my name")
    /\ certificateAuthorityID f2 = Some (js "fafdf38b16bf6").
Proof.
  intros H1 H2 H3.
  do 3 eexists. split; [|split].
  - unfold parseAdsTxt. simpl negb. cbv iota.
    change (splitNewLine scenarioText) with
      [js "my.domain.com, 12345, DIRECT #Test";
       js "website.org, my%20name,RESELLER,fafdf38b16bf6";
       js "test.net,555,DIRECT"].
    unfold forEach, parseLine.
    change (isComment (js "my.domain.com, 12345, DIRECT #Test")) with false.
    change (isComment (js "website.org, my%20name,RESELLER,fafdf38b16bf6")) with false.
    change (isComment (js "test.net,555,DIRECT")) with false.
    change (VARIABLE_DEFINITION (js "my.domain.com, 12345, DIRECT #Test"))
      with (@None (jsstring * jsstring)).
    change (VARIABLE_DEFINITION (js "website.org, my%20name,RESELLER,fafdf38b16bf6"))
      with (@None (jsstring * jsstring)).
    change (VARIABLE_DEFINITION (js "test.net,555,DIRECT"))
      with (@None (jsstring * jsstring)).
    change (EMPTY_LINE (js "my.domain.com, 12345, DIRECT #Test")) with false.
    change (EMPTY_LINE (js "website.org, my%20name,RESELLER,fafdf38b16bf6")) with false.
    change (EMPTY_LINE (js "test.net,555,DIRECT")) with false.
    cbv beta iota delta [orb].
    change (isDataField isDomainName (js "my.domain.com, 12345, DIRECT #Test"))
      with (isDomainName (Some (js "my.domain.com")) && true).
    change (isDataField isDomainName (js "website.org, my%20name,RESELLER,fafdf38b16bf6"))
      with (isDomainName (Some (js "website.org")) && true).
    change (isDataField isDomainName (js "test.net,555,DIRECT"))
      with (isDomainName (Some (js "test.net")) && true).
    rewrite H1, H2, H3. reflexivity.
  - reflexivity.
  - reflexivity.
Qed.

End DataLines.

(* ================================================================= *)
(** ** From a generated line back to its record *)

Lemma forallb_impl {A} (p q : A -> bool) l :
  (forall x, p x = true -> q x = true) ->
  forallb p l = true -> forallb q l = true.
Proof.
  intros Hpq H. apply forallb_forall. intros x Hx.
  apply Hpq. revert x Hx. now apply forallb_forall.
Qed.

Lemma plain_spec s :
  plain s = true ->
  s <> [] /\ trim s = s
  /\ forallb (fun c => negb (c =? COMMA)) s = true
  /\ forallb (fun c => negb (c =? HASH)) s = true
  /\ forallb (fun c => negb (c =? PERCENT)) s = true
  /\ oneLine s = true.
Proof.
  unfold plain. intros H.
  apply andb_true_iff in H. destruct H as [H H3].
  apply andb_true_iff in H. destruct H as [H1 H2].
  apply jsstring_eqb_eq in H2.
  split; [intros ->; discriminate|]. split; [assumption|].
  repeat split; revert H3; apply forallb_impl; intros c Hc;
    apply negb_true_iff in Hc; repeat (apply orb_false_iff in Hc; destruct Hc as [Hc ?]);
    try (apply negb_true_iff; assumption).
  apply negb_true_iff, orb_false_iff. auto.
Qed.

Lemma isLetter_plain_unit c :
  isLetter c = true ->
  negb (isWhiteSpace c) = true
  /\ negb ((c =? COMMA) || (c =? HASH) || (c =? PERCENT) || (c =? CR) || (c =? LF)) = true.
Proof.
  intros H. split.
  - now rewrite (isLetter_not_space _ H).
  - unfold isLetter, COMMA, HASH, PERCENT, CR, LF in *.
    apply negb_true_iff. repeat rewrite orb_false_iff.
    repeat rewrite N.eqb_neq.
    apply orb_true_iff in H.
    destruct H as [H|H]; apply andb_true_iff in H; destruct H as [H1 H2];
      apply N.leb_le in H1; apply N.leb_le in H2; repeat split; lia.
Qed.

(** A valid account type is a plain field. *)
Lemma valid_accountType_plain t :
  In (toUpperCase t) AccountType -> plain t = true.
Proof.
  intros H. unfold plain.
  rewrite (trim_no_space t), jsstring_eqb_refl.
  - rewrite (valid_accountType_units _ t
               (fun c Hc => proj2 (isLetter_plain_unit c Hc)) eq_refl eq_refl H).
    pose proof (valid_accountType_nonempty _ H) as Hne.
    destruct t; [congruence | reflexivity].
  - apply valid_accountType_units; auto.
    intros c Hc. apply (isLetter_plain_unit c Hc).
Qed.

Lemma span_letters_stop d rest :
  forallb (fun c => negb (c =? EQUALS)) d = true ->
  exists a x b, span isLetter (d ++ COMMA :: rest) = (a, x :: b)
                /\ (x =? EQUALS) = false.
Proof.
  induction d as [|c d IH]; simpl; intros H.
  - exists [], COMMA, rest. auto.
  - apply andb_true_iff in H. destruct H as [Hc Hd].
    apply negb_true_iff in Hc.
    destruct (isLetter c).
    + destruct (IH Hd) as [a [x [b [-> Hx]]]]. exists (c :: a), x, b. auto.
    + exists [], c, (d ++ COMMA :: rest). auto.
Qed.

Lemma VARIABLE_DEFINITION_data_line d rest :
  forallb (fun c => negb (c =? EQUALS)) d = true ->
  VARIABLE_DEFINITION (d ++ COMMA :: rest) = None.
Proof.
  intros H. unfold VARIABLE_DEFINITION.
  destruct (span_letters_stop d rest H) as [a [x [b [-> Hx]]]].
  rewrite Hx. destruct a, b; reflexivity.
Qed.

Lemma span_letters_all k rest :
  forallb isLetter k = true ->
  span isLetter (k ++ EQUALS :: rest) = (k, EQUALS :: rest).
Proof.
  induction k as [|c k IH]; simpl; intros H; [reflexivity|].
  apply andb_true_iff in H. destruct H as [Hc Hk].
  now rewrite Hc, (IH Hk).
Qed.

Lemma split_join sep pieces :
  Forall (fun p => forallb (fun c => negb (c =? sep)) p = true) pieces ->
  pieces <> [] ->
  split sep (join [sep] pieces) = pieces.
Proof.
  induction pieces as [|p pieces IH]; intros H Hne; [congruence|].
  inversion H as [|? ? Hp Hrest]; subst.
  destruct pieces as [|p' pieces].
  - simpl. now apply split_no_sep.
  - change (join [sep] (p :: p' :: pieces))
      with (p ++ sep :: join [sep] (p' :: pieces)).
    rewrite (split_app _ _ _ Hp), IH; [reflexivity | assumption | discriminate].
Qed.

Section RoundTrip.

Variable isDomainName : option jsstring -> bool.

(** The line of a record as the pieces that the parser will find. *)
Lemma generateLineForField_pieces d p t c :
  isDomainName (Some d) = true -> p <> [] ->
  In (toUpperCase t) AccountType ->
  match c with Some c => c <> [] | None => True end ->
  generateLineForField isDomainName (mkField (Some d) (Some p) (Some t) c None)
  = Return (join [COMMA] (d :: (SPACE :: p) :: (SPACE :: t) :: certificateTail c)).
Proof.
  intros Hd Hp Ht Hc. unfold generateLineForField. simpl.
  rewrite Hd. simpl.
  destruct p as [|p0 p']; [congruence|]. simpl negb. cbv iota.
  apply (existsb_eqb_In (toUpperCase t) AccountType) in Ht.
  unfold AccountType in Ht. simpl in Ht. rewrite Ht. simpl negb. cbv iota.
  change (js ", ") with [COMMA; SPACE].
  f_equal. destruct c as [[|c0 c']|]; simpl.
  - congruence.
  - repeat rewrite <- app_assoc. simpl. repeat rewrite <- app_assoc. reflexivity.
  - repeat rewrite <- app_assoc. reflexivity.
Qed.

Lemma parseLine_data_line action m d p t c :
  isDomainName (Some d) = true ->
  plain d = true -> forallb (fun x => negb (x =? EQUALS)) d = true ->
  plain p = true ->
  In (toUpperCase t) AccountType ->
  match c with Some c => plain c = true | None => True end ->
  parseLine isDomainName action m
    (join [COMMA] (d :: (SPACE :: p) :: (SPACE :: t) :: certificateTail c))
  = Return {| variables := variables m;
              fields := fields m ++ [mkField (Some d) (Some p) (Some t) c None] |}.
Proof.
  intros Hdom Hd Heq Hp Ht Hc.
  pose proof (valid_accountType_plain _ Ht) as Htp.
  destruct (plain_spec _ Hd) as [Hd1 [Hd2 [Hd3 [Hd4 [Hd5 Hd6]]]]].
  destruct (plain_spec _ Hp) as [Hp1 [Hp2 [Hp3 [Hp4 [Hp5 Hp6]]]]].
  destruct (plain_spec _ Htp) as [Ht1 [Ht2 [Ht3 [Ht4 [Ht5 Ht6]]]]].
  set (pieces := d :: (SPACE :: p) :: (SPACE :: t) :: certificateTail c).
  set (line := join [COMMA] pieces).
  assert (Hpieces : Forall (fun q => forallb (fun x => negb (x =? COMMA)) q = true)
                           pieces).
  { unfold pieces. repeat constructor; try assumption.
    destruct c as [c|]; simpl; repeat constructor.
    destruct (plain_spec _ Hc) as [_ [_ [Hc3 _]]]. simpl. exact Hc3. }
  assert (Hhash : forallb (fun x => negb (x =? HASH)) line = true).
  { unfold line, pieces.
    change (join [COMMA] (d :: (SPACE :: p) :: (SPACE :: t) :: certificateTail c))
      with (d ++ COMMA :: (SPACE :: p) ++ COMMA :: join [COMMA] ((SPACE :: t) :: certificateTail c)).
    rewrite forallb_app, Hd4. simpl. rewrite forallb_app, Hp4. simpl.
    destruct c as [c|]; simpl.
    - destruct (plain_spec _ Hc) as [_ [_ [_ [Hc4 _]]]].
      rewrite forallb_app, Ht4. simpl. exact Hc4.
    - exact Ht4. }
  assert (Hstrip : stripComment line = (line, [])).
  { unfold stripComment. rewrite (split_no_sep _ _ Hhash). reflexivity. }
  assert (Hsplit : split COMMA line = pieces).
  { apply split_join; [assumption | discriminate]. }
  assert (Hline : exists x rest, d = x :: rest /\ isWhiteSpace x = false
                                 /\ (x =? HASH) = false).
  { destruct d as [|x rest]; [congruence|]. exists x, rest.
    split; [reflexivity|]. split; [now apply (trim_fixed_head x rest)|].
    simpl in Hd4. apply andb_true_iff in Hd4. destruct Hd4 as [Hx _].
    now apply negb_true_iff in Hx. }
  destruct Hline as [x [rest [Hdx [Hws Hh]]]].
  assert (Hskip : isComment line || EMPTY_LINE line = false).
  { unfold line, pieces. rewrite Hdx. unfold isComment, EMPTY_LINE. simpl.
    rewrite Hws, Hh. reflexivity. }
  assert (Hvar : VARIABLE_DEFINITION line = None).
  { unfold line, pieces.
    change (join [COMMA] (d :: (SPACE :: p) :: (SPACE :: t) :: certificateTail c))
      with (d ++ COMMA :: join [COMMA] ((SPACE :: p) :: (SPACE :: t) :: certificateTail c)).
    now apply VARIABLE_DEFINITION_data_line. }
  assert (Htrim : forall s, trim (SPACE :: s) = trim s).
  { intros s. now apply trim_space_cons. }
  assert (Hdf : isDataField isDomainName line = true).
  { unfold isDataField. rewrite Hstrip, Hsplit. unfold pieces.
    cbn [map nth_error]. rewrite Hd2, Hdom, Htrim, Ht2.
    now rewrite (isValidAccountType_valid _ Ht). }
  assert (Hcreate : createDataField line
                    = Return (mkField (Some d) (Some p) (Some t) c None)).
  { unfold createDataField. rewrite Hstrip, Hsplit. unfold pieces. simpl.
    rewrite Hd2, !Htrim, Hp2, Ht2.
    rewrite (decodeURIComponent_no_percent _ Hd5),
            (decodeURIComponent_no_percent _ Hp5),
            (decodeURIComponent_no_percent _ Ht5). simpl.
    destruct c as [c|]; simpl; [|reflexivity].
    destruct (plain_spec _ Hc) as [_ [Hc2 [_ [_ [Hc5 _]]]]].
    rewrite Htrim, Hc2, (decodeURIComponent_no_percent _ Hc5). reflexivity. }
  unfold parseLine. fold line. rewrite Hskip, Hvar, Hdf, Hcreate. reflexivity.
Qed.

Lemma data_line_oneLine d p t c :
  plain d = true -> plain p = true -> plain t = true ->
  match c with Some c => plain c = true | None => True end ->
  oneLine (join [COMMA] (d :: (SPACE :: p) :: (SPACE :: t) :: certificateTail c))
  = true.
Proof.
  intros Hd Hp Ht Hc.
  destruct (plain_spec _ Hd) as [_ [_ [_ [_ [_ Hd6]]]]].
  destruct (plain_spec _ Hp) as [_ [_ [_ [_ [_ Hp6]]]]].
  destruct (plain_spec _ Ht) as [_ [_ [_ [_ [_ Ht6]]]]].
  change (join [COMMA] (d :: (SPACE :: p) :: (SPACE :: t) :: certificateTail c))
    with (d ++ COMMA :: (SPACE :: p) ++ COMMA :: join [COMMA] ((SPACE :: t) :: certificateTail c)).
  rewrite oneLine_app, Hd6. simpl.
  change (forallb (fun c0 => negb ((c0 =? CR) || (c0 =? LF))))
    with oneLine.
  rewrite oneLine_app, Hp6. simpl.
  change (forallb (fun c0 => negb ((c0 =? CR) || (c0 =? LF))))
    with oneLine.
  destruct c as [c|]; simpl.
  - destruct (plain_spec _ Hc) as [_ [_ [_ [_ [_ Hc6]]]]].
    change (forallb (fun c0 => negb ((c0 =? CR) || (c0 =? LF))))
      with oneLine.
    rewrite oneLine_app, Ht6. simpl. exact Hc6.
  - exact Ht6.
Qed.

(** A record that makes the round trip: its line, and the parse of it. *)
Lemma roundTripField_line r :
  roundTripField isDomainName r = true ->
  exists line,
    generateLineForField isDomainName r = Return line
    /\ oneLine line = true
    /\ forall action m,
         parseLine isDomainName action m line
         = Return {| variables := variables m; fields := fields m ++ [r] |}.
Proof.
  destruct r as [[d|] [p|] [t|] c [cm|]]; unfold roundTripField; simpl;
    try discriminate; try (rewrite !andb_false_r; discriminate).
  intros H. rewrite andb_true_r in H.
  apply andb_true_iff in H. destruct H as [H Hc].
  apply andb_true_iff in H. destruct H as [H Ht].
  apply andb_true_iff in H. destruct H as [H Hp].
  apply andb_true_iff in H. destruct H as [H Heq].
  apply andb_true_iff in H. destruct H as [Hdom Hd].
  apply (existsb_eqb_In (toUpperCase t) AccountType) in Ht.
  assert (Hc' : match c with Some c => plain c = true | None => True end).
  { destruct c; auto. }
  exists (join [COMMA] (d :: (SPACE :: p) :: (SPACE :: t) :: certificateTail c)).
  split; [|split].
  - apply generateLineForField_pieces; auto.
    + apply (plain_spec _ Hp).
    + destruct c as [c|]; [apply (plain_spec _ Hc')|exact I].
  - apply data_line_oneLine; auto. now apply valid_accountType_plain.
  - intros action m. now apply parseLine_data_line.
Qed.

Lemma isLineTerminator_oneLine v :
  forallb (fun c => negb (isLineTerminator c || (c =? PERCENT))) v = true ->
  oneLine v = true
  /\ forallb (fun c => negb (isLineTerminator c)) v = true
  /\ forallb (fun c => negb (c =? PERCENT)) v = true.
Proof.
  intros H. repeat split; revert H; apply forallb_impl; intros c Hc;
    apply negb_true_iff, orb_false_iff in Hc; destruct Hc as [H1 H2];
    apply negb_true_iff; auto.
  unfold isLineTerminator in H1.
  repeat (apply orb_false_iff in H1; destruct H1 as [H1 ?]).
  apply orb_false_iff. auto.
Qed.

(** A variable that makes the round trip: its line, and the parse of it
    when the name was not assigned before. *)
Lemma roundTripVariable_line kv :
  roundTripVariable kv = true ->
  exists line,
    generateLineForVariable (fst kv) (snd kv) = Return line
    /\ oneLine line = true
    /\ forall action m,
         ~ In (fst kv) (map fst (variables m)) ->
         parseLine isDomainName action m line
         = Return {| variables := variables m ++ [kv]; fields := fields m |}.
Proof.
  destruct kv as [key [value|a|o]]; simpl; try discriminate.
  intros H.
  apply andb_true_iff in H. destruct H as [H Hv].
  apply andb_true_iff in H. destruct H as [H Hvn].
  apply andb_true_iff in H. destruct H as [Hkn Hk].
  destruct (isLineTerminator_oneLine _ Hv) as [Hv1 [Hv2 Hv3]].
  exists (key ++ EQUALS :: value). split; [reflexivity|]. split.
  - rewrite oneLine_app. simpl. change (forallb (fun c => negb ((c =? CR) || (c =? LF)))) with oneLine.
    rewrite Hv1, andb_true_r.
    revert Hk. apply forallb_impl. intros c Hc.
    destruct (isLetter_plain_unit c Hc) as [_ Hp].
    apply negb_true_iff in Hp. repeat (apply orb_false_iff in Hp; destruct Hp as [Hp ?]).
    apply negb_true_iff, orb_false_iff. auto.
  - intros action m Hnew.
    assert (Hm : VARIABLE_DEFINITION (key ++ EQUALS :: value) = Some (key, value)).
    { unfold VARIABLE_DEFINITION. rewrite (span_letters_all _ _ Hk).
      destruct key as [|k0 key']; [discriminate|].
      destruct value as [|v0 value']; [discriminate|].
      rewrite N.eqb_refl, Hv2. reflexivity. }
    unfold parseLine.
    rewrite (VARIABLE_DEFINITION_not_skipped _ _ _ Hm), Hm.
    rewrite (getProperty_absent _ _ Hnew), (decodeURIComponent_no_percent _ Hv3).
    simpl. now rewrite (setProperty_absent _ _ _ Hnew).
Qed.

Lemma forEach_field_lines action fs :
  forallb (roundTripField isDomainName) fs = true ->
  exists lines,
    mapR (generateLineForField isDomainName) fs = Return lines
    /\ Forall (fun l => oneLine l = true) lines
    /\ List.length lines = List.length fs
    /\ forall m, forEach (parseLine isDomainName action) lines m
                 = Return {| variables := variables m; fields := fields m ++ fs |}.
Proof.
  induction fs as [|r fs IH]; simpl; intros H.
  - exists []. repeat split; auto. intros [vs fs0]. simpl. now rewrite app_nil_r.
  - apply andb_true_iff in H. destruct H as [Hr Hfs].
    destruct (roundTripField_line r Hr) as [l [Hg [Hl Hp]]].
    destruct (IH Hfs) as [ls [Hgs [Hls [Hlen Hps]]]].
    exists (l :: ls). rewrite Hg, Hgs. simpl. repeat split; auto.
    intros m. rewrite Hp. simpl. rewrite Hps. simpl.
    now rewrite <- app_assoc.
Qed.

Lemma forEach_variable_lines action vs :
  forallb roundTripVariable vs = true ->
  exists lines,
    mapR (fun kv => generateLineForVariable (fst kv) (snd kv)) vs = Return lines
    /\ Forall (fun l => oneLine l = true) lines
    /\ List.length lines = List.length vs
    /\ forall m, NoDup (map fst (variables m ++ vs)) ->
                 forEach (parseLine isDomainName action) lines m
                 = Return {| variables := variables m ++ vs; fields := fields m |}.
Proof.
  induction vs as [|kv vs IH]; simpl; intros H.
  - exists []. repeat split; auto. intros [vs0 fs0] _. simpl. now rewrite app_nil_r.
  - apply andb_true_iff in H. destruct H as [Hkv Hvs].
    destruct (roundTripVariable_line kv Hkv) as [l [Hg [Hl Hp]]].
    destruct (IH Hvs) as [ls [Hgs [Hls [Hlen Hps]]]].
    exists (l :: ls). rewrite Hg, Hgs. simpl. repeat split; auto.
    intros m Hnd. rewrite map_app in Hnd. simpl in Hnd.
    assert (Hnew : ~ In (fst kv) (map fst (variables m))).
    { apply NoDup_remove_2 in Hnd. intros Hin. apply Hnd.
      apply in_or_app. now left. }
    rewrite (Hp action m Hnew). simpl. rewrite Hps; simpl.
    + now rewrite <- app_assoc.
    + rewrite <- app_assoc. simpl. rewrite map_app. simpl. exact Hnd.
Qed.

(** C5 (amended).  Generation escapes nothing and the parser trims, splits
    and decodes, so the round trip holds for the manifests whose text the
    parser reads back as it was written: records with a valid domain
    without an equals sign, plain fields, a valid account type and no
    comment; variables with distinct names made of letters and non-empty
    string values without line terminators and percent signs.  For such a
    manifest [generateAdsTxt] gives a text from which [parseAdsTxt], under
    either policy, returns the same records and the same variables in the
    same order. *)
Theorem parseAdsTxt_generateAdsTxt m parseOptions :
  forallb (roundTripField isDomainName) (fields m) = true ->
  forallb roundTripVariable (variables m) = true ->
  NoDup (map fst (variables m)) ->
  In parseOptions [None; Some (js "filter"); Some (js "throw")] ->
  exists text,
    generateAdsTxt isDomainName m None None = Return text
    /\ parseAdsTxt isDomainName text parseOptions = Return m.
Proof.
  intros Hf Hv Hnd Hopt.
  set (action := match parseOptions with
                 | Some a => a
                 | None => DEFAULT_OPTIONS_invalidLineAction
                 end).
  destruct (forEach_field_lines action _ Hf) as [fl [Hgf [Hfl [Hlf Hpf]]]].
  destruct (forEach_variable_lines action _ Hv) as [vl [Hgv [Hvl [Hlv Hpv]]]].
  exists (join [LF] (fl ++ vl)). split.
  { unfold generateAdsTxt. rewrite Hgf, Hgv. simpl. now rewrite app_nil_r. }
  assert (Hloop : forEach (parseLine isDomainName action)
                          (splitNewLine (join [LF] (fl ++ vl)))
                          {| variables := []; fields := [] |} = Return m).
  { destruct (fl ++ vl) as [|l0 ls] eqn:E.
    - apply app_eq_nil in E. destruct E as [-> ->].
      destruct m as [vs fs]. simpl in *.
      destruct fs; [|discriminate]. destruct vs; [|discriminate].
      reflexivity.
    - rewrite <- E. rewrite splitNewLine_join.
      + rewrite forEach_app, Hpf. simpl. rewrite Hpv; simpl.
        * now destruct m.
        * exact Hnd.
      + apply Forall_app. auto.
      + rewrite E. discriminate. }
  unfold parseAdsTxt. fold action.
  replace (negb (existsb (jsstring_eqb action) [js "filter"; js "throw"]))
    with false; [exact Hloop|].
  unfold action. destruct Hopt as [<-|[<-|[<-|[]]]]; reflexivity.
Qed.

End RoundTrip.

(* ================================================================= *)
(** ** What the filter policy can throw *)

Lemma emit_throws octets rest e :
  (forall e', rest = Throw e' -> e' = URIError) ->
  emit octets rest = Throw e -> e = URIError.
Proof.
  intros Hrest. unfold emit. destruct octets as [os|]; [|congruence].
  destruct (utf8Value os); [|congruence].
  destruct rest; simpl; [discriminate|]. intros [= <-]. now apply Hrest.
Qed.

Lemma decodeURIComponent_throws_bounded n :
  forall s e, (List.length s <= n)%nat ->
  decodeURIComponent s = Throw e -> e = URIError.
Proof.
  induction n as [|n IH]; intros s e Hn H.
  - destruct s; [discriminate | simpl in Hn; lia].
  - assert (R : forall t, (List.length t <= n)%nat ->
                forall e', decodeURIComponent t = Throw e' -> e' = URIError).
    { intros t Ht e'. now apply IH. }
    assert (B : forall t (c : N), (List.length t <= n)%nat ->
                (r <- decodeURIComponent t ;; Return (c :: r)) = Throw e ->
                e = URIError).
    { intros t c Ht Hb. destruct (decodeURIComponent t) eqn:E;
        [discriminate|]. injection Hb as <-. now apply (R t Ht). }
    destruct s as [|c t]; [discriminate|]. simpl in Hn, H.
    destruct (negb (c =? PERCENT)); [apply (B t c); [lia | exact H]|].
    destruct t as [|h [|l t1]]; try congruence.
    destruct (hexByte h l) as [b|]; [|congruence].
    simpl in Hn.
    destruct (b <? 128); [apply (B t1 b); [lia | exact H]|].
    destruct (b <? 192); [congruence|].
    destruct (b <? 224).
    { destruct t1 as [|p1 [|h1 [|l1 t2]]]; try congruence.
      simpl in Hn. eapply emit_throws; [|exact H]. apply R. lia. }
    destruct (b <? 240).
    { destruct t1 as [|p1 [|h1 [|l1 [|p2 [|h2 [|l2 t3]]]]]]; try congruence.
      simpl in Hn. eapply emit_throws; [|exact H]. apply R. lia. }
    destruct (b <? 248); [|congruence].
    destruct t1 as [|p1 [|h1 [|l1 [|p2 [|h2 [|l2 [|p3 [|h3 [|l3 t4]]]]]]]]];
      try congruence.
    simpl in Hn. eapply emit_throws; [|exact H]. apply R. lia.
Qed.

(** [decodeURIComponent] raises nothing but a URIError. *)
Lemma decodeURIComponent_throws s e :
  decodeURIComponent s = Throw e -> e = URIError.
Proof. apply (decodeURIComponent_throws_bounded (List.length s)). lia. Qed.

Lemma mapR_throws {A B} (f : A -> result B) (P : exn -> Prop) l e :
  (forall x e', f x = Throw e' -> P e') -> mapR f l = Throw e -> P e.
Proof.
  intros Hf. induction l as [|x l IH]; simpl; [discriminate|].
  destruct (f x) eqn:E; simpl; [|intros [= <-]; eauto].
  destruct (mapR f l); simpl; [discriminate | intros [= <-]; auto].
Qed.

Lemma createDataField_throws line e :
  createDataField line = Throw e -> e = URIError.
Proof.
  unfold createDataField. destruct (stripComment line) as [main c].
  destruct (mapR _ (split COMMA main)) eqn:E; simpl; [discriminate|].
  intros [= <-].
  apply (mapR_throws _ (fun e' => e' = URIError) _ _
           (fun x e' => decodeURIComponent_throws (trim x) e') E).
Qed.

Section Filter.

Variable isDomainName : option jsstring -> bool.

Lemma parseLine_filter_throws m line e :
  parseLine isDomainName (js "filter") m line = Throw e -> e = URIError.
Proof.
  unfold parseLine.
  destruct (isComment line || EMPTY_LINE line); [discriminate|].
  destruct (VARIABLE_DEFINITION line) as [[n v]|].
  - destruct (getProperty (variables m) n) as [[s|a|o]|];
      destruct (decodeURIComponent v) eqn:E; simpl; try discriminate;
      intros [= <-]; now apply (decodeURIComponent_throws v).
  - destruct (isDataField isDomainName line).
    + destruct (createDataField line) eqn:E; simpl; [discriminate|].
      intros [= <-]. now apply (createDataField_throws line).
    + change (jsstring_eqb (js "filter") (js "throw")) with false.
      discriminate.
Qed.

(** X1.  Under the filter policy the only exception that leaves
    [parseAdsTxt] is the URIError of an unguarded [decodeURIComponent]: no
    invalid-line error and no TypeError. *)
Lemma parseAdsTxt_filter_throws text e :
  parseAdsTxt isDomainName text (Some (js "filter")) = Throw e -> e = URIError.
Proof.
  unfold parseAdsTxt.
  change (negb (existsb (jsstring_eqb (js "filter")) [js "filter"; js "throw"]))
    with false. cbv iota.
  generalize (splitNewLine text) as lines.
  generalize {| variables := []; fields := [] |} as m.
  intros m lines. revert m.
  induction lines as [|line lines IH]; intros m; simpl; [discriminate|].
  destruct (parseLine isDomainName (js "filter") m line) eqn:E; simpl.
  - apply IH.
  - intros [= <-]. now apply (parseLine_filter_throws m line).
Qed.

End Filter.

(* ================================================================= *)
(** ** Texts without a percent sign *)

Lemma forallb_dropWhile {A} (q p : A -> bool) l :
  forallb q l = true -> forallb q (dropWhile p l) = true.
Proof.
  induction l as [|x l IH]; simpl; [reflexivity|].
  intros H. destruct (p x); [|exact H].
  apply andb_true_iff in H. now apply IH.
Qed.

Lemma forallb_trim q s : forallb q s = true -> forallb q (trim s) = true.
Proof.
  intros H. unfold trim. rewrite forallb_rev. apply forallb_dropWhile.
  rewrite forallb_rev. now apply forallb_dropWhile.
Qed.

Lemma forallb_split q sep s :
  forallb q s = true -> Forall (fun p => forallb q p = true) (split sep s).
Proof.
  induction s as [|c s IH]; simpl; intros H; [repeat constructor|].
  apply andb_true_iff in H. destruct H as [Hc Hs]. specialize (IH Hs).
  destruct (c =? sep); [constructor; auto|].
  destruct (split sep s) as [|p ps]; [repeat constructor; simpl; now rewrite Hc|].
  inversion IH; subst. constructor; [simpl; now rewrite Hc | assumption].
Qed.

Lemma forallb_splitNewLine q s :
  (forallb q s = true ->
   Forall (fun l => forallb q l = true) (splitNewLine s))
  /\ (forall c, forallb q (c :: s) = true ->
      Forall (fun l => forallb q l = true) (splitNewLine (c :: s))).
Proof.
  induction s as [|d s [IH1 IH2]].
  - split; [repeat constructor|].
    intros c H. simpl in *. destruct (c =? CR); [repeat constructor|].
    destruct (c =? LF); repeat constructor. exact H.
  - split; [apply IH2|].
    intros c H. simpl forallb in H.
    apply andb_true_iff in H. destruct H as [Hc Hs].
    assert (Hs' := Hs). simpl in Hs'. apply andb_true_iff in Hs'.
    destruct Hs' as [_ Hs'].
    change (splitNewLine (c :: d :: s)) with
      (if c =? CR then
         if d =? LF then [] :: splitNewLine s else [] :: splitNewLine (d :: s)
       else if c =? LF then [] :: splitNewLine (d :: s)
       else match splitNewLine (d :: s) with
            | [] => [[c]]
            | p :: ps => (c :: p) :: ps
            end).
    specialize (IH2 d Hs). specialize (IH1 Hs').
    destruct (c =? CR).
    { destruct (d =? LF); constructor; auto. }
    destruct (c =? LF); [constructor; auto|].
    destruct (splitNewLine (d :: s)) as [|p ps].
    + repeat constructor. simpl. now rewrite Hc.
    + inversion IH2; subst. constructor; [simpl; now rewrite Hc | assumption].
Qed.

Lemma span_rest {A} (q p : A -> bool) l a b :
  span p l = (a, b) -> forallb q l = true -> forallb q b = true.
Proof.
  revert a b. induction l as [|x l IH]; simpl; intros a b H Hq.
  - now injection H as <- <-.
  - apply andb_true_iff in Hq. destruct Hq as [Hx Hl].
    destruct (p x).
    + destruct (span p l) as [a' b'] eqn:E. injection H as <- <-.
      now apply (IH a' b').
    + injection H as <- <-. simpl. now rewrite Hx.
Qed.

Lemma VARIABLE_DEFINITION_value q line name value :
  VARIABLE_DEFINITION line = Some (name, value) ->
  forallb q line = true -> forallb q value = true.
Proof.
  unfold VARIABLE_DEFINITION. intros H Hq.
  destruct (span isLetter line) as [a b] eqn:E.
  pose proof (span_rest q _ _ _ _ E Hq) as Hb.
  destruct a as [|a0 a']; [discriminate|].
  destruct b as [|c [|v0 v']]; try discriminate.
  destruct ((c =? EQUALS) && _); [|discriminate].
  injection H as <- <-. simpl in Hb. apply andb_true_iff in Hb. apply Hb.
Qed.

Lemma mapR_Return {A B} (f : A -> result B) (P : A -> Prop) l :
  (forall x, P x -> exists y, f x = Return y) ->
  Forall P l -> exists ys, mapR f l = Return ys.
Proof.
  intros Hf H. induction H as [|x l Hx Hl [ys IH]]; simpl; [eauto|].
  destruct (Hf x Hx) as [y ->]. rewrite IH. simpl. eauto.
Qed.

Lemma createDataField_no_percent line :
  forallb (fun c => negb (c =? PERCENT)) line = true ->
  exists r, createDataField line = Return r.
Proof.
  intros H. unfold createDataField, stripComment.
  pose proof (forallb_split _ HASH line H) as Hs.
  destruct (split HASH line) as [|main parts]; simpl.
  - eauto.
  - inversion Hs as [|? ? Hmain _]; subst.
    destruct (mapR_Return (fun item => decodeURIComponent (trim item)) _ _
                (fun x Hx => ex_intro _ (trim x)
                   (decodeURIComponent_no_percent _ (forallb_trim _ _ Hx)))
                (forallb_split _ COMMA main Hmain)) as [items ->].
    simpl. eauto.
Qed.

Section FilterReturns.

Variable isDomainName : option jsstring -> bool.

Lemma parseLine_filter_no_percent m line :
  forallb (fun c => negb (c =? PERCENT)) line = true ->
  exists m', parseLine isDomainName (js "filter") m line = Return m'.
Proof.
  intros H. unfold parseLine.
  destruct (isComment line || EMPTY_LINE line); [eauto|].
  destruct (VARIABLE_DEFINITION line) as [[n v]|] eqn:E.
  - rewrite (decodeURIComponent_no_percent _
               (VARIABLE_DEFINITION_value _ _ _ _ E H)).
    destruct (getProperty (variables m) n) as [[s|a|o]|]; simpl; eauto.
  - destruct (isDataField isDomainName line).
    + destruct (createDataField_no_percent line H) as [r ->]. simpl. eauto.
    + change (jsstring_eqb (js "filter") (js "throw")) with false. eauto.
Qed.

(** X2.  A text without a percent sign is parsed under the filter policy
    without an exception, whatever its lines are. *)
Lemma parseAdsTxt_filter_no_percent text :
  forallb (fun c => negb (c =? PERCENT)) text = true ->
  exists m, parseAdsTxt isDomainName text (Some (js "filter")) = Return m.
Proof.
  intros H. unfold parseAdsTxt.
  change (negb (existsb (jsstring_eqb (js "filter")) [js "filter"; js "throw"]))
    with false. cbv iota.
  pose proof (proj1 (forallb_splitNewLine _ text) H) as Hl.
  generalize {| variables := []; fields := [] |} as m.
  induction Hl as [|line lines Hline _ IH]; intros m; simpl; [eauto|].
  destruct (parseLine_filter_no_percent m line Hline) as [m' ->]. simpl.
  apply IH.
Qed.

End FilterReturns.

(* ================================================================= *)
(** ** Concrete runs *)

(** C2: a line of the claim whose record keeps the lower-case spelling. *)
Lemma createDataField_keeps_lower_case :
  let line := js "example.com, 1, direct" in
  let items := map trim (split COMMA (fst (stripComment line))) in
  hostName (nth_error items 0) = true
  /\ nth_error items 2 = Some (js "direct")
  /\ isDataField hostName line = true
  /\ exists r, createDataField line = Return r
               /\ accountType r = Some (js "direct")
               /\ accountType r <> Some (js "DIRECT").
Proof.
  repeat split.
  eexists. split; [reflexivity|]. split; [reflexivity|].
  simpl. intros H. vm_compute in H. discriminate.
Qed.

Lemma isDataField_accountType_as_written_witness :
  isDataField hostName (js "example.com, 1, Direct # shop") = true
  /\ toUpperCase (js "Direct") = js "DIRECT"
  /\ forall r, createDataField (js "example.com, 1, Direct # shop") = Return r ->
               accountType r = Some (js "Direct").
Proof.
  apply (isDataField_accountType_as_written hostName
           (js "example.com, 1, Direct # shop") (js "Direct")).
  - reflexivity.
  - reflexivity.
  - right. left. reflexivity.
Defined.

(** C4: a text that parses to a record with an empty publisher account ID
    and an account type that is neither DIRECT nor RESELLER. *)
Lemma parseAdsTxt_empty_publisherAccountID :
  exists r,
    parseAdsTxt hostName (js "example.com,,direct") None
    = Return {| variables := []; fields := [r] |}
    /\ publisherAccountID r = Some []
    /\ accountType r = Some (js "direct")
    /\ ~ In (js "direct") AccountType.
Proof.
  eexists. split; [reflexivity|]. split; [reflexivity|]. split; [reflexivity|].
  intros [H|[H|[]]]; vm_compute in H; discriminate.
Qed.

Lemma parseAdsTxt_invariants_witness :
  Forall parsedField
    [mkField (Some (js "example.com")) (Some []) (Some (js "direct")) None
             (Some (js "ok"))]
  /\ Forall parsedVariable (map snd [(js "a", VArray [js "1"; js "2"])]).
Proof.
  exact (parseAdsTxt_invariants hostName
           (js "a=1" ++ [LF] ++ js "example.com,,direct # ok" ++ [CR] ++ js "a=2")
           None
           {| variables := [(js "a", VArray [js "1"; js "2"])];
              fields := [mkField (Some (js "example.com")) (Some [])
                                 (Some (js "direct")) None (Some (js "ok"))] |}
           eq_refl eq_refl).
Defined.

(** C5: a well-formed record without a comment that the round trip changes:
    generation writes the publisher account ID as it is, and the parser
    percent-decodes it. *)
Lemma parseAdsTxt_generateAdsTxt_decodes :
  let field := mkField (Some (js "example.com")) (Some (js "a%20b"))
                       (Some (js "DIRECT")) None None in
  let m := {| variables := []; fields := [field] |} in
  generateLineForField hostName field = Return (js "example.com, a%20b, DIRECT")
  /\ generateAdsTxt hostName m None None = Return (js "example.com, a%20b, DIRECT")
  /\ exists r,
       parseAdsTxt hostName (js "example.com, a%20b, DIRECT") None
       = Return {| variables := []; fields := [r] |}
       /\ publisherAccountID r = Some (js "a b")
       /\ r <> field.
Proof.
  split; [reflexivity|]. split; [reflexivity|].
  eexists. split; [reflexivity|]. split; [reflexivity|].
  intros H. vm_compute in H. discriminate.
Qed.

Lemma parseAdsTxt_generateAdsTxt_witness :
  let m := {| variables := [(js "CONTACT", VString (js "Jane Doe"));
                            (js "SUBDOMAIN", VString (js "sub.example.com"))];
              fields := [mkField (Some (js "example.com")) (Some (js "pub 1"))
                                 (Some (js "DIRECT")) (Some (js "f08c47"))
                                 None;
                         mkField (Some (js "test.net")) (Some (js "555"))
                                 (Some (js "reseller")) None None] |} in
  exists text,
    generateAdsTxt hostName m None None = Return text
    /\ parseAdsTxt hostName text (Some (js "throw")) = Return m.
Proof.
  intros m.
  apply (parseAdsTxt_generateAdsTxt hostName m (Some (js "throw"))).
  - reflexivity.
  - reflexivity.
  - repeat constructor; simpl; intros H;
      repeat (destruct H as [H|H]; [vm_compute in H; discriminate|]);
      exact H.
  - right. right. left. reflexivity.
Defined.

(* ================================================================= *)
(** ** The two policies *)

Lemma parseAdsTxt_filter_throws_witness :
  parseAdsTxt hostName (js "CONTACT=100%") (Some (js "filter")) = Throw URIError
  /\ URIError = URIError.
Proof.
  split; [reflexivity|].
  exact (parseAdsTxt_filter_throws hostName (js "CONTACT=100%") URIError eq_refl).
Defined.

Lemma parseAdsTxt_filter_no_percent_witness :
  exists m,
    parseAdsTxt hostName (js "example.com, 1, DIRECT" ++ [LF] ++ js "not a record")
                (Some (js "filter")) = Return m.
Proof.
  exact (parseAdsTxt_filter_no_percent hostName
           (js "example.com, 1, DIRECT" ++ [LF] ++ js "not a record") eq_refl).
Defined.

Section Policies.

Variable isDomainName : option jsstring -> bool.

(** On a recognised line the policy plays no part. *)
Lemma parseLine_recognised action action' m line :
  recognised isDomainName line = true ->
  parseLine isDomainName action m line = parseLine isDomainName action' m line.
Proof.
  unfold recognised, parseLine, isVariableAssignment. intros H.
  destruct (isComment line || EMPTY_LINE line); [reflexivity|].
  destruct (VARIABLE_DEFINITION line) as [[n v]|]; [reflexivity|].
  simpl in H. rewrite H. reflexivity.
Qed.

(** On any other line the throw policy raises the invalid-line error and
    the filter policy goes on with the manifest as it is. *)
Lemma parseLine_unrecognised m line :
  recognised isDomainName line = false ->
  parseLine isDomainName (js "throw") m line
  = Throw (Error (js "Failed parsing ads.txt: Invalid line: "
                  ++ [QUOTE] ++ line ++ [QUOTE]))
  /\ parseLine isDomainName (js "filter") m line = Return m.
Proof.
  unfold recognised, parseLine, isVariableAssignment. intros H.
  destruct (isComment line || EMPTY_LINE line); [discriminate|].
  destruct (VARIABLE_DEFINITION line) as [[n v]|]; [discriminate|].
  simpl in H. rewrite H. split; reflexivity.
Qed.

Lemma forEach_throw_filter lines :
  forall m0 m,
  forEach (parseLine isDomainName (js "throw")) lines m0 = Return m
  <-> forEach (parseLine isDomainName (js "filter")) lines m0 = Return m
      /\ Forall (fun l => recognised isDomainName l = true) lines.
Proof.
  induction lines as [|line lines IH]; intros m0 m; simpl.
  - split; [intros H; split; [exact H | constructor] | intros [H _]; exact H].
  - destruct (recognised isDomainName line) eqn:R.
    + rewrite (parseLine_recognised (js "throw") (js "filter") m0 line R).
      destruct (parseLine isDomainName (js "filter") m0 line) as [m1|e]; simpl.
      * rewrite IH. split.
        -- intros [H F]. split; [exact H | constructor; assumption].
        -- intros [H F]. inversion F; subst. split; assumption.
      * split; [discriminate | intros [H _]; discriminate].
    + destruct (parseLine_unrecognised m0 line R) as [-> _]. simpl.
      split; [discriminate|]. intros [_ F]. inversion F; subst. congruence.
Qed.

(** X3.  The throw policy returns a manifest exactly when every line of the
    text is recognised and the filter policy returns that manifest: throwing
    changes the result only for texts with an unrecognised line. *)
Theorem parseAdsTxt_throw_iff_filter text m :
  parseAdsTxt isDomainName text (Some (js "throw")) = Return m
  <-> parseAdsTxt isDomainName text (Some (js "filter")) = Return m
      /\ Forall (fun l => recognised isDomainName l = true) (splitNewLine text).
Proof.
  unfold parseAdsTxt.
  change (negb (existsb (jsstring_eqb (js "throw")) [js "filter"; js "throw"]))
    with false.
  change (negb (existsb (jsstring_eqb (js "filter")) [js "filter"; js "throw"]))
    with false.
  cbv iota. apply forEach_throw_filter.
Qed.

(** X4.  Under the throw policy the first unrecognised line ends the parse
    with the invalid-line error that quotes the line as it is, provided the
    lines before it are recognised and decoded without a fault. *)
Theorem parseAdsTxt_throw_first_invalid_line text pre line post m1 :
  splitNewLine text = pre ++ line :: post ->
  forEach (parseLine isDomainName (js "throw")) pre
          {| variables := []; fields := [] |} = Return m1 ->
  recognised isDomainName line = false ->
  parseAdsTxt isDomainName text (Some (js "throw"))
  = Throw (Error (js "Failed parsing ads.txt: Invalid line: "
                  ++ [QUOTE] ++ line ++ [QUOTE])).
Proof.
  intros Hs Hpre Hline. unfold parseAdsTxt.
  change (negb (existsb (jsstring_eqb (js "throw")) [js "filter"; js "throw"]))
    with false.
  cbv iota. rewrite Hs, forEach_app, Hpre. simpl.
  destruct (parseLine_unrecognised m1 line Hline) as [-> _]. reflexivity.
Qed.

Lemma parseLine_skipped action m line :
  skipped line = true -> parseLine isDomainName action m line = Return m.
Proof. unfold skipped, parseLine. now intros ->. Qed.

Lemma forEach_skipped action lines :
  forall m,
  forEach (parseLine isDomainName action) lines m
  = forEach (parseLine isDomainName action)
            (filter (fun l => negb (skipped l)) lines) m.
Proof.
  induction lines as [|line lines IH]; intros m; simpl; [reflexivity|].
  destruct (skipped line) eqn:S; simpl.
  - rewrite (parseLine_skipped action m line S). simpl. apply IH.
  - destruct (parseLine isDomainName action m line); simpl; [apply IH|reflexivity].
Qed.

(** X5.  Comments and empty lines have no effect: two texts with the same
    lines, comments and empty lines apart, give the same result, manifest or
    exception, under any options. *)
Theorem parseAdsTxt_skipped_lines text text' parseOptions :
  filter (fun l => negb (skipped l)) (splitNewLine text)
  = filter (fun l => negb (skipped l)) (splitNewLine text') ->
  parseAdsTxt isDomainName text parseOptions
  = parseAdsTxt isDomainName text' parseOptions.
Proof.
  intros H. unfold parseAdsTxt.
  destruct (negb (existsb _ _)); [reflexivity|].
  rewrite (forEach_skipped _ (splitNewLine text)),
          (forEach_skipped _ (splitNewLine text')), H. reflexivity.
Qed.

Lemma parseLine_record action m line m' :
  parseLine isDomainName action m line = Return m' ->
  exists rs,
    mapR createDataField (filter (isRecordLine isDomainName) [line]) = Return rs
    /\ fields m' = fields m ++ rs.
Proof.
  unfold parseLine, isRecordLine, skipped, isVariableAssignment. simpl.
  destruct (isComment line || EMPTY_LINE line).
  { intros [= <-]. exists []. simpl. now rewrite app_nil_r. }
  destruct (VARIABLE_DEFINITION line) as [[n v]|].
  { simpl. intros H. exists []. split; [reflexivity|]. rewrite app_nil_r.
    destruct (getProperty (variables m) n) as [[s|a|o]|];
      apply bind_Return in H; destruct H as [x [_ [= <-]]]; reflexivity. }
  simpl. destruct (isDataField isDomainName line).
  - intros H. apply bind_Return in H. destruct H as [r [Hr [= <-]]].
    exists [r]. simpl. rewrite Hr. auto.
  - destruct (jsstring_eqb action (js "throw")); [discriminate|].
    intros [= <-]. exists []. simpl. now rewrite app_nil_r.
Qed.

Lemma forEach_records action lines :
  forall m m',
  forEach (parseLine isDomainName action) lines m = Return m' ->
  exists rs,
    mapR createDataField (filter (isRecordLine isDomainName) lines) = Return rs
    /\ fields m' = fields m ++ rs.
Proof.
  induction lines as [|line lines IH]; intros m m' H; simpl in H.
  - injection H as <-. exists []. simpl. now rewrite app_nil_r.
  - apply bind_Return in H. destruct H as [m1 [H1 H]].
    destruct (parseLine_record _ _ _ _ H1) as [rs1 [Hr1 Hf1]].
    destruct (IH _ _ H) as [rs2 [Hr2 Hf2]].
    exists (rs1 ++ rs2). split.
    + change (line :: lines) with ([line] ++ lines).
      rewrite filter_app, mapR_app, Hr1. simpl. rewrite Hr2. reflexivity.
    + rewrite Hf2, Hf1. now rewrite app_assoc.
Qed.

(** X6.  The records of a returned manifest are the records of the record
    lines of the text, one for each and in the order of the text. *)
Theorem parseAdsTxt_fields_of_record_lines text parseOptions m :
  parseAdsTxt isDomainName text parseOptions = Return m ->
  mapR createDataField
       (filter (isRecordLine isDomainName) (splitNewLine text))
  = Return (fields m).
Proof.
  intros H. apply parseAdsTxt_Return in H. destruct H as [action H].
  destruct (forEach_records _ _ _ _ H) as [rs [Hr Hf]].
  simpl in Hf. now subst rs.
Qed.

End Policies.

(* ================================================================= *)
(** ** The names of the variables *)

Lemma jsstring_eqb_sym (a b : jsstring) : jsstring_eqb a b = jsstring_eqb b a.
Proof.
  destruct (jsstring_eqb a b) eqn:E.
  - apply jsstring_eqb_eq in E. subst. symmetry. apply jsstring_eqb_refl.
  - destruct (jsstring_eqb b a) eqn:E'; [|reflexivity].
    apply jsstring_eqb_eq in E'. subst. now rewrite jsstring_eqb_refl in E.
Qed.

Lemma setProperty_keys vars key value :
  map fst (setProperty vars key value) = addKey (map fst vars) key.
Proof.
  unfold addKey. induction vars as [|[k v] vars IH]; simpl; [reflexivity|].
  rewrite (jsstring_eqb_sym key k).
  destruct (jsstring_eqb k key); simpl; [reflexivity|].
  rewrite IH. destruct (existsb (jsstring_eqb key) (map fst vars)); reflexivity.
Qed.

Lemma filter_filter_impl {A} (p q : A -> bool) l :
  (forall x, p x = true -> q x = true) ->
  filter p (filter q l) = filter p l.
Proof.
  intros H. induction l as [|x l IH]; simpl; [reflexivity|].
  destruct (q x) eqn:Q; simpl.
  - now rewrite IH.
  - destruct (p x) eqn:P; [|exact IH]. rewrite (H x P) in Q. discriminate.
Qed.

Lemma filter_filter_and {A} (p q : A -> bool) l :
  filter p (filter q l) = filter (fun x => q x && p x) l.
Proof.
  induction l as [|x l IH]; simpl; [reflexivity|].
  destruct (q x); simpl; [|exact IH]. destruct (p x); now rewrite IH.
Qed.

(** Assigning the names in turn gives the keys at hand followed by the new
    names, each at its first occurrence. *)
Lemma fold_addKey_firstSeen names :
  forall ks,
  fold_left addKey names ks
  = ks ++ filter (fun n => negb (existsb (jsstring_eqb n) ks)) (firstSeen names).
Proof.
  induction names as [|n l IH]; intros ks; simpl.
  - now rewrite app_nil_r.
  - rewrite IH. unfold addKey.
    destruct (existsb (jsstring_eqb n) ks) eqn:E; simpl.
    + f_equal. symmetry. apply filter_filter_impl.
      intros x Hx. apply negb_true_iff in Hx. apply negb_true_iff.
      destruct (jsstring_eqb x n) eqn:Exn; [|reflexivity].
      apply jsstring_eqb_eq in Exn. subst x. congruence.
    + rewrite <- app_assoc. simpl. do 2 f_equal.
      rewrite filter_filter_and. apply filter_ext. intros x.
      rewrite existsb_app. simpl. rewrite orb_false_r, negb_orb.
      apply andb_comm.
Qed.

Lemma firstSeen_incl names x : In x (firstSeen names) -> In x names.
Proof.
  induction names as [|n l IH]; simpl; [tauto|].
  intros [H|H]; [auto|]. apply filter_In in H. right. apply IH, H.
Qed.

Lemma firstSeen_NoDup names : NoDup (firstSeen names).
Proof.
  induction names as [|n l IH]; simpl; constructor.
  - intros H. apply filter_In in H. destruct H as [_ H].
    now rewrite jsstring_eqb_refl in H.
  - now apply NoDup_filter.
Qed.

Lemma span_fst_forallb {A} (p : A -> bool) l a b :
  span p l = (a, b) -> forallb p a = true.
Proof.
  revert a b. induction l as [|x l IH]; simpl; intros a b H.
  - now injection H as <- <-.
  - destruct (p x) eqn:P.
    + destruct (span p l) as [a' b'] eqn:E. injection H as <- <-.
      simpl. now rewrite P, (IH a' b').
    + now injection H as <- <-.
Qed.

Lemma VARIABLE_DEFINITION_name line name value :
  VARIABLE_DEFINITION line = Some (name, value) ->
  name <> [] /\ forallb isLetter name = true.
Proof.
  unfold VARIABLE_DEFINITION. intros H.
  destruct (span isLetter line) as [a b] eqn:E.
  pose proof (span_fst_forallb _ _ _ _ E) as Ha.
  destruct a as [|a0 a']; [discriminate|].
  destruct b as [|c [|v0 v']]; try discriminate.
  destruct ((c =? EQUALS) && _); [|discriminate].
  injection H as <- <-. split; [discriminate | exact Ha].
Qed.

Lemma variableNames_letters lines :
  Forall (fun k => k <> [] /\ forallb isLetter k = true) (variableNames lines).
Proof.
  unfold variableNames. apply Forall_forall. intros k Hk.
  apply in_flat_map in Hk. destruct Hk as [line [_ Hk]].
  destruct (VARIABLE_DEFINITION line) as [[n v]|] eqn:E; [|destruct Hk].
  destruct Hk as [<-|[]]. eapply VARIABLE_DEFINITION_name; eauto.
Qed.

Section VariableNames.

Variable isDomainName : option jsstring -> bool.

Lemma parseLine_keys action m line m' :
  parseLine isDomainName action m line = Return m' ->
  map fst (variables m')
  = fold_left addKey (variableNames [line]) (map fst (variables m)).
Proof.
  unfold parseLine, variableNames. simpl.
  destruct (VARIABLE_DEFINITION line) as [[n v]|] eqn:E.
  - rewrite (VARIABLE_DEFINITION_not_skipped _ _ _ E). simpl. intros H.
    destruct (getProperty (variables m) n) as [[s|a|o]|];
      apply bind_Return in H; destruct H as [x [_ [= <-]]]; simpl;
      apply setProperty_keys.
  - simpl. destruct (isComment line || EMPTY_LINE line).
    { now intros [= <-]. }
    destruct (isDataField isDomainName line).
    + intros H. apply bind_Return in H. destruct H as [r [_ [= <-]]].
      reflexivity.
    + destruct (jsstring_eqb action (js "throw")); [discriminate|].
      now intros [= <-].
Qed.

Lemma forEach_keys action lines :
  forall m m',
  forEach (parseLine isDomainName action) lines m = Return m' ->
  map fst (variables m')
  = fold_left addKey (variableNames lines) (map fst (variables m)).
Proof.
  induction lines as [|line lines IH]; intros m m' H; simpl in H.
  - now injection H as <-.
  - apply bind_Return in H. destruct H as [m1 [H1 H]].
    rewrite (IH _ _ H), (parseLine_keys _ _ _ _ H1).
    change (line :: lines) with ([line] ++ lines).
    unfold variableNames. rewrite flat_map_app, fold_left_app. reflexivity.
Qed.

(** X7.  The keys of the returned variables are the names assigned in the
    text, each once, in the order in which they first appear; every key is a
    non-empty sequence of letters. *)
Theorem parseAdsTxt_variable_names text parseOptions m :
  parseAdsTxt isDomainName text parseOptions = Return m ->
  map fst (variables m) = firstSeen (variableNames (splitNewLine text))
  /\ NoDup (map fst (variables m))
  /\ Forall (fun k => k <> [] /\ forallb isLetter k = true)
            (map fst (variables m)).
Proof.
  intros H. apply parseAdsTxt_Return in H. destruct H as [action H].
  assert (K : map fst (variables m)
              = firstSeen (variableNames (splitNewLine text))).
  { rewrite (forEach_keys _ _ _ _ H), fold_addKey_firstSeen.
    change (map fst (variables {| variables := []; fields := [] |}))
      with (@nil jsstring).
    rewrite app_nil_l.
    induction (firstSeen _) as [|x l IH]; simpl; [reflexivity|].
    f_equal. exact IH. }
  split; [exact K|]. rewrite K. split; [apply firstSeen_NoDup|].
  apply Forall_forall. intros k Hk. apply firstSeen_incl in Hk.
  revert k Hk. apply Forall_forall. apply variableNames_letters.
Qed.

End VariableNames.

(* ================================================================= *)
(** ** When generation succeeds *)

Lemma mapR_Return_iff {A B} (f : A -> result B) l :
  (exists ys, mapR f l = Return ys)
  <-> Forall (fun x => exists y, f x = Return y) l.
Proof.
  induction l as [|x l IH]; simpl.
  - split; [constructor | eauto].
  - split.
    + intros [ys H]. apply bind_Return in H. destruct H as [y [Hy H]].
      apply bind_Return in H. destruct H as [ys' [Hys _]].
      constructor; [eauto | apply IH; eauto].
    + intros H. inversion H as [|? ? [y Hy] Hl]; subst.
      apply IH in Hl. destruct Hl as [ys Hys]. rewrite Hy, Hys. simpl. eauto.
Qed.

Lemma generateLineForVariable_accepted key value :
  (exists line, generateLineForVariable key value = Return line)
  <-> acceptedValue value = true.
Proof.
  destruct value; simpl; split; eauto; try discriminate.
  intros [line H]. discriminate.
Qed.

Section GenerationSucceeds.

Variable isDomainName : option jsstring -> bool.

Lemma generateLineForField_accepted field :
  (exists line, generateLineForField isDomainName field = Return line)
  <-> acceptedField isDomainName field = true.
Proof.
  unfold generateLineForField, acceptedField.
  destruct (isDomainName (domain field)); simpl;
    [|split; [intros [l H]; discriminate | discriminate]].
  destruct (nonEmpty (publisherAccountID field)); simpl;
    [|split; [intros [l H]; discriminate | discriminate]].
  destruct (accountType field) as [t|]; simpl;
    [|split; [intros [l H]; discriminate | discriminate]].
  destruct (jsstring_eqb (toUpperCase t) (js "DIRECT")
            || (jsstring_eqb (toUpperCase t) (js "RESELLER") || false)); simpl.
  - split; eauto.
  - split; [intros [l H]; discriminate | discriminate].
Qed.

(** X8.  [generateAdsTxt] returns a text exactly when every record is
    accepted (valid domain, non-empty publisher account ID, account type
    DIRECT or RESELLER up to case) and every variable value is a string or
    an array; the header and the footer never make it fail. *)
Theorem generateAdsTxt_succeeds_iff m header footer :
  (exists text, generateAdsTxt isDomainName m header footer = Return text)
  <-> forallb (acceptedField isDomainName) (fields m) = true
      /\ forallb acceptedValue (map snd (variables m)) = true.
Proof.
  unfold generateAdsTxt. split.
  - intros [text H].
    apply bind_Return in H. destruct H as [fl [Hf H]].
    apply bind_Return in H. destruct H as [vl [Hv _]].
    split.
    + apply forallb_forall. intros r Hr.
      apply generateLineForField_accepted.
      assert (F := proj1 (mapR_Return_iff _ _) (ex_intro _ fl Hf)).
      rewrite Forall_forall in F. now apply F.
    + apply forallb_forall. intros v Hin.
      apply in_map_iff in Hin. destruct Hin as [[k v'] [<- Hin]].
      apply (generateLineForVariable_accepted k).
      assert (F := proj1 (mapR_Return_iff _ _) (ex_intro _ vl Hv)).
      rewrite Forall_forall in F. now apply (F (k, v')).
  - intros [Hf Hv].
    assert (Ff : exists fl, mapR (generateLineForField isDomainName) (fields m)
                            = Return fl).
    { apply mapR_Return_iff. apply Forall_forall. intros r Hr.
      apply generateLineForField_accepted.
      revert r Hr. now apply forallb_forall. }
    assert (Fv : exists vl,
               mapR (fun kv => generateLineForVariable (fst kv) (snd kv))
                    (variables m) = Return vl).
    { apply mapR_Return_iff. apply Forall_forall. intros [k v] Hin.
      apply generateLineForVariable_accepted. simpl.
      rewrite forallb_forall in Hv. apply Hv.
      apply in_map_iff. exists (k, v). auto. }
    destruct Ff as [fl ->]. destruct Fv as [vl ->]. simpl. eauto.
Qed.

(** X9.  A record without an account type is not refused with the
    invalid-account-type error: the call of [toUpperCase] on the missing
    value raises a TypeError, which is the exception of [generateAdsTxt]
    when the records before it are accepted. *)
Theorem generateAdsTxt_missing_accountType m header footer pre field post ls :
  fields m = pre ++ field :: post ->
  mapR (generateLineForField isDomainName) pre = Return ls ->
  isDomainName (domain field) = true ->
  nonEmpty (publisherAccountID field) = true ->
  accountType field = None ->
  generateAdsTxt isDomainName m header footer = Throw TypeError.
Proof.
  intros Hm Hpre Hd Hp Ht.
  apply (generateAdsTxt_first_throw isDomainName m header footer
           pre field post ls TypeError Hm Hpre).
  unfold generateLineForField. now rewrite Hd, Hp, Ht.
Qed.

(** X10.  Records are generated before variables: when every record is
    accepted, the first variable whose value is neither a string nor an
    array ends the generation with the invalid-variable-value error that
    shows that value. *)
Theorem generateAdsTxt_invalid_variable_value m header footer pre key shown post :
  forallb (acceptedField isDomainName) (fields m) = true ->
  variables m = pre ++ (key, VOther shown) :: post ->
  forallb acceptedValue (map snd pre) = true ->
  generateAdsTxt isDomainName m header footer
  = Throw (Error (js "Failed generating ads.txt variable line: Invalid variable value: "
                  ++ shown)).
Proof.
  intros Hf Hv Hpre. unfold generateAdsTxt.
  assert (Ff : exists fl, mapR (generateLineForField isDomainName) (fields m)
                          = Return fl).
  { apply mapR_Return_iff. apply Forall_forall. intros r Hr.
    apply generateLineForField_accepted.
    revert r Hr. now apply forallb_forall. }
  assert (Fp : exists vl,
             mapR (fun kv => generateLineForVariable (fst kv) (snd kv)) pre
             = Return vl).
  { apply mapR_Return_iff. apply Forall_forall. intros [k v] Hin.
    apply generateLineForVariable_accepted. simpl.
    rewrite forallb_forall in Hpre. apply Hpre.
    apply in_map_iff. exists (k, v). auto. }
  destruct Ff as [fl ->]. destruct Fp as [vl Hvl]. simpl.
  rewrite Hv.
  rewrite (mapR_first_throw _ pre (key, VOther shown) post vl
             (Error (js "Failed generating ads.txt variable line: Invalid variable value: "
                     ++ shown)) Hvl eq_refl).
  reflexivity.
Qed.

End GenerationSucceeds.

(* ================================================================= *)
(** ** Comments *)

Lemma split_head sep s :
  exists p ps, split sep s = p :: ps
               /\ forallb (fun c => negb (c =? sep)) p = true
               /\ s = join [sep] (p :: ps).
Proof.
  induction s as [|c s [p [ps [Hs [Hp Hj]]]]]; simpl.
  - exists [], []. auto.
  - destruct (c =? sep) eqn:E.
    + apply N.eqb_eq in E. subst c. rewrite Hs.
      exists [], (p :: ps). split; [reflexivity|]. split; [reflexivity|].
      change (join [sep] ([] :: p :: ps)) with (sep :: join [sep] (p :: ps)).
      now rewrite <- Hj.
    + rewrite Hs. exists (c :: p), ps. split; [reflexivity|]. split.
      * simpl. now rewrite E, Hp.
      * rewrite Hj at 1. destruct ps; reflexivity.
Qed.

Lemma join_split sep s : join [sep] (split sep s) = s.
Proof.
  destruct (split_head sep s) as [p [ps [-> [_ H]]]]. now symmetry.
Qed.

(** X11.  [stripComment] cuts the line at its first hash sign: the main part
    has no hash sign, and the comment is the rest of the line after that
    hash sign, further hash signs included, trimmed; a line without a hash
    sign is its own main part and has the empty comment. *)
Theorem stripComment_first_hash line :
  let (main, comment) := stripComment line in
  forallb (fun c => negb (c =? HASH)) main = true
  /\ ((line = main /\ comment = [])
      \/ exists raw, line = main ++ HASH :: raw /\ comment = trim raw).
Proof.
  unfold stripComment.
  destruct (split_head HASH line) as [p [ps [-> [Hp Hj]]]].
  split; [exact Hp|].
  destruct ps as [|q qs].
  - left. split; [exact Hj | reflexivity].
  - right. exists (join [HASH] (q :: qs)). split; [exact Hj | reflexivity].
Qed.

(* ================================================================= *)
(** ** Lines with a comment *)

Lemma dropWhile_all {A} (p : A -> bool) l :
  forallb p l = true -> dropWhile p l = [].
Proof.
  induction l as [|x l IH]; simpl; [reflexivity|].
  intros H. apply andb_true_iff in H. destruct H as [-> H]. auto.
Qed.

Lemma dropWhile_app {A} (p : A -> bool) a b :
  dropWhile p (a ++ b)
  = if forallb p a then dropWhile p b else dropWhile p a ++ b.
Proof.
  induction a as [|x a IH]; simpl; [reflexivity|].
  destruct (p x); simpl; [exact IH | reflexivity].
Qed.

Lemma trim_app_space s c : isWhiteSpace c = true -> trim (s ++ [c]) = trim s.
Proof.
  intros H. unfold trim. rewrite dropWhile_app.
  destruct (forallb isWhiteSpace s) eqn:E.
  - rewrite (dropWhile_all _ _ E). simpl. now rewrite H.
  - rewrite rev_app_distr. simpl. now rewrite H.
Qed.

Section CommentLines.

Variable isDomainName : option jsstring -> bool.

Lemma generateLineForField_comment d p t c cm :
  cm <> [] ->
  generateLineForField isDomainName (mkField d p t c (Some cm))
  = (l <- generateLineForField isDomainName (mkField d p t c None) ;;
     Return (l ++ js " # " ++ cm)).
Proof.
  intros Hcm. unfold generateLineForField. simpl.
  destruct (isDomainName d); simpl; [|reflexivity].
  destruct (nonEmpty p); simpl; [|reflexivity].
  destruct (isValidAccountType t) as [[]|]; simpl; try reflexivity.
  destruct cm; [congruence|]. reflexivity.
Qed.

Lemma parseLine_data_line_comment action m d p t c cm :
  isDomainName (Some d) = true ->
  plain d = true -> forallb (fun x => negb (x =? EQUALS)) d = true ->
  plain p = true ->
  In (toUpperCase t) AccountType ->
  match c with Some c => plain c = true | None => True end ->
  plainComment cm = true ->
  parseLine isDomainName action m
    (join [COMMA] (d :: (SPACE :: p) :: (SPACE :: t) :: certificateTail c)
     ++ js " # " ++ cm)
  = Return {| variables := variables m;
              fields := fields m
                        ++ [mkField (Some d) (Some p) (Some t) c (Some cm)] |}.
Proof.
  intros Hdom Hd Heq Hp Ht Hc Hcm.
  pose proof (valid_accountType_plain _ Ht) as Htp.
  destruct (plain_spec _ Hd) as [Hd1 [Hd2 [Hd3 [Hd4 [Hd5 Hd6]]]]].
  destruct (plain_spec _ Hp) as [Hp1 [Hp2 [Hp3 [Hp4 [Hp5 Hp6]]]]].
  destruct (plain_spec _ Htp) as [Ht1 [Ht2 [Ht3 [Ht4 [Ht5 Ht6]]]]].
  assert (Hc' : match c with
                | Some c => trim c = c
                            /\ forallb (fun x => negb (x =? COMMA)) c = true
                            /\ forallb (fun x => negb (x =? HASH)) c = true
                            /\ forallb (fun x => negb (x =? PERCENT)) c = true
                | None => True
                end).
  { destruct c as [c|]; [|exact I].
    destruct (plain_spec _ Hc) as [_ [? [? [? [? _]]]]]. auto. }
  unfold plainComment in Hcm.
  apply andb_true_iff in Hcm. destruct Hcm as [Hcm Hcm3].
  apply andb_true_iff in Hcm. destruct Hcm as [Hcm1 Hcm2].
  apply jsstring_eqb_eq in Hcm2.
  set (last := match c with
               | Some c => [SPACE :: t; (SPACE :: c) ++ [SPACE]]
               | None => [(SPACE :: t) ++ [SPACE]]
               end).
  set (pieces := d :: (SPACE :: p) :: last).
  set (base := join [COMMA] (d :: (SPACE :: p) :: (SPACE :: t) :: certificateTail c)).
  change (js " # ") with [SPACE; HASH; SPACE].
  set (line := base ++ [SPACE; HASH; SPACE] ++ cm).
  assert (Hmain : base ++ [SPACE] = join [COMMA] pieces).
  { unfold base, pieces, last. destruct c as [c|]; simpl;
      repeat first [rewrite <- app_assoc | progress simpl]; reflexivity. }
  assert (Hpieces : Forall (fun q => forallb (fun x => negb (x =? COMMA)) q = true)
                           pieces).
  { unfold pieces, last. destruct c as [c|].
    - destruct Hc' as [_ [Hc3 _]].
      constructor; [exact Hd3|]. constructor; [exact Hp3|].
      constructor; [exact Ht3|]. constructor; [|constructor].
      simpl. rewrite forallb_app, Hc3. reflexivity.
    - constructor; [exact Hd3|]. constructor; [exact Hp3|].
      constructor; [|constructor].
      simpl. rewrite forallb_app, Ht3. reflexivity. }
  assert (Hhash : forallb (fun x => negb (x =? HASH)) (base ++ [SPACE]) = true).
  { rewrite Hmain. unfold pieces, last.
    destruct c as [c|].
    - change (join [COMMA] (d :: (SPACE :: p) :: [SPACE :: t; (SPACE :: c) ++ [SPACE]]))
        with (d ++ COMMA :: (SPACE :: p) ++ COMMA :: (SPACE :: t) ++ COMMA :: (SPACE :: c) ++ [SPACE]).
      destruct Hc' as [_ [_ [Hc4 _]]].
      rewrite forallb_app, Hd4. simpl. rewrite forallb_app, Hp4. simpl.
      rewrite forallb_app, Ht4. simpl. rewrite forallb_app, Hc4. reflexivity.
    - change (join [COMMA] (d :: (SPACE :: p) :: [(SPACE :: t) ++ [SPACE]]))
        with (d ++ COMMA :: (SPACE :: p) ++ COMMA :: (SPACE :: t) ++ [SPACE]).
      rewrite forallb_app, Hd4. simpl. rewrite forallb_app, Hp4. simpl.
      rewrite forallb_app, Ht4. reflexivity. }
  assert (Hstrip : stripComment line = (base ++ [SPACE], cm)).
  { unfold stripComment, line.
    change (base ++ [SPACE; HASH; SPACE] ++ cm)
      with (base ++ [SPACE] ++ HASH :: (SPACE :: cm)).
    rewrite app_assoc, (split_app _ _ _ Hhash).
    rewrite join_split, trim_space_cons; [|reflexivity]. now rewrite Hcm2. }
  assert (Hsplit : split COMMA (base ++ [SPACE]) = pieces).
  { rewrite Hmain. apply split_join; [assumption | discriminate]. }
  assert (Hline : exists x rest, d = x :: rest /\ isWhiteSpace x = false
                                 /\ (x =? HASH) = false).
  { destruct d as [|x rest]; [congruence|]. exists x, rest.
    split; [reflexivity|]. split; [now apply (trim_fixed_head x rest)|].
    simpl in Hd4. apply andb_true_iff in Hd4. destruct Hd4 as [Hx _].
    now apply negb_true_iff in Hx. }
  destruct Hline as [x [rest [Hdx [Hws Hh]]]].
  assert (Hskip : isComment line || EMPTY_LINE line = false).
  { unfold line, base. rewrite Hdx. unfold isComment, EMPTY_LINE. simpl.
    rewrite Hws, Hh. reflexivity. }
  assert (Hvar : VARIABLE_DEFINITION line = None).
  { unfold line, base.
    change (join [COMMA] (d :: (SPACE :: p) :: (SPACE :: t) :: certificateTail c))
      with (d ++ COMMA :: join [COMMA] ((SPACE :: p) :: (SPACE :: t) :: certificateTail c)).
    rewrite <- app_assoc. simpl.
    now apply VARIABLE_DEFINITION_data_line. }
  assert (Htrim : forall s, trim (SPACE :: s) = trim s).
  { intros s. now apply trim_space_cons. }
  assert (Htrim' : forall s, trim (s ++ [SPACE]) = trim s).
  { intros s. now apply trim_app_space. }
  assert (Hcomment : (if nonEmpty (Some cm) then Some cm else None) = Some cm).
  { now rewrite Hcm1. }
  assert (Hdf : isDataField isDomainName line = true).
  { unfold isDataField. rewrite Hstrip, Hsplit. unfold pieces, last.
    destruct c as [c|]; cbn [map nth_error];
      rewrite Hd2, Hdom, ?Htrim', Htrim, Ht2;
      now rewrite (isValidAccountType_valid _ Ht). }
  assert (Hcreate : createDataField line
                    = Return (mkField (Some d) (Some p) (Some t) c (Some cm))).
  { unfold createDataField. rewrite Hstrip, Hsplit, Hcomment.
    unfold pieces, last. destruct c as [c|]; simpl mapR.
    - destruct Hc' as [Hc2 [_ [_ Hc5]]].
      rewrite Hd2, !Htrim, Htrim', Hp2, Ht2, Hc2.
      rewrite (decodeURIComponent_no_percent _ Hd5),
              (decodeURIComponent_no_percent _ Hp5),
              (decodeURIComponent_no_percent _ Ht5),
              (decodeURIComponent_no_percent _ Hc5). reflexivity.
    - rewrite Hd2, !Htrim, Htrim', Hp2, Ht2.
      rewrite (decodeURIComponent_no_percent _ Hd5),
              (decodeURIComponent_no_percent _ Hp5),
              (decodeURIComponent_no_percent _ Ht5). reflexivity. }
  unfold parseLine. fold line. rewrite Hskip, Hvar, Hdf, Hcreate. reflexivity.
Qed.

End CommentLines.

(* ================================================================= *)
(** ** From a generated text back to its manifest *)

Lemma getProperty_app_absent vars l key :
  ~ In key (map fst vars) -> getProperty (vars ++ l) key = getProperty l key.
Proof.
  induction vars as [|[k v] vars IH]; simpl; [reflexivity|].
  intros Hn. destruct (jsstring_eqb k key) eqn:E.
  - apply jsstring_eqb_eq in E. tauto.
  - apply IH. tauto.
Qed.

Lemma setProperty_app_absent vars l key value :
  ~ In key (map fst vars) ->
  setProperty (vars ++ l) key value = vars ++ setProperty l key value.
Proof.
  induction vars as [|[k v] vars IH]; simpl; [reflexivity|].
  intros Hn. destruct (jsstring_eqb k key) eqn:E.
  - apply jsstring_eqb_eq in E. tauto.
  - f_equal. apply IH. tauto.
Qed.

Lemma splitNewLine_not_nil s : splitNewLine s <> [].
Proof.
  destruct s as [|c t]; simpl; [discriminate|].
  destruct (c =? CR).
  - destruct t as [|d t']; [discriminate|]. destruct (d =? LF); discriminate.
  - destruct (c =? LF); [discriminate|].
    destruct (splitNewLine t); discriminate.
Qed.

(** A line feed after a string without carriage return separates its lines
    from the lines of what follows. *)
Lemma splitNewLine_app_LF a b :
  forallb (fun c => negb (c =? CR)) a = true ->
  splitNewLine (a ++ LF :: b) = splitNewLine a ++ splitNewLine b.
Proof.
  induction a as [|c a IH]; intros H; [reflexivity|].
  simpl in H. apply andb_true_iff in H. destruct H as [Hc Ha].
  apply negb_true_iff in Hc. specialize (IH Ha).
  change (splitNewLine ((c :: a) ++ LF :: b))
    with (splitNewLine (c :: a ++ LF :: b)).
  cbn [splitNewLine]. rewrite Hc.
  destruct (c =? LF); [now rewrite IH|].
  rewrite IH. pose proof (splitNewLine_not_nil a) as Hne.
  destruct (splitNewLine a); [congruence | reflexivity].
Qed.

Lemma splitNewLine_join_strings strings :
  Forall (fun s => forallb (fun c => negb (c =? CR)) s = true) strings ->
  strings <> [] ->
  splitNewLine (join [LF] strings) = flat_map splitNewLine strings.
Proof.
  induction strings as [|s strings IH]; intros H Hne; [congruence|].
  inversion H as [|? ? Hs Hrest]; subst.
  destruct strings as [|s' strings].
  - simpl. now rewrite app_nil_r.
  - change (join [LF] (s :: s' :: strings))
      with (s ++ LF :: join [LF] (s' :: strings)).
    rewrite (splitNewLine_app_LF _ _ Hs), IH;
      [reflexivity | assumption | discriminate].
Qed.

Lemma oneLine_no_CR s :
  oneLine s = true -> forallb (fun c => negb (c =? CR)) s = true.
Proof.
  apply forallb_impl. intros c H.
  apply negb_true_iff, orb_false_iff in H. apply negb_true_iff, H.
Qed.

Lemma flat_map_splitNewLine_lines lines :
  Forall (fun l => oneLine l = true) lines ->
  flat_map splitNewLine lines = lines.
Proof.
  induction 1 as [|l lines Hl _ IH]; simpl; [reflexivity|].
  now rewrite (splitNewLine_oneLine _ Hl), IH.
Qed.

Lemma split_pieces sep s :
  Forall (fun p => forallb (fun c => negb (c =? sep)) p = true) (split sep s).
Proof.
  induction s as [|c s IH]; simpl; [repeat constructor|].
  destruct (c =? sep) eqn:E; [constructor; [reflexivity | exact IH]|].
  destruct (split sep s) as [|p ps]; [repeat constructor; simpl; now rewrite E|].
  inversion IH; subst. constructor; [simpl; now rewrite E | assumption].
Qed.

(** The lines of a header or a footer without carriage return are comments
    of one line each. *)
Lemma commentBlock_lines text :
  plainBlock text = true ->
  Forall (fun l => oneLine l = true /\ skipped l = true) (commentBlock text).
Proof.
  unfold commentBlock, plainBlock. destruct text as [t|]; [|constructor].
  intros H. destruct (nonEmpty (Some t)); [|constructor].
  simpl toString. apply Forall_forall. intros l Hl.
  apply in_map_iff in Hl. destruct Hl as [p [<- Hp]].
  pose proof (forallb_split _ LF t H) as F1.
  pose proof (split_pieces LF t) as F2.
  rewrite Forall_forall in F1, F2. specialize (F1 p Hp). specialize (F2 p Hp).
  split; [|reflexivity].
  change (js "# ") with [HASH; SPACE]. simpl.
  apply forallb_forall. intros c Hc.
  rewrite forallb_forall in F1, F2.
  specialize (F1 c Hc). specialize (F2 c Hc).
  apply negb_true_iff in F1. apply negb_true_iff in F2.
  apply negb_true_iff, orb_false_iff. auto.
Qed.

Section GeneralRoundTrip.

Variable isDomainName : option jsstring -> bool.

Lemma forEach_all_skipped action lines m :
  Forall (fun l => oneLine l = true /\ skipped l = true) lines ->
  forEach (parseLine isDomainName action) lines m = Return m.
Proof.
  induction 1 as [|l lines [_ Hl] _ IH]; simpl; [reflexivity|].
  unfold parseLine at 1. unfold skipped in Hl. rewrite Hl. simpl. exact IH.
Qed.

(** A record that makes the round trip, with or without a comment. *)
Lemma roundTripRecord_line r :
  roundTripRecord isDomainName r = true ->
  exists line,
    generateLineForField isDomainName r = Return line
    /\ oneLine line = true
    /\ forall action m,
         parseLine isDomainName action m line
         = Return {| variables := variables m; fields := fields m ++ [r] |}.
Proof.
  unfold roundTripRecord. intros H.
  apply andb_true_iff in H. destruct H as [Hr Hcm].
  destruct r as [d p t c [cm|]]; simpl in *;
    [|apply (roundTripField_line isDomainName _ Hr)].
  destruct d as [d|], p as [p|], t as [t|]; unfold roundTripField in Hr;
    simpl in Hr; try discriminate.
  rewrite andb_true_r in Hr.
  apply andb_true_iff in Hr. destruct Hr as [Hr Hc].
  apply andb_true_iff in Hr. destruct Hr as [Hr Ht].
  apply andb_true_iff in Hr. destruct Hr as [Hr Hp].
  apply andb_true_iff in Hr. destruct Hr as [Hr Heq].
  apply andb_true_iff in Hr. destruct Hr as [Hdom Hd].
  apply (existsb_eqb_In (toUpperCase t) AccountType) in Ht.
  assert (Hc' : match c with Some c => plain c = true | None => True end).
  { destruct c; auto. }
  assert (Hcm' := Hcm). unfold plainComment in Hcm'.
  apply andb_true_iff in Hcm'. destruct Hcm' as [Hcm' Hcm3].
  apply andb_true_iff in Hcm'. destruct Hcm' as [Hcm1 _].
  exists (join [COMMA] (d :: (SPACE :: p) :: (SPACE :: t) :: certificateTail c)
          ++ js " # " ++ cm).
  split; [|split].
  - rewrite generateLineForField_comment; [|intros ->; discriminate].
    rewrite generateLineForField_pieces; auto.
    + apply (plain_spec _ Hp).
    + destruct c as [c|]; [apply (plain_spec _ Hc')|exact I].
  - rewrite oneLine_app, oneLine_app, Hcm3.
    rewrite (data_line_oneLine d p t c Hd Hp (valid_accountType_plain _ Ht) Hc').
    reflexivity.
  - intros action m. now apply parseLine_data_line_comment.
Qed.

Lemma forEach_record_lines action fs :
  forallb (roundTripRecord isDomainName) fs = true ->
  exists lines,
    mapR (generateLineForField isDomainName) fs = Return lines
    /\ Forall (fun l => oneLine l = true) lines
    /\ forall m, forEach (parseLine isDomainName action) lines m
                 = Return {| variables := variables m; fields := fields m ++ fs |}.
Proof.
  induction fs as [|r fs IH]; simpl; intros H.
  - exists []. repeat split; auto. intros [vs fs0]. simpl. now rewrite app_nil_r.
  - apply andb_true_iff in H. destruct H as [Hr Hfs].
    destruct (roundTripRecord_line r Hr) as [l [Hg [Hl Hp]]].
    destruct (IH Hfs) as [ls [Hgs [Hls Hps]]].
    exists (l :: ls). rewrite Hg, Hgs. simpl. repeat split; auto.
    intros m. rewrite Hp. simpl. rewrite Hps. simpl.
    now rewrite <- app_assoc.
Qed.

(** The line [key=value] of a plain name and a plain value is an assignment:
    it decodes to the value itself and updates the entry of the name. *)
Lemma parseLine_assignment action m key value :
  plainName key = true -> plainValue value = true ->
  parseLine isDomainName action m (key ++ EQUALS :: value)
  = Return {| variables :=
                setProperty (variables m) key
                  match getProperty (variables m) key with
                  | Some (VString s) => VArray [s; value]
                  | Some (VArray a) => VArray (a ++ [value])
                  | _ => VString value
                  end;
              fields := fields m |}.
Proof.
  unfold plainName, plainValue. intros Hk Hv.
  apply andb_true_iff in Hk. destruct Hk as [Hk1 Hk2].
  apply andb_true_iff in Hv. destruct Hv as [Hv1 Hv2].
  destruct (isLineTerminator_oneLine _ Hv2) as [_ [Hv3 Hv4]].
  assert (Hm : VARIABLE_DEFINITION (key ++ EQUALS :: value) = Some (key, value)).
  { unfold VARIABLE_DEFINITION. rewrite (span_letters_all _ _ Hk2).
    destruct key as [|k0 key']; [discriminate|].
    destruct value as [|v0 value']; [discriminate|].
    rewrite N.eqb_refl, Hv3. reflexivity. }
  unfold parseLine.
  rewrite (VARIABLE_DEFINITION_not_skipped _ _ _ Hm), Hm.
  rewrite (decodeURIComponent_no_percent _ Hv4).
  destruct (getProperty (variables m) key) as [[s|a|o]|]; reflexivity.
Qed.

Lemma assignment_oneLine key value :
  plainName key = true -> plainValue value = true ->
  oneLine (key ++ EQUALS :: value) = true.
Proof.
  unfold plainName, plainValue. intros Hk Hv.
  apply andb_true_iff in Hk. destruct Hk as [_ Hk].
  apply andb_true_iff in Hv. destruct Hv as [_ Hv].
  destruct (isLineTerminator_oneLine _ Hv) as [Hv1 _].
  rewrite oneLine_app. simpl.
  change (forallb (fun c => negb ((c =? CR) || (c =? LF)))) with oneLine.
  rewrite Hv1, andb_true_r.
  revert Hk. apply forallb_impl. intros c Hc.
  destruct (isLetter_plain_unit c Hc) as [_ Hp].
  apply negb_true_iff in Hp.
  repeat (apply orb_false_iff in Hp; destruct Hp as [Hp ?]).
  apply negb_true_iff, orb_false_iff. auto.
Qed.

(** The lines of an array, one after the other, on an object in which the
    name holds the accumulation of the values [prefix]. *)
Lemma forEach_array_lines action key vars fs rest :
  plainName key = true ->
  ~ In key (map fst vars) ->
  forallb plainValue rest = true ->
  forall prefix,
  forEach (parseLine isDomainName action)
          (map (fun single => key ++ [EQUALS] ++ single) rest)
          {| variables := vars ++ match accumulated prefix with
                                  | Some v => [(key, v)]
                                  | None => []
                                  end;
             fields := fs |}
  = Return {| variables := vars ++ match accumulated (prefix ++ rest) with
                                   | Some v => [(key, v)]
                                   | None => []
                                   end;
              fields := fs |}.
Proof.
  intros Hk Hnew. induction rest as [|v rest IH]; intros Hrest prefix.
  - simpl. now rewrite app_nil_r.
  - simpl in Hrest. apply andb_true_iff in Hrest. destruct Hrest as [Hv Hrest].
    cbn [map forEach]. change (key ++ [EQUALS] ++ v) with (key ++ EQUALS :: v).
    rewrite (parseLine_assignment action _ key v Hk Hv). cbn [bind variables fields].
    rewrite (getProperty_app_absent _ _ _ Hnew),
            (setProperty_app_absent _ _ _ _ Hnew).
    replace (prefix ++ v :: rest) with ((prefix ++ [v]) ++ rest)
      by (now rewrite <- app_assoc).
    rewrite <- (IH Hrest (prefix ++ [v])). f_equal. f_equal. f_equal.
    rewrite <- (accumulated_snoc prefix v).
    destruct (accumulated prefix) as [[s|a|o]|] eqn:E; simpl;
      rewrite ?jsstring_eqb_refl; reflexivity.
Qed.

(** An entry that makes the round trip: its text, and the parse of the
    lines of that text when the name was not assigned before. *)
Lemma roundTripEntry_lines kv :
  roundTripEntry kv = true ->
  exists s,
    generateLineForVariable (fst kv) (snd kv) = Return s
    /\ forallb (fun c => negb (c =? CR)) s = true
    /\ forall action m,
         ~ In (fst kv) (map fst (variables m)) ->
         forEach (parseLine isDomainName action) (splitNewLine s) m
         = Return {| variables := variables m
                                  ++ match reparsedValue (snd kv) with
                                     | Some v => [(fst kv, v)]
                                     | None => []
                                     end;
                     fields := fields m |}.
Proof.
  destruct kv as [key [value|a|o]]; unfold roundTripEntry; simpl;
    intros H; apply andb_true_iff in H; destruct H as [Hk Hv];
    try discriminate.
  - exists (key ++ EQUALS :: value).
    pose proof (assignment_oneLine _ _ Hk Hv) as Hl.
    split; [reflexivity|]. split; [now apply oneLine_no_CR|].
    intros action [vars fs] Hnew. simpl in Hnew.
    rewrite (splitNewLine_oneLine _ Hl).
    pose proof (forEach_array_lines action key vars fs [value] Hk Hnew) as A.
    simpl in A. rewrite Hv in A. specialize (A eq_refl []).
    simpl in A. rewrite app_nil_r in A. exact A.
  - exists (join [LF] (map (fun single => key ++ [EQUALS] ++ single) a)).
    assert (Hl : Forall (fun l => oneLine l = true)
                        (map (fun single => key ++ [EQUALS] ++ single) a)).
    { apply Forall_forall. intros l Hin. apply in_map_iff in Hin.
      destruct Hin as [v [<- Hin]]. apply assignment_oneLine; [assumption|].
      rewrite forallb_forall in Hv. now apply Hv. }
    split; [reflexivity|]. split.
    { destruct a as [|v0 a']; [reflexivity|].
      assert (E : join [LF] (map (fun single => key ++ [EQUALS] ++ single) (v0 :: a'))
                  = join [LF] (map (fun single => key ++ [EQUALS] ++ single) (v0 :: a')))
        by reflexivity.
      clear E. revert Hl. generalize (map (fun single => key ++ [EQUALS] ++ single) (v0 :: a')).
      induction l as [|x l IHl]; intros F; [reflexivity|].
      inversion F as [|? ? Hx Hrest]; subst.
      destruct l as [|y l]; [now apply oneLine_no_CR|].
      change (join [LF] (x :: y :: l)) with (x ++ LF :: join [LF] (y :: l)).
      rewrite forallb_app, (oneLine_no_CR _ Hx). simpl. now apply IHl. }
    intros action [vars fs] Hnew. simpl in Hnew.
    pose proof (forEach_array_lines action key vars fs a Hk Hnew Hv []) as A.
    simpl in A. rewrite app_nil_r in A. simpl.
    destruct a as [|v0 a'].
    + simpl. now rewrite app_nil_r.
    + rewrite splitNewLine_join; [exact A | exact Hl | discriminate].
Qed.

Lemma forEach_entry_lines action vs :
  forallb roundTripEntry vs = true ->
  exists strings,
    mapR (fun kv => generateLineForVariable (fst kv) (snd kv)) vs = Return strings
    /\ Forall (fun s => forallb (fun c => negb (c =? CR)) s = true) strings
    /\ List.length strings = List.length vs
    /\ forall m, NoDup (map fst (variables m) ++ map fst vs) ->
                 forEach (parseLine isDomainName action)
                         (flat_map splitNewLine strings) m
                 = Return {| variables := variables m ++ reparsed vs;
                             fields := fields m |}.
Proof.
  induction vs as [|kv vs IH]; simpl; intros H.
  - exists []. repeat split; auto. intros [vs0 fs0] _. simpl. now rewrite app_nil_r.
  - apply andb_true_iff in H. destruct H as [Hkv Hvs].
    destruct (roundTripEntry_lines kv Hkv) as [s [Hg [Hs Hp]]].
    destruct (IH Hvs) as [ss [Hgs [Hss [Hlen Hps]]]].
    exists (s :: ss). rewrite Hg, Hgs. simpl. repeat split; auto.
    intros m Hnd.
    assert (Hnew : ~ In (fst kv) (map fst (variables m))).
    { apply NoDup_remove_2 in Hnd. intros Hin. apply Hnd.
      apply in_or_app. now left. }
    rewrite forEach_app, (Hp action m Hnew). simpl. rewrite Hps; simpl.
    + unfold reparsed at 2. simpl. fold (reparsed vs). now rewrite <- app_assoc.
    + destruct (reparsedValue (snd kv)); simpl.
      * rewrite map_app, <- app_assoc. exact Hnd.
      * rewrite app_nil_r. now apply NoDup_remove_1 in Hnd.
Qed.

(** The lines of the text that [generateAdsTxt] gives for a manifest that
    makes the round trip, parsed one after the other. *)
Lemma generateAdsTxt_lines m header footer :
  forallb (roundTripRecord isDomainName) (fields m) = true ->
  forallb roundTripEntry (variables m) = true ->
  NoDup (map fst (variables m)) ->
  plainBlock header = true -> plainBlock footer = true ->
  exists text,
    generateAdsTxt isDomainName m header footer = Return text
    /\ forall action,
         forEach (parseLine isDomainName action) (splitNewLine text)
                 {| variables := []; fields := [] |}
         = Return {| variables := reparsed (variables m); fields := fields m |}.
Proof.
  intros Hf Hv Hnd Hh Hft.
  destruct (forEach_record_lines (js "filter") _ Hf) as [fl [Hgf [Hfl _]]].
  destruct (forEach_entry_lines (js "filter") _ Hv) as [vl [Hgv [Hvl [Hlv _]]]].
  pose proof (commentBlock_lines _ Hh) as Hhl.
  pose proof (commentBlock_lines _ Hft) as Hfl'.
  remember ((commentBlock header ++ fl ++ vl) ++ commentBlock footer)
    as strings eqn:Es.
  exists (join [LF] strings). split.
  { unfold generateAdsTxt. rewrite Hgf, Hgv, Es. reflexivity. }
  intros action.
  destruct (forEach_record_lines action _ Hf) as [fl2 [Hgf2 [_ Hpf]]].
  rewrite Hgf in Hgf2. injection Hgf2 as <-.
  destruct (forEach_entry_lines action _ Hv) as [vl2 [Hgv2 [_ [_ Hpv]]]].
  rewrite Hgv in Hgv2. injection Hgv2 as <-.
  assert (Hdone : forEach (parseLine isDomainName action)
                          (flat_map splitNewLine strings)
                          {| variables := []; fields := [] |}
                  = Return {| variables := reparsed (variables m);
                              fields := fields m |}).
  { rewrite Es, !flat_map_app.
    rewrite (flat_map_splitNewLine_lines (commentBlock header)),
            (flat_map_splitNewLine_lines fl),
            (flat_map_splitNewLine_lines (commentBlock footer)).
    - rewrite forEach_app, forEach_app.
      rewrite (forEach_all_skipped action _ _ Hhl). cbn [bind].
      rewrite forEach_app, Hpf. cbn [bind variables fields].
      rewrite Hpv; [|exact Hnd]. cbn [bind variables fields app].
      apply (forEach_all_skipped action _ _ Hfl').
    - revert Hfl'. apply Forall_impl. now intros l [H _].
    - exact Hfl.
    - revert Hhl. apply Forall_impl. now intros l [H _]. }
  assert (Hcr : Forall (fun s => forallb (fun c => negb (c =? CR)) s = true)
                       strings).
  { rewrite Es. apply Forall_app. split; [apply Forall_app; split|].
    - revert Hhl. apply Forall_impl. intros l [H _]. now apply oneLine_no_CR.
    - apply Forall_app. split; [|exact Hvl].
      revert Hfl. apply Forall_impl. intros l H. now apply oneLine_no_CR.
    - revert Hfl'. apply Forall_impl. intros l [H _]. now apply oneLine_no_CR. }
  clear Es. destruct strings as [|s0 ss].
  - simpl in Hdone. injection Hdone as <- <-. reflexivity.
  - rewrite splitNewLine_join_strings; [exact Hdone | exact Hcr | discriminate].
Qed.

End GeneralRoundTrip.

Lemma roundTripVariable_entries vs :
  forallb roundTripVariable vs = true ->
  forallb roundTripEntry vs = true /\ reparsed vs = vs.
Proof.
  induction vs as [|[k v] vs IH]; simpl; [auto|].
  intros H. apply andb_true_iff in H. destruct H as [Hkv Hvs].
  destruct (IH Hvs) as [He Hr]. unfold reparsed in *. simpl.
  rewrite Hr, He. split; [|now destruct v].
  rewrite andb_true_r. destruct v as [s|a|o]; try discriminate.
  unfold roundTripEntry, plainName, plainValue. simpl.
  now rewrite andb_assoc.
Qed.

Section RoundTripTheorems.

Variable isDomainName : option jsstring -> bool.

Lemma parseAdsTxt_of_lines text parseOptions m :
  In parseOptions [None; Some (js "filter"); Some (js "throw")] ->
  (forall action,
     forEach (parseLine isDomainName action) (splitNewLine text)
             {| variables := []; fields := [] |} = Return m) ->
  parseAdsTxt isDomainName text parseOptions = Return m.
Proof.
  intros Hopt H. unfold parseAdsTxt.
  destruct Hopt as [<-|[<-|[<-|[]]]]; apply H.
Qed.

(** X12.  The round trip of C5 also holds with comments, a header and a
    footer: for records whose comment, if any, is not empty, has no white
    space at its ends and is on one line, and for a header and a footer
    without carriage return, the text of [generateAdsTxt] is parsed back,
    under either policy, to the same manifest, comments included. *)
Theorem parseAdsTxt_generateAdsTxt_comments m header footer parseOptions :
  forallb (roundTripRecord isDomainName) (fields m) = true ->
  forallb roundTripVariable (variables m) = true ->
  NoDup (map fst (variables m)) ->
  plainBlock header = true -> plainBlock footer = true ->
  In parseOptions [None; Some (js "filter"); Some (js "throw")] ->
  exists text,
    generateAdsTxt isDomainName m header footer = Return text
    /\ parseAdsTxt isDomainName text parseOptions = Return m.
Proof.
  intros Hf Hv Hnd Hh Hft Hopt.
  destruct (roundTripVariable_entries _ Hv) as [He Hr].
  destruct (generateAdsTxt_lines isDomainName m header footer Hf He Hnd Hh Hft)
    as [text [Hg Hp]].
  exists text. split; [exact Hg|].
  apply parseAdsTxt_of_lines; [exact Hopt|].
  intros action. rewrite (Hp action), Hr. now destruct m.
Qed.

(** X13.  Arrays make the round trip by their elements: the text generated
    for a manifest whose variables are plain strings or arrays of plain
    strings is parsed back to the same records and to the variables
    accumulated anew, so that an array of two or more values comes back as
    that array, an array of one value as a string, and an empty array not at
    all. *)
Theorem parseAdsTxt_generateAdsTxt_arrays m header footer parseOptions :
  forallb (roundTripRecord isDomainName) (fields m) = true ->
  forallb roundTripEntry (variables m) = true ->
  NoDup (map fst (variables m)) ->
  plainBlock header = true -> plainBlock footer = true ->
  In parseOptions [None; Some (js "filter"); Some (js "throw")] ->
  exists text,
    generateAdsTxt isDomainName m header footer = Return text
    /\ parseAdsTxt isDomainName text parseOptions
       = Return {| variables := reparsed (variables m); fields := fields m |}.
Proof.
  intros Hf Hv Hnd Hh Hft Hopt.
  destruct (generateAdsTxt_lines isDomainName m header footer Hf Hv Hnd Hh Hft)
    as [text [Hg Hp]].
  exists text. split; [exact Hg|].
  apply parseAdsTxt_of_lines; assumption.
Qed.

End RoundTripTheorems.

(* ================================================================= *)
(** ** Further concrete runs *)

Lemma parseAdsTxt_throw_iff_filter_witness :
  parseAdsTxt hostName (js "example.com, 1, DIRECT" ++ [LF] ++ js "a=1")
              (Some (js "filter"))
  = Return {| variables := [(js "a", VString (js "1"))];
              fields := [mkField (Some (js "example.com")) (Some (js "1"))
                                 (Some (js "DIRECT")) None None] |}
  /\ Forall (fun l => recognised hostName l = true)
            (splitNewLine (js "example.com, 1, DIRECT" ++ [LF] ++ js "a=1")).
Proof.
  exact (proj1 (parseAdsTxt_throw_iff_filter hostName
                  (js "example.com, 1, DIRECT" ++ [LF] ++ js "a=1")
                  {| variables := [(js "a", VString (js "1"))];
                     fields := [mkField (Some (js "example.com")) (Some (js "1"))
                                        (Some (js "DIRECT")) None None] |})
               eq_refl).
Defined.

Lemma parseAdsTxt_throw_first_invalid_line_witness :
  parseAdsTxt hostName
    (js "example.com, 1, DIRECT" ++ [LF] ++ js "tooshort.com" ++ [LF] ++ js "x,y")
    (Some (js "throw"))
  = Throw (Error (js "Failed parsing ads.txt: Invalid line: "
                  ++ [QUOTE] ++ js "tooshort.com" ++ [QUOTE])).
Proof.
  exact (parseAdsTxt_throw_first_invalid_line hostName
           (js "example.com, 1, DIRECT" ++ [LF] ++ js "tooshort.com" ++ [LF] ++ js "x,y")
           [js "example.com, 1, DIRECT"] (js "tooshort.com") [js "x,y"]
           {| variables := [];
              fields := [mkField (Some (js "example.com")) (Some (js "1"))
                                 (Some (js "DIRECT")) None None] |}
           eq_refl eq_refl eq_refl).
Defined.

Lemma parseAdsTxt_skipped_lines_witness :
  parseAdsTxt hostName
    (js "# partners" ++ [LF] ++ js "example.com, 1, DIRECT" ++ [LF] ++ js "  ") None
  = parseAdsTxt hostName (js "example.com, 1, DIRECT") None.
Proof.
  exact (parseAdsTxt_skipped_lines hostName
           (js "# partners" ++ [LF] ++ js "example.com, 1, DIRECT" ++ [LF] ++ js "  ")
           (js "example.com, 1, DIRECT") None eq_refl).
Defined.

Lemma parseAdsTxt_fields_of_record_lines_witness :
  mapR createDataField
       (filter (isRecordLine hostName)
               (splitNewLine (js "a=1" ++ [LF] ++ js "example.com, 1, DIRECT"
                              ++ [LF] ++ js "bogus" ++ [LF] ++ js "test.net,2,reseller")))
  = Return [mkField (Some (js "example.com")) (Some (js "1"))
                    (Some (js "DIRECT")) None None;
            mkField (Some (js "test.net")) (Some (js "2"))
                    (Some (js "reseller")) None None].
Proof.
  exact (parseAdsTxt_fields_of_record_lines hostName
           (js "a=1" ++ [LF] ++ js "example.com, 1, DIRECT"
            ++ [LF] ++ js "bogus" ++ [LF] ++ js "test.net,2,reseller") None
           {| variables := [(js "a", VString (js "1"))];
              fields := [mkField (Some (js "example.com")) (Some (js "1"))
                                 (Some (js "DIRECT")) None None;
                         mkField (Some (js "test.net")) (Some (js "2"))
                                 (Some (js "reseller")) None None] |}
           eq_refl).
Defined.

Lemma parseAdsTxt_variable_names_witness :
  map fst [(js "b", VArray [js "1"; js "3"]); (js "a", VString (js "2"))]
  = firstSeen (variableNames
                 (splitNewLine (js "b=1" ++ [LF] ++ js "a=2" ++ [LF] ++ js "b=3")))
  /\ NoDup (map fst [(js "b", VArray [js "1"; js "3"]); (js "a", VString (js "2"))])
  /\ Forall (fun k => k <> [] /\ forallb isLetter k = true)
            (map fst [(js "b", VArray [js "1"; js "3"]); (js "a", VString (js "2"))]).
Proof.
  exact (parseAdsTxt_variable_names hostName
           (js "b=1" ++ [LF] ++ js "a=2" ++ [LF] ++ js "b=3") None
           {| variables := [(js "b", VArray [js "1"; js "3"]);
                            (js "a", VString (js "2"))];
              fields := [] |}
           eq_refl).
Defined.

Lemma generateAdsTxt_succeeds_iff_witness :
  exists text,
    generateAdsTxt hostName
      {| variables := [(js "CONTACT", VArray [])];
         fields := [mkField (Some (js "example.com")) (Some (js "1"))
                            (Some (js "Direct")) None None] |}
      (Some (js "top")) None = Return text.
Proof.
  exact (proj2 (generateAdsTxt_succeeds_iff hostName
                  {| variables := [(js "CONTACT", VArray [])];
                     fields := [mkField (Some (js "example.com")) (Some (js "1"))
                                        (Some (js "Direct")) None None] |}
                  (Some (js "top")) None)
               (conj eq_refl eq_refl)).
Defined.

Lemma generateAdsTxt_missing_accountType_witness :
  generateAdsTxt hostName
    {| variables := [];
       fields := [mkField (Some (js "example.com")) (Some (js "1"))
                          (Some (js "DIRECT")) None None;
                  mkField (Some (js "test.net")) (Some (js "2")) None None None] |}
    None None
  = Throw TypeError.
Proof.
  exact (generateAdsTxt_missing_accountType hostName
           {| variables := [];
              fields := [mkField (Some (js "example.com")) (Some (js "1"))
                                 (Some (js "DIRECT")) None None;
                         mkField (Some (js "test.net")) (Some (js "2")) None None None] |}
           None None
           [mkField (Some (js "example.com")) (Some (js "1"))
                    (Some (js "DIRECT")) None None]
           (mkField (Some (js "test.net")) (Some (js "2")) None None None) []
           [js "example.com, 1, DIRECT"]
           eq_refl eq_refl eq_refl eq_refl eq_refl).
Defined.

Lemma generateAdsTxt_invalid_variable_value_witness :
  generateAdsTxt hostName
    {| variables := [(js "CONTACT", VString (js "Jane")); (js "LIMIT", VOther (js "5"))];
       fields := [] |} None None
  = Throw (Error (js "Failed generating ads.txt variable line: Invalid variable value: 5")).
Proof.
  exact (generateAdsTxt_invalid_variable_value hostName
           {| variables := [(js "CONTACT", VString (js "Jane"));
                            (js "LIMIT", VOther (js "5"))];
              fields := [] |} None None
           [(js "CONTACT", VString (js "Jane"))] (js "LIMIT") (js "5") []
           eq_refl eq_refl eq_refl).
Defined.

Lemma parseAdsTxt_generateAdsTxt_comments_witness :
  let m := {| variables := [(js "CONTACT", VString (js "Jane Doe"))];
              fields := [mkField (Some (js "example.com")) (Some (js "pub 1"))
                                 (Some (js "DIRECT")) (Some (js "f08c47"))
                                 (Some (js "banner, video # 100%"));
                         mkField (Some (js "test.net")) (Some (js "555"))
                                 (Some (js "RESELLER")) None (Some (js "x"))] |} in
  exists text,
    generateAdsTxt hostName m (Some (js "My" ++ [LF] ++ js "Heading"))
                   (Some (js "end")) = Return text
    /\ parseAdsTxt hostName text (Some (js "throw")) = Return m.
Proof.
  intros m.
  apply (parseAdsTxt_generateAdsTxt_comments hostName m
           (Some (js "My" ++ [LF] ++ js "Heading")) (Some (js "end"))
           (Some (js "throw"))).
  - reflexivity.
  - reflexivity.
  - repeat constructor; simpl; intros H;
      repeat (destruct H as [H|H]; [vm_compute in H; discriminate|]);
      exact H.
  - reflexivity.
  - reflexivity.
  - right. right. left. reflexivity.
Defined.

Lemma parseAdsTxt_generateAdsTxt_arrays_witness :
  let m := {| variables := [(js "SUBDOMAIN", VArray [js "no1.test.com"; js "no2.test.com"]);
                            (js "CONTACT", VArray [js "Jane"]);
                            (js "OWNER", VArray [])];
              fields := [] |} in
  exists text,
    generateAdsTxt hostName m None None = Return text
    /\ parseAdsTxt hostName text None
       = Return {| variables := [(js "SUBDOMAIN", VArray [js "no1.test.com"; js "no2.test.com"]);
                                 (js "CONTACT", VString (js "Jane"))];
                   fields := [] |}.
Proof.
  intros m.
  apply (parseAdsTxt_generateAdsTxt_arrays hostName m None None None).
  - reflexivity.
  - reflexivity.
  - repeat constructor; simpl; intros H;
      repeat (destruct H as [H|H]; [vm_compute in H; discriminate|]);
      exact H.
  - reflexivity.
  - reflexivity.
  - left. reflexivity.
Defined.

(* ================================================================= *)
(** ** Lines *)

(** X14.  No line that [parseAdsTxt] classifies holds a carriage return or
    a line feed: NEW_LINE consumes every one of them as a separator. *)
Theorem splitNewLine_lines_oneLine text :
  Forall (fun l => oneLine l = true) (splitNewLine text).
Proof.
  assert (G : forall s,
             Forall (fun l => oneLine l = true) (splitNewLine s)
             /\ forall c, Forall (fun l => oneLine l = true)
                                 (splitNewLine (c :: s))).
  { induction s as [|d s [IH1 IH2]].
    - split; [repeat constructor|]. intros c. simpl.
      destruct (c =? CR) eqn:E1; [repeat constructor|].
      destruct (c =? LF) eqn:E2; repeat constructor.
      simpl. now rewrite E1, E2.
    - split; [apply IH2|]. intros c.
      change (splitNewLine (c :: d :: s)) with
        (if c =? CR then
           if d =? LF then [] :: splitNewLine s else [] :: splitNewLine (d :: s)
         else if c =? LF then [] :: splitNewLine (d :: s)
         else match splitNewLine (d :: s) with
              | [] => [[c]]
              | p :: ps => (c :: p) :: ps
              end).
      specialize (IH2 d).
      destruct (c =? CR) eqn:E1.
      { destruct (d =? LF); constructor; auto. }
      destruct (c =? LF) eqn:E2; [constructor; auto|].
      destruct (splitNewLine (d :: s)) as [|p ps].
      + repeat constructor. simpl. now rewrite E1, E2.
      + inversion IH2; subst. constructor; [|assumption].
        simpl. rewrite E1, E2. assumption. }
  apply G.
Qed.

(* ================================================================= *)
(** ** The first revision *)

Lemma replace_LINE_COMMENT_no_hash main :
  forallb (fun c => negb (c =? HASH)) main = true ->
  SourceIndex.replace_LINE_COMMENT main = main.
Proof.
  induction main as [|c main IH]; simpl; [reflexivity|].
  intros H. apply andb_true_iff in H. destruct H as [Hc Hm].
  apply negb_true_iff in Hc. rewrite Hc. simpl. now rewrite (IH Hm).
Qed.

Lemma replace_LINE_COMMENT_first_hash main raw :
  forallb (fun c => negb (c =? HASH)) main = true ->
  SourceIndex.replace_LINE_COMMENT (main ++ HASH :: raw)
  = if nonEmpty (Some raw) && forallb (fun x => negb (isLineTerminator x)) raw
    then main
    else main ++ HASH :: SourceIndex.replace_LINE_COMMENT raw.
Proof.
  induction main as [|c main IH]; intros H.
  - cbn [app SourceIndex.replace_LINE_COMMENT]. rewrite N.eqb_refl.
    cbn [andb].
    destruct (nonEmpty (Some raw)
              && forallb (fun x => negb (isLineTerminator x)) raw);
      reflexivity.
  - cbn [forallb] in H. apply andb_true_iff in H. destruct H as [Hc Hm].
    apply negb_true_iff in Hc.
    cbn [app SourceIndex.replace_LINE_COMMENT]. rewrite Hc. cbn [andb].
    rewrite (IH Hm).
    destruct (nonEmpty (Some raw)
              && forallb (fun x => negb (isLineTerminator x)) raw);
      reflexivity.
Qed.

(** X15.  On a line without line terminator the first revision removes the
    comment as [stripComment] does, except when the first hash sign is the
    last character of the line: LINE_COMMENT needs a character after the
    hash sign, so that line is left as it is. *)
Theorem replace_LINE_COMMENT_stripComment line :
  forallb (fun x => negb (isLineTerminator x)) line = true ->
  let main := fst (stripComment line) in
  SourceIndex.replace_LINE_COMMENT line
  = if jsstring_eqb line (main ++ [HASH]) then line else main.
Proof.
  intros Hlt main. unfold main, stripComment.
  destruct (split_head HASH line) as [p [ps [-> [Hp Hj]]]]. simpl fst.
  destruct ps as [|q qs].
  - simpl in Hj. subst p.
    rewrite (replace_LINE_COMMENT_no_hash _ Hp).
    destruct (jsstring_eqb line (line ++ [HASH])); reflexivity.
  - change (join [HASH] (p :: q :: qs)) with (p ++ HASH :: join [HASH] (q :: qs))
      in Hj.
    remember (join [HASH] (q :: qs)) as raw eqn:Hraw. clear Hraw.
    subst line. rewrite (replace_LINE_COMMENT_first_hash _ _ Hp).
    rewrite forallb_app in Hlt. apply andb_true_iff in Hlt.
    destruct Hlt as [_ Hlt].
    change (forallb (fun x => negb (isLineTerminator x)) raw = true) in Hlt.
    rewrite Hlt.
    destruct raw as [|r raw].
    + simpl. now rewrite jsstring_eqb_refl.
    + simpl. destruct (jsstring_eqb _ _) eqn:E; [|reflexivity].
      apply jsstring_eqb_eq in E. apply app_inv_head in E. discriminate.
Qed.

(** X16.  A line that ends with a line terminator, such as the carriage
    return that a CRLF text leaves at the end of each line of the first
    revision, keeps its comment: LINE_COMMENT cannot reach the end of the
    line. *)
Theorem replace_LINE_COMMENT_line_terminator s c :
  isLineTerminator c = true ->
  SourceIndex.replace_LINE_COMMENT (s ++ [c]) = s ++ [c].
Proof.
  intros Hc. induction s as [|x s IH]; simpl.
  - now rewrite andb_false_r.
  - rewrite forallb_app. simpl. rewrite Hc. simpl.
    rewrite !andb_false_r. now rewrite IH.
Qed.

Lemma canonical_accountType_upper t :
  In t AccountType -> In (toUpperCase t) AccountType.
Proof.
  intros [<-|[<-|[]]]; [left | right; left]; reflexivity.
Qed.

Lemma app_last_unit (x y z : jsstring) (c : N) :
  x ++ [c] = y ++ z -> z <> [] -> exists z', z = z' ++ [c].
Proof.
  intros H Hz. destruct (exists_last Hz) as [z' [c' ->]].
  rewrite app_assoc in H. apply app_inj_tail in H. destruct H as [_ ->].
  eauto.
Qed.

Lemma span_app {A} (p : A -> bool) l a b : span p l = (a, b) -> l = a ++ b.
Proof.
  revert a b. induction l as [|x l IH]; simpl; intros a b H.
  - now injection H as <- <-.
  - destruct (p x).
    + destruct (span p l) as [a' b'] eqn:E. injection H as <- <-.
      simpl. now rewrite (IH a' b').
    + now injection H as <- <-.
Qed.

(** A line that ends with a line terminator is not a variable assignment:
    the value of VARIABLE_DEFINITION cannot reach the end of the line. *)
Lemma VARIABLE_DEFINITION_line_terminator s c :
  isLineTerminator c = true -> VARIABLE_DEFINITION (s ++ [c]) = None.
Proof.
  intros Hc. unfold VARIABLE_DEFINITION.
  destruct (span isLetter (s ++ [c])) as [a b] eqn:E.
  apply span_app in E.
  destruct a as [|a0 a']; [reflexivity|].
  destruct b as [|e [|v0 v']]; try reflexivity.
  destruct (app_last_unit s ((a0 :: a') ++ [e]) (v0 :: v') c) as [z' Hz'];
    [now rewrite <- app_assoc | discriminate |].
  rewrite Hz', forallb_app. simpl. rewrite Hc. simpl.
  now rewrite !andb_false_r.
Qed.

Lemma splitAt_one sep s : SourceIndex.splitAt [sep] 0 s = split sep s.
Proof.
  induction s as [|c s IH]; simpl; [reflexivity|].
  rewrite andb_true_r, (N.eqb_sym sep c), IH. reflexivity.
Qed.

Lemma split_CRLF_lines ls :
  Forall (fun l => forallb (fun c => negb (c =? LF)) l = true) ls ->
  split LF (List.concat (map (fun l => l ++ [CR; LF]) ls))
  = map (fun l => l ++ [CR]) ls ++ [[]].
Proof.
  induction 1 as [|l ls Hl _ IH]; [reflexivity|].
  cbn [map List.concat app].
  replace ((l ++ [CR; LF]) ++ List.concat (map (fun l0 => l0 ++ [CR; LF]) ls))
    with ((l ++ [CR]) ++ LF :: List.concat (map (fun l0 => l0 ++ [CR; LF]) ls))
    by (now rewrite <- !app_assoc).
  rewrite split_app, IH; [reflexivity|].
  rewrite forallb_app, Hl. reflexivity.
Qed.

Section FirstRevision.

Variable domainExp : option jsstring -> bool.

Lemma SourceIndex_isDataField_pieces line :
  SourceIndex.isDataField domainExp line = true ->
  exists p0 p1 p2 rest,
    split COMMA (SourceIndex.replace_LINE_COMMENT line) = p0 :: p1 :: p2 :: rest
    /\ In (trim p2) AccountType.
Proof.
  unfold SourceIndex.isDataField.
  destruct (split COMMA (SourceIndex.replace_LINE_COMMENT line))
    as [|p0 [|p1 [|p2 rest]]]; simpl; try (rewrite andb_false_r; discriminate).
  intros H. apply andb_true_iff in H. destruct H as [_ Ht].
  exists p0, p1, p2, rest. split; [reflexivity|].
  apply (existsb_eqb_In (trim p2) AccountType). exact Ht.
Qed.

Lemma SourceIndex_createDataField_canonical line r :
  SourceIndex.isDataField domainExp line = true ->
  SourceIndex.createDataField line = Return r ->
  canonicalField r.
Proof.
  intros Hdf Hr.
  destruct (SourceIndex_isDataField_pieces _ Hdf) as [p0 [p1 [p2 [rest [Hs Ht]]]]].
  unfold SourceIndex.createDataField in Hr. rewrite Hs in Hr. simpl in Hr.
  apply bind_Return in Hr. destruct Hr as [items [Hi [= <-]]].
  apply bind_Return in Hi. destruct Hi as [d [Hd Hi]].
  apply bind_Return in Hi. destruct Hi as [i1 [Hi [= <-]]].
  apply bind_Return in Hi. destruct Hi as [p [Hp Hi]].
  apply bind_Return in Hi. destruct Hi as [i2 [Hi [= <-]]].
  apply bind_Return in Hi. destruct Hi as [t [Ht' Hi]].
  apply bind_Return in Hi. destruct Hi as [i3 [Hi [= <-]]].
  rewrite (valid_accountType_decode _ (canonical_accountType_upper _ Ht)) in Ht'.
  injection Ht' as <-.
  unfold canonicalField. simpl. repeat split; eauto.
Qed.

Lemma SourceIndex_parseLine_canonical action m line m' :
  Forall canonicalField (fields m) ->
  SourceIndex.parseLine domainExp action m line = Return m' ->
  Forall canonicalField (fields m').
Proof.
  intros Hf Hp. unfold SourceIndex.parseLine in Hp.
  destruct (isComment line || EMPTY_LINE line).
  { now injection Hp as <-. }
  destruct (VARIABLE_DEFINITION line) as [[n value]|].
  - destruct (getProperty (variables m) n) as [[s|a|o]|];
      apply bind_Return in Hp; destruct Hp as [v [_ [= <-]]]; assumption.
  - destruct (SourceIndex.isDataField domainExp line) eqn:Hdf.
    + apply bind_Return in Hp. destruct Hp as [f [Hc [= <-]]]. simpl.
      apply Forall_app. split; [assumption|].
      constructor; [|constructor].
      eapply SourceIndex_createDataField_canonical; eauto.
    + destruct (jsstring_eqb action (js "throw")); [discriminate|].
      now injection Hp as <-.
Qed.

(** X17.  In the first revision account types are matched as written, so
    every record that [parseAdsTxt] returns has a domain, a publisher
    account ID and an account type that is exactly DIRECT or RESELLER, and
    no comment, whatever the options are. *)
Theorem SourceIndex_parseAdsTxt_canonical text parseOptions m :
  SourceIndex.parseAdsTxt domainExp text parseOptions = Return m ->
  Forall canonicalField (fields m).
Proof.
  unfold SourceIndex.parseAdsTxt.
  destruct (negb (existsb _ _)); [discriminate|].
  generalize (SourceIndex.splitString
                match SourceIndex.newLine parseOptions with
                | Some n => n
                | None => SourceIndex.DEFAULT_OPTIONS_newLine
                end text) as lines.
  intros lines.
  assert (G : forall m0, Forall canonicalField (fields m0) ->
              forEach (SourceIndex.parseLine domainExp
                         match SourceIndex.invalidLineAction parseOptions with
                         | Some a => a
                         | None => DEFAULT_OPTIONS_invalidLineAction
                         end) lines m0 = Return m ->
              Forall canonicalField (fields m)).
  { induction lines as [|line lines IH]; intros m0 H0 H; simpl in H.
    - now injection H as <-.
    - apply bind_Return in H. destruct H as [m1 [H1 H]].
      apply (IH m1); [|exact H].
      eapply SourceIndex_parseLine_canonical; eauto. }
  apply G. constructor.
Qed.

Lemma SourceIndex_parseLine_no_variable action m line m' :
  VARIABLE_DEFINITION line = None ->
  SourceIndex.parseLine domainExp action m line = Return m' ->
  variables m' = variables m.
Proof.
  intros Hv Hp. unfold SourceIndex.parseLine in Hp. rewrite Hv in Hp.
  destruct (isComment line || EMPTY_LINE line).
  { now injection Hp as <-. }
  destruct (SourceIndex.isDataField domainExp line).
  - apply bind_Return in Hp. destruct Hp as [f [_ [= <-]]]. reflexivity.
  - destruct (jsstring_eqb action (js "throw")); [discriminate|].
    now injection Hp as <-.
Qed.

(** X18.  The first revision splits at line feeds only, so in a text whose
    lines all end with CRLF every line keeps its carriage return and none is
    a variable assignment: when [parseAdsTxt] returns with the default
    [newLine], the manifest has no variables. *)
Theorem SourceIndex_parseAdsTxt_CRLF_no_variables ls action m :
  Forall (fun l => forallb (fun c => negb (c =? LF)) l = true) ls ->
  SourceIndex.parseAdsTxt domainExp
    (List.concat (map (fun l => l ++ [CR; LF]) ls))
    (SourceIndex.mkOptions action None) = Return m ->
  variables m = [].
Proof.
  intros Hls. unfold SourceIndex.parseAdsTxt. simpl SourceIndex.newLine.
  destruct (negb (existsb _ _)); [discriminate|].
  unfold SourceIndex.splitString, SourceIndex.DEFAULT_OPTIONS_newLine.
  rewrite splitAt_one, (split_CRLF_lines _ Hls).
  assert (Hlines : Forall (fun l => VARIABLE_DEFINITION l = None)
                          (map (fun l => l ++ [CR]) ls ++ [[]])).
  { apply Forall_app. split; [|repeat constructor].
    apply Forall_forall. intros l Hl. apply in_map_iff in Hl.
    destruct Hl as [l0 [<- _]].
    now apply VARIABLE_DEFINITION_line_terminator. }
  revert Hlines. generalize (map (fun l => l ++ [CR]) ls ++ [[]]) as lines.
  intros lines Hlines.
  assert (G : forall m0,
              forEach (SourceIndex.parseLine domainExp
                         match SourceIndex.invalidLineAction
                                 (SourceIndex.mkOptions action None) with
                         | Some a => a
                         | None => DEFAULT_OPTIONS_invalidLineAction
                         end) lines m0 = Return m ->
              variables m = variables m0).
  { induction Hlines as [|line lines Hl _ IH]; intros m0 H; simpl in H.
    - now injection H as <-.
    - apply bind_Return in H. destruct H as [m1 [H1 H]].
      rewrite (IH m1 H).
      eapply SourceIndex_parseLine_no_variable; eauto. }
  intros H. apply (G _ H).
Qed.

End FirstRevision.

(* ================================================================= *)
(** ** The second revision *)

Lemma mapR_agree {A B} (f g : A -> result B) l ys :
  (forall x y, f x = Return y -> g x = Return y) ->
  mapR f l = Return ys -> mapR g l = Return ys.
Proof.
  intros Hfg. revert ys. induction l as [|x l IH]; intros ys H; simpl in *.
  - exact H.
  - apply bind_Return in H. destruct H as [y [Hy H]].
    apply bind_Return in H. destruct H as [ys' [Hys [= <-]]].
    now rewrite (Hfg _ _ Hy), (IH _ Hys).
Qed.

Lemma split_LF_splitNewLine s :
  forallb (fun c => negb (c =? CR)) s = true -> splitNewLine s = split LF s.
Proof.
  induction s as [|c s IH]; simpl; [reflexivity|].
  intros H. apply andb_true_iff in H. destruct H as [Hc Hs].
  apply negb_true_iff in Hc. rewrite Hc, (IH Hs). reflexivity.
Qed.

Section SecondRevision.

Variable domainExp : option jsstring -> bool.

(** X19.  In the second revision generation compares the account type as
    written: a record with a valid domain and a non-empty publisher account
    ID whose account type is missing or is not exactly DIRECT or RESELLER is
    refused with the invalid-account-type error, which is the error of
    [generateAdsTxt] when the records before it are accepted. *)
Theorem Part000_generateAdsTxt_case_sensitive m header footer pre field post ls :
  fields m = pre ++ field :: post ->
  mapR (Part000.generateLineForField domainExp) pre = Return ls ->
  domainExp (domain field) = true ->
  nonEmpty (publisherAccountID field) = true ->
  (forall t, accountType field = Some t -> ~ In t AccountType) ->
  Part000.generateAdsTxt domainExp m header footer
  = Throw (Error (js "Failed generating ads.txt line: Invalid account type: "
                  ++ toString (accountType field))).
Proof.
  intros Hm Hpre Hd Hp Ht.
  assert (Hv : Part000.isValidAccountType (accountType field) = false).
  { destruct (accountType field) as [t|]; [|reflexivity].
    unfold Part000.isValidAccountType.
    destruct (existsb (jsstring_eqb t) AccountType) eqn:E; [|reflexivity].
    apply existsb_eqb_In in E. now elim (Ht t eq_refl). }
  unfold Part000.generateAdsTxt. rewrite Hm.
  rewrite (mapR_first_throw _ pre field post ls
             (Error (js "Failed generating ads.txt line: Invalid account type: "
                     ++ toString (accountType field))) Hpre);
    [reflexivity|].
  unfold Part000.generateLineForField. now rewrite Hd, Hp, Hv.
Qed.

Lemma Part000_generateLineForField_agree field line :
  Part000.generateLineForField domainExp field = Return line ->
  generateLineForField domainExp field = Return line.
Proof.
  unfold Part000.generateLineForField, generateLineForField.
  destruct (domainExp (domain field)); simpl; [|discriminate].
  destruct (nonEmpty (publisherAccountID field)); simpl; [|discriminate].
  destruct (accountType field) as [t|]; [|discriminate].
  unfold Part000.isValidAccountType.
  destruct (existsb (jsstring_eqb t) AccountType) eqn:E; [|discriminate].
  apply existsb_eqb_In, canonical_accountType_upper in E.
  rewrite (isValidAccountType_valid _ E). simpl. auto.
Qed.

(** X20.  The case-folding of the current revision only accepts more: with
    one and the same domain predicate, every text that the second revision
    generates for a manifest is generated, unchanged, by the current
    [generateAdsTxt]. *)
Theorem Part000_generateAdsTxt_agree m header footer text :
  Part000.generateAdsTxt domainExp m header footer = Return text ->
  generateAdsTxt domainExp m header footer = Return text.
Proof.
  unfold Part000.generateAdsTxt, generateAdsTxt. intros H.
  apply bind_Return in H. destruct H as [fl [Hf H]].
  rewrite (mapR_agree _ _ _ _ Part000_generateLineForField_agree Hf). exact H.
Qed.

Lemma Part000_isDataField_agree line :
  Part000.isDataField domainExp line = true ->
  isDataField domainExp line = true.
Proof.
  unfold Part000.isDataField, isDataField.
  destruct (stripComment line) as [main c].
  cbv zeta.
  destruct (nth_error (map trim (split COMMA main)) 2) as [t|];
    [|cbn [Part000.isValidAccountType]; rewrite andb_false_r; discriminate].
  unfold Part000.isValidAccountType.
  intros H. apply andb_true_iff in H. destruct H as [-> Ht].
  apply existsb_eqb_In, canonical_accountType_upper in Ht.
  now rewrite (isValidAccountType_valid _ Ht).
Qed.

Lemma Part000_parseLine_agree m line m' :
  Part000.parseLine domainExp (js "throw") m line = Return m' ->
  parseLine domainExp (js "throw") m line = Return m'.
Proof.
  unfold Part000.parseLine, parseLine.
  destruct (isComment line || EMPTY_LINE line); [auto|].
  destruct (VARIABLE_DEFINITION line) as [[n v]|]; [auto|].
  destruct (Part000.isDataField domainExp line) eqn:E.
  - now rewrite (Part000_isDataField_agree _ E).
  - change (jsstring_eqb (js "throw") (js "throw")) with true. discriminate.
Qed.

(** X21.  Under the throw policy the current parser accepts what the second
    revision accepted: with one and the same domain predicate, a text
    without carriage return from which the second revision returns a
    manifest gives the same manifest with the current [parseAdsTxt]. *)
Theorem Part000_parseAdsTxt_throw_agree text m :
  forallb (fun c => negb (c =? CR)) text = true ->
  Part000.parseAdsTxt domainExp text (Some (js "throw")) = Return m ->
  parseAdsTxt domainExp text (Some (js "throw")) = Return m.
Proof.
  intros Hcr. unfold Part000.parseAdsTxt, parseAdsTxt.
  change (negb (existsb (jsstring_eqb (js "throw")) [js "filter"; js "throw"]))
    with false. cbv iota.
  rewrite (split_LF_splitNewLine _ Hcr).
  generalize (split LF text) as lines.
  generalize {| variables := []; fields := [] |} as m0.
  intros m0 lines. revert m0.
  induction lines as [|line lines IH]; intros m0 H; simpl in *; [exact H|].
  apply bind_Return in H. destruct H as [m1 [H1 H]].
  rewrite (Part000_parseLine_agree _ _ _ H1). simpl. now apply IH.
Qed.

End SecondRevision.

(* ================================================================= *)
(** ** Concrete runs of the earlier revisions *)

Lemma replace_LINE_COMMENT_stripComment_witness :
  SourceIndex.replace_LINE_COMMENT (js "example.com, 1, DIRECT # shop #1")
  = js "example.com, 1, DIRECT "
  /\ SourceIndex.replace_LINE_COMMENT (js "example.com, 1, DIRECT #")
     = js "example.com, 1, DIRECT #".
Proof.
  split.
  - exact (replace_LINE_COMMENT_stripComment
             (js "example.com, 1, DIRECT # shop #1") eq_refl).
  - exact (replace_LINE_COMMENT_stripComment
             (js "example.com, 1, DIRECT #") eq_refl).
Defined.

Lemma replace_LINE_COMMENT_line_terminator_witness :
  SourceIndex.replace_LINE_COMMENT (js "example.com, 1, DIRECT #Test" ++ [CR])
  = js "example.com, 1, DIRECT #Test" ++ [CR].
Proof.
  exact (replace_LINE_COMMENT_line_terminator
           (js "example.com, 1, DIRECT #Test") CR eq_refl).
Defined.

Lemma SourceIndex_parseAdsTxt_canonical_witness :
  Forall canonicalField
    [mkField (Some (js "example.com")) (Some (js "1")) (Some (js "DIRECT"))
             None None].
Proof.
  exact (SourceIndex_parseAdsTxt_canonical hostName
           (js "example.com, 1, DIRECT # x" ++ [LF] ++ js "test.net, 2, direct")
           (SourceIndex.mkOptions None None)
           {| variables := [];
              fields := [mkField (Some (js "example.com")) (Some (js "1"))
                                 (Some (js "DIRECT")) None None] |}
           eq_refl).
Defined.

Lemma SourceIndex_parseAdsTxt_CRLF_no_variables_witness :
  variables {| variables := [];
               fields := [mkField (Some (js "example.com")) (Some (js "1"))
                                  (Some (js "DIRECT")) None None] |} = [].
Proof.
  refine (SourceIndex_parseAdsTxt_CRLF_no_variables hostName
            [js "CONTACT=Jane"; js "example.com, 1, DIRECT"] None
            {| variables := [];
               fields := [mkField (Some (js "example.com")) (Some (js "1"))
                                  (Some (js "DIRECT")) None None] |}
            _ eq_refl).
  repeat constructor.
Defined.

Lemma Part000_generateAdsTxt_case_sensitive_witness :
  Part000.generateAdsTxt hostName
    {| variables := [];
       fields := [mkField (Some (js "example.com")) (Some (js "1"))
                          (Some (js "direct")) None None] |} None None
  = Throw (Error (js "Failed generating ads.txt line: Invalid account type: direct")).
Proof.
  refine (Part000_generateAdsTxt_case_sensitive hostName
            {| variables := [];
               fields := [mkField (Some (js "example.com")) (Some (js "1"))
                                  (Some (js "direct")) None None] |} None None
            [] (mkField (Some (js "example.com")) (Some (js "1"))
                        (Some (js "direct")) None None) [] []
            eq_refl eq_refl eq_refl eq_refl _).
  intros t Ht. injection Ht as <-.
  intros [H|[H|[]]]; vm_compute in H; discriminate.
Defined.

Lemma Part000_generateAdsTxt_agree_witness :
  generateAdsTxt hostName
    {| variables := [(js "CONTACT", VString (js "John Doe"))];
       fields := [mkField (Some (js "test-site.com")) (Some (js "abcdef123"))
                          (Some (js "DIRECT")) (Some (js "ffffff"))
                          (Some (js "Some Network"))] |} None None
  = Return (js "test-site.com, abcdef123, DIRECT, ffffff # Some Network"
            ++ [LF] ++ js "CONTACT=John Doe").
Proof.
  exact (Part000_generateAdsTxt_agree hostName
           {| variables := [(js "CONTACT", VString (js "John Doe"))];
              fields := [mkField (Some (js "test-site.com")) (Some (js "abcdef123"))
                                 (Some (js "DIRECT")) (Some (js "ffffff"))
                                 (Some (js "Some Network"))] |} None None
           (js "test-site.com, abcdef123, DIRECT, ffffff # Some Network"
            ++ [LF] ++ js "CONTACT=John Doe")
           eq_refl).
Defined.

Lemma Part000_parseAdsTxt_throw_agree_witness :
  parseAdsTxt hostName
    (js "example.com, 1, DIRECT # x" ++ [LF] ++ js "CONTACT=Jane")
    (Some (js "throw"))
  = Return {| variables := [(js "CONTACT", VString (js "Jane"))];
              fields := [mkField (Some (js "example.com")) (Some (js "1"))
                                 (Some (js "DIRECT")) None (Some (js "x"))] |}.
Proof.
  exact (Part000_parseAdsTxt_throw_agree hostName
           (js "example.com, 1, DIRECT # x" ++ [LF] ++ js "CONTACT=Jane")
           {| variables := [(js "CONTACT", VString (js "Jane"))];
              fields := [mkField (Some (js "example.com")) (Some (js "1"))
                                 (Some (js "DIRECT")) None (Some (js "x"))] |}
           eq_refl eq_refl).
Defined.

(* ================================================================= *)
(** ** Line separators *)

Lemma wellSeparated_lines first rest :
  wellSeparated first rest = true ->
  Forall (fun l => oneLine l = true) (first :: map snd rest).
Proof.
  revert first. induction rest as [|[sep line] rest IH]; intros first H;
    simpl in H; apply andb_true_iff in H; destruct H as [Hf H].
  - repeat constructor. exact Hf.
  - apply andb_true_iff in H. destruct H as [_ Hrest].
    constructor; [exact Hf | exact (IH line Hrest)].
Qed.

(** Whatever separators stand between them, the lines of a well separated
    text are what [split(NEW_LINE)] gives. *)
Lemma splitNewLine_separated first rest :
  wellSeparated first rest = true ->
  splitNewLine (separated first rest) = first :: map snd rest.
Proof.
  revert first. induction rest as [|[sep line] rest IH]; intros first H;
    simpl in H; apply andb_true_iff in H; destruct H as [Hf H].
  - simpl. now apply splitNewLine_oneLine.
  - apply andb_true_iff in H. destruct H as [H Hrest].
    apply andb_true_iff in H. destruct H as [Hsep Hcr].
    specialize (IH line Hrest).
    apply (existsb_eqb_In sep [[LF]; [CR; LF]; [CR]]) in Hsep.
    cbn [separated map snd].
    destruct Hsep as [<-|[<-|[<-|[]]]].
    + change (first ++ [LF] ++ separated line rest)
        with (first ++ LF :: separated line rest).
      now rewrite (splitNewLine_LF _ _ Hf), IH.
    + change (first ++ [CR; LF] ++ separated line rest)
        with (first ++ CR :: LF :: separated line rest).
      now rewrite (splitNewLine_CRLF _ _ Hf), IH.
    + change (first ++ [CR] ++ separated line rest)
        with (first ++ CR :: separated line rest).
      rewrite (splitNewLine_CR _ _ Hf), IH; [reflexivity|].
      rewrite jsstring_eqb_refl in Hcr. simpl in Hcr.
      apply negb_true_iff in Hcr.
      destruct (separated line rest) as [|c t]; [discriminate|].
      simpl in *. intros [= ->]. discriminate.
Qed.

(** C6: the [parseAdsTxt] of [source/index.js], which the claim also names,
    splits the scenario text at the line feed alone: the first line keeps
    its carriage return and its comment and is filtered out, and two fields
    are returned, not three. *)
Lemma SourceIndex_parseAdsTxt_scenario_two_fields :
  SourceIndex.parseAdsTxt hostName scenarioText (SourceIndex.mkOptions None None)
  = Return {| variables := [];
              fields := [mkField (Some (js "website.org")) (Some (js "my name"))
                                 (Some (js "RESELLER"))
                                 (Some (js "fafdf38b16bf6")) None;
                         mkField (Some (js "test.net")) (Some (js "555"))
                                 (Some (js "DIRECT")) None None] |}
  /\ ~ exists f1 f2 f3,
         SourceIndex.parseAdsTxt hostName scenarioText
                                 (SourceIndex.mkOptions None None)
         = Return {| variables := []; fields := [f1; f2; f3] |}.
Proof.
  split; [reflexivity|].
  intros [f1 [f2 [f3 H]]]. vm_compute in H. discriminate.
Qed.

Section LineSeparators.

Variable isDomainName : option jsstring -> bool.

(** C6 (amended).  The [parseAdsTxt] that splits with NEW_LINE treats the
    three line separators alike, wherever they occur: a text whose lines are
    separated by any mixture of [\n], [\r\n] and bare [\r] is parsed as the
    same lines joined with [\n], under any options, and with valid options
    its result is that of the loop over exactly these lines.  The scenario
    of the unit tests gives three records, the second with publisher account
    ID [my name] and certificate authority ID [fafdf38b16bf6].  The
    [parseAdsTxt] of [source/index.js] with its default [newLine] loops over
    the pieces between line feeds only. *)
Theorem parseAdsTxt_line_separators :
  isDomainName (Some (js "my.domain.com")) = true ->
  isDomainName (Some (js "website.org")) = true ->
  isDomainName (Some (js "test.net")) = true ->
  (forall first rest parseOptions,
     wellSeparated first rest = true ->
     parseAdsTxt isDomainName (separated first rest) parseOptions
     = parseAdsTxt isDomainName (join [LF] (first :: map snd rest)) parseOptions)
  /\ (forall first rest parseOptions action,
        wellSeparated first rest = true ->
        In (parseOptions, action)
           [(None, js "filter"); (Some (js "filter"), js "filter");
            (Some (js "throw"), js "throw")] ->
        parseAdsTxt isDomainName (separated first rest) parseOptions
        = forEach (parseLine isDomainName action) (first :: map snd rest)
                  {| variables := []; fields := [] |})
  /\ (exists f1 f2 f3,
        parseAdsTxt isDomainName scenarioText None
        = Return {| variables := []; fields := [f1; f2; f3] |}
        /\ publisherAccountID f2 = Some (js "my name")
        /\ certificateAuthorityID f2 = Some (js "fafdf38b16bf6"))
  /\ (forall text parseOptions action,
        In (parseOptions, action)
           [(None, js "filter"); (Some (js "filter"), js "filter");
            (Some (js "throw"), js "throw")] ->
        SourceIndex.parseAdsTxt isDomainName text
                                (SourceIndex.mkOptions parseOptions None)
        = forEach (SourceIndex.parseLine isDomainName action) (split LF text)
                  {| variables := []; fields := [] |}).
Proof.
  intros H1 H2 H3. split; [|split; [|split]].
  - intros first rest parseOptions H. unfold parseAdsTxt.
    rewrite (splitNewLine_separated _ _ H).
    rewrite (splitNewLine_join (first :: map snd rest));
      [reflexivity | now apply wellSeparated_lines | discriminate].
  - intros first rest parseOptions action H Hopt. unfold parseAdsTxt.
    rewrite (splitNewLine_separated _ _ H).
    destruct Hopt as [[= <- <-]|[[= <- <-]|[[= <- <-]|[]]]]; reflexivity.
  - now apply parseAdsTxt_scenario.
  - intros text parseOptions action Hopt.
    unfold SourceIndex.parseAdsTxt, SourceIndex.splitString.
    cbn [SourceIndex.newLine SourceIndex.invalidLineAction].
    unfold SourceIndex.DEFAULT_OPTIONS_newLine. rewrite splitAt_one.
    destruct Hopt as [[= <- <-]|[[= <- <-]|[[= <- <-]|[]]]]; reflexivity.
Qed.

End LineSeparators.

Lemma parseAdsTxt_line_separators_witness :
  parseAdsTxt hostName
    (separated (js "a.com,1,DIRECT")
               [([CR], js "b.com,2,DIRECT"); ([CR; LF], js "");
                ([LF], js "c.com,3,RESELLER")]) None
  = parseAdsTxt hostName
      (js "a.com,1,DIRECT" ++ [LF] ++ js "b.com,2,DIRECT" ++ [LF] ++ [LF]
       ++ js "c.com,3,RESELLER") None
  /\ exists f1 f2 f3,
       parseAdsTxt hostName scenarioText None
       = Return {| variables := []; fields := [f1; f2; f3] |}
       /\ publisherAccountID f2 = Some (js "my name")
       /\ certificateAuthorityID f2 = Some (js "fafdf38b16bf6").
Proof.
  split.
  - exact (proj1 (parseAdsTxt_line_separators hostName eq_refl eq_refl eq_refl)
             (js "a.com,1,DIRECT")
             [([CR], js "b.com,2,DIRECT"); ([CR; LF], js "");
              ([LF], js "c.com,3,RESELLER")] None eq_refl).
  - exact (proj1 (proj2 (proj2 (parseAdsTxt_line_separators hostName
                                  eq_refl eq_refl eq_refl)))).
Defined.
